(** * reveal.js-broadcast: state and event synchronisation

    A shallow embedding of the two variants of the plugin found in the
    repository and the properties of its synchronisation protocol.

    - [Part000] embeds [src/unnamed/part_000], the variant with the
      debounced state publisher, the remote-change blackout and the
      [socketId] guard in [init] (it emits on 'multihost-statechanged').
    - [BroadcastJs] embeds [src/broadcast.js], the variant that publishes
      every state change at once and selects its roles with the [master]
      and [client] options (it emits on 'multiplex-statechanged').

    JavaScript objects used as flat records are finite maps from property
    names to scalar values; [Date.now()] is an explicit argument of every
    handler; the browser's timer table, the presentation engine and the
    socket are explicit components of the state. *)

From stdpp Require Import gmap strings list.

Open Scope Z_scope.

(** ** JavaScript scalars and flat records *)

(** Scalar values. Numbers are the integers: slide and fragment indices and
    millisecond timestamps are all the plugin handles, so [NaN], the two
    zeros and fractions are left out. *)
Inductive value : Type :=
  | VUndefined
  | VNull
  | VBool (b : bool)
  | VNum (n : Z)
  | VStr (s : string).

#[global] Instance value_eq_dec : EqDecision value.
Proof. solve_decision. Defined.

(** [a === b] on scalars. *)
Definition strict_eq (a b : value) : bool := bool_decide (a = b).

(** [a !== b] on scalars. *)
Definition strict_ne (a b : value) : bool := negb (strict_eq a b).

(** JavaScript truthiness of a scalar, as tested by [if (v)]. *)
Definition truthy (v : value) : bool :=
  match v with
  | VUndefined | VNull => false
  | VBool b => b
  | VNum n => negb (n =? 0)
  | VStr s => negb (bool_decide (s = EmptyString))
  end.

(** A StateRecord: the plain object returned by [deck.getState()]. Records
    are values here, so the copy [{...state}] is the record itself. *)
Abbreviation StateRecord := (gmap string value).

(** Property read [o.k] (and [o[k]]): an absent property reads as
    [undefined]. The records are plain data objects whose property names
    do not clash with members of [Object.prototype]. *)
Definition get (o : StateRecord) (k : string) : value :=
  default VUndefined (o !! k).

(** The payload of a socket message, outbound ([socket.emit]) or inbound
    (the argument of the subscription handler). An absent [state] or
    [events] property is [None]; a present one is an object or an array,
    which is truthy even when empty. *)
Record message : Type := Message {
  m_secret : value;
  m_socketId : value;
  m_state : option StateRecord;
  m_events : option (list value)
}.

#[global] Instance message_eq_dec : EqDecision message.
Proof. solve_decision. Defined.

(** ** The variant of [src/unnamed/part_000] *)

Module Part000.

(** [this.options] after the merge with the user's configuration.
    [socketJs] and [socketUrl] are only handed to the script loader and to
    [io], and are left out. *)
Record options : Type := Options {
  secret : value;
  socketId : value;
  eventDispatchDelay : Z;
  stateDispatchDelay : Z;
  remoteStateChangeBlackout : Z
}.

(** The default options of the constructor: no [secret], no [socketId]. *)
Definition defaultOptions : options :=
  {| secret := VUndefined; socketId := VUndefined;
     eventDispatchDelay := 100; stateDispatchDelay := 500;
     remoteStateChangeBlackout := 2000 |}.

(** The user's configuration object [reveal.getConfig()['broadcast']];
    [None] in a field means that the key is absent. *)
Record config : Type := Config {
  c_secret : option value;
  c_socketId : option value;
  c_eventDispatchDelay : option Z;
  c_stateDispatchDelay : option Z;
  c_remoteStateChangeBlackout : option Z
}.

(** [Object.assign(this.options, cfg)]. *)
Definition assign (o : options) (c : config) : options :=
  {| secret := default (secret o) (c_secret c);
     socketId := default (socketId o) (c_socketId c);
     eventDispatchDelay := default (eventDispatchDelay o) (c_eventDispatchDelay c);
     stateDispatchDelay := default (stateDispatchDelay o) (c_stateDispatchDelay c);
     remoteStateChangeBlackout :=
       default (remoteStateChangeBlackout o) (c_remoteStateChangeBlackout c) |}.

(** What a pending timer runs when it fires: the two closures passed to
    [setTimeout]. The closure of [handleStateChange] captures the local
    variable [state]. *)
Inductive callback : Type :=
  | CbDispatchState (state : StateRecord)
  | CbDispatchEvents.

(** A pending timer of the browser: its handle (a positive integer, hence
    truthy), the time from which it may fire, and its callback. *)
Record timer : Type := Timer {
  t_id : positive;
  t_due : Z;
  t_cb : callback
}.

(** The plugin instance together with the part of its host it talks to. *)
Record world : Type := World {
  (* the instance: this.* *)
  opts : options;
  socket : bool;                          (* false: null *)
  setupFinished : bool;
  lastStateChange : Z;
  stateDispatchTimer : option positive;   (* None: null *)
  lastSharedState : option StateRecord;   (* None: null *)
  lastRemoteStateChange : Z;
  lastEventDispatch : Z;
  eventDispatchTimer : option positive;   (* None: null *)
  eventQueue : list value;
  (* the host *)
  deck : StateRecord;          (* the presentation engine's current state *)
  timers : list timer;         (* pending timers, oldest first *)
  nextTimer : positive;        (* the next handle setTimeout returns *)
  scriptRequested : bool;      (* loadJavaScript was called *)
  masterWired : bool;          (* the listeners of setupMaster are installed *)
  clientWired : bool;          (* the subscription of setupClient is installed *)
  emitted : list message;      (* socket.emit('multihost-statechanged', _), oldest first *)
  applied : list StateRecord;  (* deck.setState(_), oldest first *)
  received : list value;       (* contents of the 'received' events dispatched *)
  clock : Z                    (* the time of the last event handled *)
}.

(** Field assignments [this.f = v] (and their counterparts on the host). *)

Definition set_opts (v : options) (w : world) : world :=
  World v (socket w) (setupFinished w) (lastStateChange w)
    (stateDispatchTimer w) (lastSharedState w) (lastRemoteStateChange w)
    (lastEventDispatch w) (eventDispatchTimer w) (eventQueue w) (deck w)
    (timers w) (nextTimer w) (scriptRequested w) (masterWired w)
    (clientWired w) (emitted w) (applied w) (received w) (clock w).

Definition set_socket (v : bool) (w : world) : world :=
  World (opts w) v (setupFinished w) (lastStateChange w)
    (stateDispatchTimer w) (lastSharedState w) (lastRemoteStateChange w)
    (lastEventDispatch w) (eventDispatchTimer w) (eventQueue w) (deck w)
    (timers w) (nextTimer w) (scriptRequested w) (masterWired w)
    (clientWired w) (emitted w) (applied w) (received w) (clock w).

Definition set_setupFinished (v : bool) (w : world) : world :=
  World (opts w) (socket w) v (lastStateChange w) (stateDispatchTimer w)
    (lastSharedState w) (lastRemoteStateChange w) (lastEventDispatch w)
    (eventDispatchTimer w) (eventQueue w) (deck w) (timers w) (nextTimer w)
    (scriptRequested w) (masterWired w) (clientWired w) (emitted w)
    (applied w) (received w) (clock w).

Definition set_lastStateChange (v : Z) (w : world) : world :=
  World (opts w) (socket w) (setupFinished w) v (stateDispatchTimer w)
    (lastSharedState w) (lastRemoteStateChange w) (lastEventDispatch w)
    (eventDispatchTimer w) (eventQueue w) (deck w) (timers w) (nextTimer w)
    (scriptRequested w) (masterWired w) (clientWired w) (emitted w)
    (applied w) (received w) (clock w).

Definition set_stateDispatchTimer (v : option positive) (w : world) : world :=
  World (opts w) (socket w) (setupFinished w) (lastStateChange w) v
    (lastSharedState w) (lastRemoteStateChange w) (lastEventDispatch w)
    (eventDispatchTimer w) (eventQueue w) (deck w) (timers w) (nextTimer w)
    (scriptRequested w) (masterWired w) (clientWired w) (emitted w)
    (applied w) (received w) (clock w).

Definition set_lastSharedState (v : option StateRecord) (w : world) : world :=
  World (opts w) (socket w) (setupFinished w) (lastStateChange w)
    (stateDispatchTimer w) v (lastRemoteStateChange w) (lastEventDispatch w)
    (eventDispatchTimer w) (eventQueue w) (deck w) (timers w) (nextTimer w)
    (scriptRequested w) (masterWired w) (clientWired w) (emitted w)
    (applied w) (received w) (clock w).

Definition set_lastRemoteStateChange (v : Z) (w : world) : world :=
  World (opts w) (socket w) (setupFinished w) (lastStateChange w)
    (stateDispatchTimer w) (lastSharedState w) v (lastEventDispatch w)
    (eventDispatchTimer w) (eventQueue w) (deck w) (timers w) (nextTimer w)
    (scriptRequested w) (masterWired w) (clientWired w) (emitted w)
    (applied w) (received w) (clock w).

Definition set_lastEventDispatch (v : Z) (w : world) : world :=
  World (opts w) (socket w) (setupFinished w) (lastStateChange w)
    (stateDispatchTimer w) (lastSharedState w) (lastRemoteStateChange w) v
    (eventDispatchTimer w) (eventQueue w) (deck w) (timers w) (nextTimer w)
    (scriptRequested w) (masterWired w) (clientWired w) (emitted w)
    (applied w) (received w) (clock w).

Definition set_eventDispatchTimer (v : option positive) (w : world) : world :=
  World (opts w) (socket w) (setupFinished w) (lastStateChange w)
    (stateDispatchTimer w) (lastSharedState w) (lastRemoteStateChange w)
    (lastEventDispatch w) v (eventQueue w) (deck w) (timers w) (nextTimer w)
    (scriptRequested w) (masterWired w) (clientWired w) (emitted w)
    (applied w) (received w) (clock w).

Definition set_eventQueue (v : list value) (w : world) : world :=
  World (opts w) (socket w) (setupFinished w) (lastStateChange w)
    (stateDispatchTimer w) (lastSharedState w) (lastRemoteStateChange w)
    (lastEventDispatch w) (eventDispatchTimer w) v (deck w) (timers w)
    (nextTimer w) (scriptRequested w) (masterWired w) (clientWired w)
    (emitted w) (applied w) (received w) (clock w).

Definition set_deck (v : StateRecord) (w : world) : world :=
  World (opts w) (socket w) (setupFinished w) (lastStateChange w)
    (stateDispatchTimer w) (lastSharedState w) (lastRemoteStateChange w)
    (lastEventDispatch w) (eventDispatchTimer w) (eventQueue w) v (timers w)
    (nextTimer w) (scriptRequested w) (masterWired w) (clientWired w)
    (emitted w) (applied w) (received w) (clock w).

Definition set_timers (v : list timer) (w : world) : world :=
  World (opts w) (socket w) (setupFinished w) (lastStateChange w)
    (stateDispatchTimer w) (lastSharedState w) (lastRemoteStateChange w)
    (lastEventDispatch w) (eventDispatchTimer w) (eventQueue w) (deck w) v
    (nextTimer w) (scriptRequested w) (masterWired w) (clientWired w)
    (emitted w) (applied w) (received w) (clock w).

Definition set_nextTimer (v : positive) (w : world) : world :=
  World (opts w) (socket w) (setupFinished w) (lastStateChange w)
    (stateDispatchTimer w) (lastSharedState w) (lastRemoteStateChange w)
    (lastEventDispatch w) (eventDispatchTimer w) (eventQueue w) (deck w)
    (timers w) v (scriptRequested w) (masterWired w) (clientWired w)
    (emitted w) (applied w) (received w) (clock w).

Definition set_scriptRequested (v : bool) (w : world) : world :=
  World (opts w) (socket w) (setupFinished w) (lastStateChange w)
    (stateDispatchTimer w) (lastSharedState w) (lastRemoteStateChange w)
    (lastEventDispatch w) (eventDispatchTimer w) (eventQueue w) (deck w)
    (timers w) (nextTimer w) v (masterWired w) (clientWired w) (emitted w)
    (applied w) (received w) (clock w).

Definition set_masterWired (v : bool) (w : world) : world :=
  World (opts w) (socket w) (setupFinished w) (lastStateChange w)
    (stateDispatchTimer w) (lastSharedState w) (lastRemoteStateChange w)
    (lastEventDispatch w) (eventDispatchTimer w) (eventQueue w) (deck w)
    (timers w) (nextTimer w) (scriptRequested w) v (clientWired w)
    (emitted w) (applied w) (received w) (clock w).

Definition set_clientWired (v : bool) (w : world) : world :=
  World (opts w) (socket w) (setupFinished w) (lastStateChange w)
    (stateDispatchTimer w) (lastSharedState w) (lastRemoteStateChange w)
    (lastEventDispatch w) (eventDispatchTimer w) (eventQueue w) (deck w)
    (timers w) (nextTimer w) (scriptRequested w) (masterWired w) v
    (emitted w) (applied w) (received w) (clock w).

Definition set_emitted (v : list message) (w : world) : world :=
  World (opts w) (socket w) (setupFinished w) (lastStateChange w)
    (stateDispatchTimer w) (lastSharedState w) (lastRemoteStateChange w)
    (lastEventDispatch w) (eventDispatchTimer w) (eventQueue w) (deck w)
    (timers w) (nextTimer w) (scriptRequested w) (masterWired w)
    (clientWired w) v (applied w) (received w) (clock w).

Definition set_applied (v : list StateRecord) (w : world) : world :=
  World (opts w) (socket w) (setupFinished w) (lastStateChange w)
    (stateDispatchTimer w) (lastSharedState w) (lastRemoteStateChange w)
    (lastEventDispatch w) (eventDispatchTimer w) (eventQueue w) (deck w)
    (timers w) (nextTimer w) (scriptRequested w) (masterWired w)
    (clientWired w) (emitted w) v (received w) (clock w).

Definition set_received (v : list value) (w : world) : world :=
  World (opts w) (socket w) (setupFinished w) (lastStateChange w)
    (stateDispatchTimer w) (lastSharedState w) (lastRemoteStateChange w)
    (lastEventDispatch w) (eventDispatchTimer w) (eventQueue w) (deck w)
    (timers w) (nextTimer w) (scriptRequested w) (masterWired w)
    (clientWired w) (emitted w) (applied w) v (clock w).

Definition set_clock (v : Z) (w : world) : world :=
  World (opts w) (socket w) (setupFinished w) (lastStateChange w)
    (stateDispatchTimer w) (lastSharedState w) (lastRemoteStateChange w)
    (lastEventDispatch w) (eventDispatchTimer w) (eventQueue w) (deck w)
    (timers w) (nextTimer w) (scriptRequested w) (masterWired w)
    (clientWired w) (emitted w) (applied w) (received w) v.

(** *** The host: timers, socket, engine *)

(** [setTimeout(cb, delay)] called at time [now]: the timer may fire from
    [now + delay] on (a negative delay counts as zero); the handle returned
    is fresh. *)
Definition setTimeout (cb : callback) (delay now : Z) (w : world) : positive * world :=
  let id := nextTimer w in
  (id, set_nextTimer (Pos.succ id)
         (set_timers (timers w ++ [Timer id (now + Z.max 0 delay) cb]) w)).

(** [clearTimeout(id)]. *)
Definition clearTimeout (id : positive) (w : world) : world :=
  set_timers (filter (λ tm, t_id tm ≠ id) (timers w)) w.

(** [this.socket.emit('multihost-statechanged', m)]. The handlers that emit
    are installed by the 'connect' callback only, after [this.socket] has
    been assigned (see [wired_socket]). *)
Definition emit (m : message) (w : world) : world :=
  set_emitted (emitted w ++ [m]) w.

(** Modelled from the spec: the presentation engine is reveal.js, which is
    not part of this repository. [getState()] returns a fresh snapshot of
    the engine's current state at each call (spec, section 6). *)
Definition getState (w : world) : StateRecord := deck w.

(** Modelled from the spec: [setState(s)] applies the snapshot [s] (spec,
    section 6): the engine's state becomes [s]. The call is logged. The
    notifications the engine raises in consequence are [StateChanged]
    events of the loop below. *)
Definition setState (s : StateRecord) (w : world) : world :=
  set_applied (applied w ++ [s]) (set_deck s w).

(** [document.dispatchEvent(event)] for a 'received' event with the given
    content. *)
Definition dispatchReceived (content : value) (w : world) : world :=
  set_received (received w ++ [content]) w.

(** *** The methods of the class *)

Definition isEquivalent (s1 s2 : StateRecord) : bool :=
  strict_eq (get s1 "indexh") (get s2 "indexh")
  && strict_eq (get s1 "indexv") (get s2 "indexv")
  && strict_eq (get s1 "indexf") (get s2 "indexf")
  && strict_eq (get s1 "paused") (get s2 "paused").

Definition dispatchStateChange (state : StateRecord) (w : world) : world :=
  let messageData :=
    {| m_secret := secret (opts w); m_socketId := socketId (opts w);
       m_state := Some state; m_events := None |} in
  let w := set_lastSharedState (Some state) w in
  emit messageData w.

(** [this.lastSharedState && this.isEquivalent(state, this.lastSharedState)] *)
Definition sameAsShared (state : StateRecord) (w : world) : bool :=
  match lastSharedState w with
  | Some shared => isEquivalent state shared
  | None => false
  end.

Definition handleStateChange (now : Z) (w : world) : world :=
  let state := getState w in
  if sameAsShared state w then w else
  let interval := now - lastRemoteStateChange w in
  if interval <? remoteStateChangeBlackout (opts w) then w else
  let interval := now - lastStateChange w in
  let w :=
    if stateDispatchDelay (opts w) <=? interval then
      dispatchStateChange state w
    else
      let w := match stateDispatchTimer w with
               | Some id => clearTimeout id w
               | None => w
               end in
      let '(id, w) :=
        setTimeout (CbDispatchState state) (stateDispatchDelay (opts w)) now w in
      set_stateDispatchTimer (Some id) w in
  set_lastStateChange now w.

Definition dispatchEventQueue (now : Z) (w : world) : world :=
  if (0 <? length (eventQueue w))%nat then
    let events := eventQueue w in
    let w := set_eventQueue [] w in
    let w := emit {| m_secret := secret (opts w); m_socketId := socketId (opts w);
                     m_state := None; m_events := Some events |} w in
    set_lastEventDispatch now w
  else w.

(** [content] is [data.content]. Both readings of [Date.now()], here and in
    [dispatchEventQueue], give [now]: the handler runs within one tick. *)
Definition handleCustomEvent (now : Z) (content : value) (w : world) : world :=
  let w := set_eventQueue (eventQueue w ++ [content]) w in
  let interval := now - lastEventDispatch w in
  if eventDispatchDelay (opts w) <=? interval then
    dispatchEventQueue now w
  else
    match eventDispatchTimer w with
    | Some _ => w
    | None =>
        let '(id, w) :=
          setTimeout CbDispatchEvents (eventDispatchDelay (opts w) - interval) now w in
        set_eventDispatchTimer (Some id) w
    end.

Definition handleReceivedMessage (now : Z) (data : message) (w : world) : world :=
  if strict_ne (m_socketId data) (socketId (opts w)) then w else
  let w := match m_state data with
           | Some state =>
               let w := set_lastSharedState (Some state) w in
               let w := set_lastRemoteStateChange now w in
               setState state w
           | None => w
           end in
  match m_events data with
  | Some events => foldl (λ w content, dispatchReceived content w) w events
  | None => w
  end.

(** The body of a timer's callback. *)
Definition runCallback (now : Z) (cb : callback) (w : world) : world :=
  match cb with
  | CbDispatchState state =>
      let w := set_stateDispatchTimer None w in
      dispatchStateChange state w
  | CbDispatchEvents =>
      let w := set_eventDispatchTimer None w in
      dispatchEventQueue now w
  end.

Definition setupMaster (w : world) : world := set_masterWired true w.

Definition setupClient (w : world) : world := set_clientWired true w.

(** [new BroadCastPlugIn()] in a host whose clock shows [t0] and whose
    engine is in state [s0]. *)
Definition create (t0 : Z) (s0 : StateRecord) : world :=
  {| opts := defaultOptions; socket := false; setupFinished := false;
     lastStateChange := 0; stateDispatchTimer := None; lastSharedState := None;
     lastRemoteStateChange := 0;
     lastEventDispatch := 0; eventDispatchTimer := None; eventQueue := [];
     deck := s0; timers := []; nextTimer := 1%positive; scriptRequested := false;
     masterWired := false; clientWired := false;
     emitted := []; applied := []; received := []; clock := t0 |}.

(** [init(reveal)]; [cfg] is [reveal.getConfig()['broadcast']], [None] when
    it is absent. *)
Definition init (cfg : option config) (w : world) : world :=
  let w := set_setupFinished false w in
  let w := match cfg with
           | Some c => set_opts (assign (opts w) c) w
           | None => w
           end in
  if strict_eq (socketId (opts w)) VUndefined then w else
  set_scriptRequested true w.

(** The callback handed to [loadJavaScript]: [this.socket = io(...)], and
    the 'connect' handler is registered on it. *)
Definition onScriptLoaded (w : world) : world := set_socket true w.

(** The 'connect' handler. *)
Definition onConnect (w : world) : world :=
  if setupFinished w then w else
  let w := if truthy (secret (opts w)) then setupMaster w else w in
  let w := if truthy (socketId (opts w)) then setupClient w else w in
  set_setupFinished true w.

(** *** The event loop *)

(** What the host can make happen. The engine's notifications ('load',
    'slidechanged', 'fragmentshown', 'fragmenthidden', 'paused',
    'resumed') all run [handleStateChange]. *)
Inductive event : Type :=
  | ScriptLoaded
  | Connect
  | Navigate (s : StateRecord)   (* the engine moves to state s *)
  | StateChanged                 (* one of the engine's notifications *)
  | Send (content : value)       (* a 'send' event on the document *)
  | Incoming (data : message)    (* a message on the subscribed topic *)
  | Timeout (id : positive).     (* the timer with this handle fires *)

(** A timer fires no earlier than it is due; it is then removed from the
    table and its callback runs. *)
Definition fireTimer (now : Z) (id : positive) (w : world) : option world :=
  match list_find (λ tm, t_id tm = id) (timers w) with
  | Some (_, tm) =>
      if t_due tm <=? now then Some (runCallback now (t_cb tm) (clearTimeout id w))
      else None
  | None => None
  end.

(** One turn of the event loop at time [t]; [None] when the event cannot
    happen in [w]. Time does not go backwards. Events without a listener
    are dropped. *)
Definition step (t : Z) (e : event) (w : world) : option world :=
  if t <? clock w then None else
  let w := set_clock t w in
  match e with
  | ScriptLoaded =>
      if scriptRequested w && negb (socket w) then Some (onScriptLoaded w) else None
  | Connect => if socket w then Some (onConnect w) else None
  | Navigate s => Some (set_deck s w)
  | StateChanged => Some (if masterWired w then handleStateChange t w else w)
  | Send content => Some (if masterWired w then handleCustomEvent t content w else w)
  | Incoming data => Some (if clientWired w then handleReceivedMessage t data w else w)
  | Timeout id => fireTimer t id w
  end.

Fixpoint run (tr : list (Z * event)) (w : world) : option world :=
  match tr with
  | [] => Some w
  | (t, e) :: tr => match step t e w with
                    | Some w => run tr w
                    | None => None
                    end
  end.

(** The pending timers of each kind. *)
Definition isStateTimer (tm : timer) : bool :=
  match t_cb tm with CbDispatchState _ => true | CbDispatchEvents => false end.

Definition isEventTimer (tm : timer) : bool :=
  match t_cb tm with CbDispatchState _ => false | CbDispatchEvents => true end.

Definition stateTimers (w : world) : list timer := filter (λ tm, isStateTimer tm = true) (timers w).

Definition eventTimers (w : world) : list timer := filter (λ tm, isEventTimer tm = true) (timers w).

End Part000.

(** ** The variant of [src/broadcast.js] *)

Module BroadcastJs.

(** [this.options] after the merge; [socketJs] and [socketUrl] are left
    out as above. [master] and [client] are tested for truthiness. *)
Record options : Type := Options {
  master : value;
  client : value;
  secret : value;
  socketId : value;
  dispatchDelay : Z
}.

Definition defaultOptions : options :=
  {| master := VBool true; client := VBool true;
     secret := VUndefined; socketId := VUndefined; dispatchDelay := 100 |}.

Record config : Type := Config {
  c_master : option value;
  c_client : option value;
  c_secret : option value;
  c_socketId : option value;
  c_dispatchDelay : option Z
}.

(** [Object.assign(this.options, cfg)]. *)
Definition assign (o : options) (c : config) : options :=
  {| master := default (master o) (c_master c);
     client := default (client o) (c_client c);
     secret := default (secret o) (c_secret c);
     socketId := default (socketId o) (c_socketId c);
     dispatchDelay := default (dispatchDelay o) (c_dispatchDelay c) |}.

(** The instance and its host. The event batcher of this variant
    ([postEventQueue], [handleCustomEvent]) is the one of [Part000] up to
    the names of its fields and is not repeated; its three fields keep
    their place in the record. *)
Record world : Type := World {
  opts : options;
  socket : bool;                       (* false: null *)
  lastMsgState : option StateRecord;   (* None: null *)
  lastDispatch : Z;
  timeoutSet : bool;
  eventQueue : list value;
  (* the host *)
  deck : StateRecord;          (* the presentation engine's current state *)
  receiverUrl : bool;          (* window.location.search matches /receiver/gi *)
  scriptRequested : bool;      (* loadJavaScript was called *)
  masterWired : bool;          (* the listeners of setupMaster are installed *)
  clientWired : bool;          (* the subscription of setupClient is installed *)
  emitted : list message;      (* socket.emit('multiplex-statechanged', _), oldest first *)
  applied : list StateRecord;  (* deck.setState(_), oldest first *)
  received : list value        (* contents of the 'received' events dispatched *)
}.

Definition set_opts (v : options) (w : world) : world :=
  World v (socket w) (lastMsgState w) (lastDispatch w) (timeoutSet w)
    (eventQueue w) (deck w) (receiverUrl w) (scriptRequested w)
    (masterWired w) (clientWired w) (emitted w) (applied w) (received w).

Definition set_socket (v : bool) (w : world) : world :=
  World (opts w) v (lastMsgState w) (lastDispatch w) (timeoutSet w)
    (eventQueue w) (deck w) (receiverUrl w) (scriptRequested w)
    (masterWired w) (clientWired w) (emitted w) (applied w) (received w).

Definition set_lastMsgState (v : option StateRecord) (w : world) : world :=
  World (opts w) (socket w) v (lastDispatch w) (timeoutSet w) (eventQueue w)
    (deck w) (receiverUrl w) (scriptRequested w) (masterWired w)
    (clientWired w) (emitted w) (applied w) (received w).

Definition set_deck (v : StateRecord) (w : world) : world :=
  World (opts w) (socket w) (lastMsgState w) (lastDispatch w) (timeoutSet w)
    (eventQueue w) v (receiverUrl w) (scriptRequested w) (masterWired w)
    (clientWired w) (emitted w) (applied w) (received w).

Definition set_scriptRequested (v : bool) (w : world) : world :=
  World (opts w) (socket w) (lastMsgState w) (lastDispatch w) (timeoutSet w)
    (eventQueue w) (deck w) (receiverUrl w) v (masterWired w)
    (clientWired w) (emitted w) (applied w) (received w).

Definition set_masterWired (v : bool) (w : world) : world :=
  World (opts w) (socket w) (lastMsgState w) (lastDispatch w) (timeoutSet w)
    (eventQueue w) (deck w) (receiverUrl w) (scriptRequested w) v
    (clientWired w) (emitted w) (applied w) (received w).

Definition set_clientWired (v : bool) (w : world) : world :=
  World (opts w) (socket w) (lastMsgState w) (lastDispatch w) (timeoutSet w)
    (eventQueue w) (deck w) (receiverUrl w) (scriptRequested w)
    (masterWired w) v (emitted w) (applied w) (received w).

Definition set_emitted (v : list message) (w : world) : world :=
  World (opts w) (socket w) (lastMsgState w) (lastDispatch w) (timeoutSet w)
    (eventQueue w) (deck w) (receiverUrl w) (scriptRequested w)
    (masterWired w) (clientWired w) v (applied w) (received w).

Definition set_applied (v : list StateRecord) (w : world) : world :=
  World (opts w) (socket w) (lastMsgState w) (lastDispatch w) (timeoutSet w)
    (eventQueue w) (deck w) (receiverUrl w) (scriptRequested w)
    (masterWired w) (clientWired w) (emitted w) v (received w).

Definition set_received (v : list value) (w : world) : world :=
  World (opts w) (socket w) (lastMsgState w) (lastDispatch w) (timeoutSet w)
    (eventQueue w) (deck w) (receiverUrl w) (scriptRequested w)
    (masterWired w) (clientWired w) (emitted w) (applied w) v.

(** [this.socket.emit('multiplex-statechanged', m)]. *)
Definition emit (m : message) (w : world) : world :=
  set_emitted (emitted w ++ [m]) w.

(** Modelled from the spec: [getState()] of the presentation engine, which
    is not part of this repository, returns a fresh snapshot of its current
    state (spec, section 6). *)
Definition getState (w : world) : StateRecord := deck w.

(** Modelled from the spec: [setState(s)] applies the snapshot [s] (spec,
    section 6). *)
Definition setState (s : StateRecord) (w : world) : world :=
  set_applied (applied w ++ [s]) (set_deck s w).

Definition dispatchReceived (content : value) (w : world) : world :=
  set_received (received w ++ [content]) w.

(** [Object.getOwnPropertyNames(o)]. The order of the names plays no part
    in [isEquivalent], whose loop returns [false] at the first mismatch and
    [true] when there is none. *)
Definition getOwnPropertyNames (o : StateRecord) : list string :=
  (map_to_list o).*1.

Definition isEquivalent (a b : StateRecord) : bool :=
  let aProps := getOwnPropertyNames a in
  let bProps := getOwnPropertyNames b in
  if negb (length aProps =? length bProps)%nat then false else
  forallb (λ propName, strict_eq (get a propName) (get b propName)) aProps.

Definition handleStateChange (w : world) : world :=
  if match lastMsgState w with
     | None => true
     | Some last => negb (isEquivalent (getState w) last)
     end
  then
    let messageData :=
      {| m_secret := secret (opts w); m_socketId := socketId (opts w);
         m_state := Some (getState w); m_events := None |} in
    let w := set_lastMsgState (Some (getState w)) w in
    emit messageData w
  else w.

Definition handleReceivedMessage (data : message) (w : world) : world :=
  if strict_ne (m_socketId data) (socketId (opts w)) then w else
  let w := match m_state data with
           | Some state =>
               let w := set_lastMsgState (Some state) w in
               setState state w
           | None => w
           end in
  match m_events data with
  | Some events => foldl (λ w content, dispatchReceived content w) w events
  | None => w
  end.

Definition setupMaster (w : world) : world := set_masterWired true w.

Definition setupClient (w : world) : world := set_clientWired true w.

(** [new BroadCastPlugIn()] in a host whose engine is in state [s0];
    [receiver] tells whether the page's URL carries 'receiver'. *)
Definition create (receiver : bool) (s0 : StateRecord) : world :=
  {| opts := defaultOptions; socket := false; lastMsgState := None;
     lastDispatch := 0; timeoutSet := false; eventQueue := [];
     deck := s0; receiverUrl := receiver; scriptRequested := false;
     masterWired := false; clientWired := false;
     emitted := []; applied := []; received := [] |}.

(** [init(reveal)]: the script is always requested. *)
Definition init (cfg : option config) (w : world) : world :=
  let w := match cfg with
           | Some c => set_opts (assign (opts w) c) w
           | None => w
           end in
  set_scriptRequested true w.

(** The callback handed to [loadJavaScript]. *)
Definition onScriptLoaded (w : world) : world :=
  let w := set_socket true w in
  let w := if truthy (master (opts w)) && negb (receiverUrl w)
           then setupMaster w else w in
  if truthy (client (opts w)) then setupClient w else w.

Inductive event : Type :=
  | ScriptLoaded
  | Navigate (s : StateRecord)   (* the engine moves to state s *)
  | StateChanged                 (* one of the engine's notifications *)
  | Incoming (data : message).   (* a message on the subscribed topic *)

(** One turn of the event loop; events without a listener are dropped. *)
Definition step (e : event) (w : world) : option world :=
  match e with
  | ScriptLoaded =>
      if scriptRequested w && negb (socket w) then Some (onScriptLoaded w) else None
  | Navigate s => Some (set_deck s w)
  | StateChanged => Some (if masterWired w then handleStateChange w else w)
  | Incoming data => Some (if clientWired w then handleReceivedMessage data w else w)
  end.

Fixpoint run (tr : list event) (w : world) : option world :=
  match tr with
  | [] => Some w
  | e :: tr => match step e w with
               | Some w => run tr w
               | None => None
               end
  end.

End BroadcastJs.

(** ** The event batcher of [src/broadcast.js] *)

(** [postEventQueue] and [handleCustomEvent] of [broadcast.js], on the
    instance of [BroadcastJs], whose record keeps their three fields, and
    on the browser's timer table. The variant keeps no handle of its
    timer: the flag [timeoutSet] tells whether one is pending, and a timer
    once armed cannot be cleared. *)
Module BroadcastJsQueue.

Import BroadcastJs.

(** Field assignments [this.f = v] on the three fields of the batcher. *)

Definition set_lastDispatch (v : Z) (w : world) : world :=
  World (opts w) (socket w) (lastMsgState w) v (timeoutSet w) (eventQueue w)
    (deck w) (receiverUrl w) (scriptRequested w) (masterWired w)
    (clientWired w) (emitted w) (applied w) (received w).

Definition set_timeoutSet (v : bool) (w : world) : world :=
  World (opts w) (socket w) (lastMsgState w) (lastDispatch w) v (eventQueue w)
    (deck w) (receiverUrl w) (scriptRequested w) (masterWired w)
    (clientWired w) (emitted w) (applied w) (received w).

Definition set_eventQueue (v : list value) (w : world) : world :=
  World (opts w) (socket w) (lastMsgState w) (lastDispatch w) (timeoutSet w) v
    (deck w) (receiverUrl w) (scriptRequested w) (masterWired w)
    (clientWired w) (emitted w) (applied w) (received w).

(** A pending timer of the browser. The file arms one closure only, the
    one of [handleCustomEvent]. *)
Record timer : Type := Timer {
  t_id : positive;
  t_due : Z
}.

(** The instance in its host: the page of [BroadcastJs] with the timers
    and the clock. *)
Record host : Type := Host {
  inst : world;
  timers : list timer;     (* pending timers, oldest first *)
  nextTimer : positive;    (* the next handle setTimeout returns *)
  clock : Z                (* the time of the last event handled *)
}.

Definition set_inst (v : world) (h : host) : host :=
  Host v (timers h) (nextTimer h) (clock h).

(** [setTimeout(cb, delay)] called at time [now]; a negative delay counts
    as zero. The handle returned is dropped by the caller. *)
Definition setTimeout (delay now : Z) (h : host) : host :=
  Host (inst h) (timers h ++ [Timer (nextTimer h) (now + Z.max 0 delay)])
    (Pos.succ (nextTimer h)) (clock h).

Definition postEventQueue (now : Z) (w : world) : world :=
  if (0 <? length (eventQueue w))%nat then
    let events := eventQueue w in
    let w := set_eventQueue [] w in
    let w := emit {| m_secret := secret (opts w); m_socketId := socketId (opts w);
                     m_state := None; m_events := Some events |} w in
    set_lastDispatch now w
  else w.

(** [content] is [data.content]; both readings of [Date.now()] give [now]. *)
Definition handleCustomEvent (now : Z) (content : value) (h : host) : host :=
  let h := set_inst (set_eventQueue (eventQueue (inst h) ++ [content]) (inst h)) h in
  let interval := now - lastDispatch (inst h) in
  if dispatchDelay (opts (inst h)) <=? interval then
    set_inst (postEventQueue now (inst h)) h
  else
    if negb (timeoutSet (inst h)) then
      let h := set_inst (set_timeoutSet true (inst h)) h in
      setTimeout (dispatchDelay (opts (inst h)) - interval) now h
    else h.

(** The closure passed to [setTimeout]. *)
Definition runCallback (now : Z) (h : host) : host :=
  let h := set_inst (set_timeoutSet false (inst h)) h in
  set_inst (postEventQueue now (inst h)) h.

(** What the host can make happen: the events of [BroadcastJs], a 'send'
    event on the document, a timer firing. *)
Inductive event : Type :=
  | Base (e : BroadcastJs.event)
  | Send (content : value)
  | Timeout (id : positive).

(** A timer fires no earlier than it is due; it leaves the table and its
    callback runs. *)
Definition fireTimer (now : Z) (id : positive) (h : host) : option host :=
  match list_find (λ tm, t_id tm = id) (timers h) with
  | Some (_, tm) =>
      if t_due tm <=? now then
        Some (runCallback now
                (Host (inst h) (filter (λ tm, t_id tm ≠ id) (timers h))
                   (nextTimer h) (clock h)))
      else None
  | None => None
  end.

(** One turn of the event loop at time [t]. The 'send' listener is one of
    those installed by [setupMaster]. *)
Definition step (t : Z) (e : event) (h : host) : option host :=
  if t <? clock h then None else
  let h := Host (inst h) (timers h) (nextTimer h) t in
  match e with
  | Base e => (λ w, set_inst w h) <$> BroadcastJs.step e (inst h)
  | Send content =>
      Some (if masterWired (inst h) then handleCustomEvent t content h else h)
  | Timeout id => fireTimer t id h
  end.

Fixpoint run (tr : list (Z * event)) (h : host) : option host :=
  match tr with
  | [] => Some h
  | (t, e) :: tr => match step t e h with
                    | Some h => run tr h
                    | None => None
                    end
  end.

(** The page after [new BroadCastPlugIn()] and [init(reveal)] at time
    [t0]: no timer is pending. *)
Definition start (cfg : option config) (receiver : bool) (t0 : Z)
    (s0 : StateRecord) : host :=
  Host (init cfg (create receiver s0)) [] 1%positive t0.

End BroadcastJsQueue.

(** ** [loadJavaScript], the same in both files *)

(** The method creates a script element, hands [callback] to one of its
    two handler properties, and appends it to the document's head. The
    browser then notifies the element; what matters of [callback] is how
    often it is called. *)
Module LoadJavaScript.

(** The script element: the properties the method reads and writes. The
    handlers are the two closures of the method; a handler property holds
    one of them or nothing. *)
Record element : Type := Element {
  type : option string;
  readyState : value;           (* VUndefined where the property does not exist *)
  onreadystatechange : bool;    (* false: not set, or null *)
  onload : bool;
  src : option string;
  inHead : bool                 (* head.appendChild(script) was called *)
}.

(** The element and the number of times [callback] has been called. *)
Definition page : Type := element * nat.

(** [document.createElement('script')] in a browser whose new script
    elements show [rs] as their [readyState]. *)
Definition createElement (rs : value) : element :=
  Element None rs false false None false.

Definition loadJavaScript (url : string) (rs : value) : page :=
  let script := createElement rs in
  let script := Element (Some "text/javascript") (readyState script)
                  (onreadystatechange script) (onload script) (src script)
                  (inHead script) in
  let script :=
    if truthy (readyState script) then
      Element (type script) (readyState script) true (onload script)
        (src script) (inHead script)
    else
      Element (type script) (readyState script) (onreadystatechange script)
        true (src script) (inHead script) in
  let script := Element (type script) (readyState script)
                  (onreadystatechange script) (onload script) (Some url)
                  (inHead script) in
  (Element (type script) (readyState script) (onreadystatechange script)
     (onload script) (src script) true, 0%nat).

(** The closure assigned to [script.onreadystatechange]. *)
Definition onreadystatechangeHandler (p : page) : page :=
  let '(script, calls) := p in
  if strict_eq (readyState script) (VStr "loaded")
     || strict_eq (readyState script) (VStr "complete")
  then
    (Element (type script) (readyState script) false (onload script)
       (src script) (inHead script), S calls)
  else p.

(** The closure assigned to [script.onload]. *)
Definition onloadHandler (p : page) : page :=
  let '(script, calls) := p in (script, S calls).

(** What the browser tells the element: its [readyState] changed to the
    given value, or the script has loaded. *)
Inductive notification : Type :=
  | ReadyStateChange (rs : value)
  | Load.

(** The browser runs the handler held by the property, if any. *)
Definition notify (p : page) (n : notification) : page :=
  let '(script, calls) := p in
  match n with
  | ReadyStateChange rs =>
      let script := Element (type script) rs (onreadystatechange script)
                      (onload script) (src script) (inHead script) in
      if onreadystatechange script then onreadystatechangeHandler (script, calls)
      else (script, calls)
  | Load => if onload script then onloadHandler p else p
  end.

End LoadJavaScript.



(** * Properties *)

Import Part000.

(** ** Vocabulary of the statements *)

(** The message built by [dispatchStateChange]. *)
Definition stateMessage (o : options) (state : StateRecord) : message :=
  {| m_secret := secret o; m_socketId := socketId o;
     m_state := Some state; m_events := None |}.

(** The message built by [dispatchEventQueue]. *)
Definition eventsMessage (o : options) (events : list value) : message :=
  {| m_secret := secret o; m_socketId := socketId o;
     m_state := None; m_events := Some events |}.

(** The timer table agrees with the two markers of the instance: handles
    are distinct and below the next one, every pending debounce timer is
    the one [stateDispatchTimer] names, and every pending flush timer is
    the one [eventDispatchTimer] names. *)
Definition timers_wf (w : world) : Prop :=
  NoDup (t_id <$> timers w)
  ∧ (∀ tm, tm ∈ timers w → (t_id tm < nextTimer w)%positive)
  ∧ (∀ tm, tm ∈ timers w → isStateTimer tm = true →
       stateDispatchTimer w = Some (t_id tm))
  ∧ (∀ tm, tm ∈ timers w → isEventTimer tm = true →
       eventDispatchTimer w = Some (t_id tm)).

(** A session: the instance is created, initialised with the user's
    configuration, and the event loop runs. *)
Definition session (cfg : option config) (t0 : Z) (s0 : StateRecord)
    (tr : list (Z * event)) : option world :=
  run tr (init cfg (create t0 s0)).




(** The event payloads sent so far, batch after batch. *)
Definition sentEvents (w : world) : list value :=
  concat (omap m_events (emitted w)).

(** The payloads raised by a trace that reach [handleCustomEvent]. *)
Definition raisedBy (e : event) : list value :=
  match e with Send content => [content] | _ => [] end.

(** ** Sample data *)

(** The state of reveal.js at horizontal slide [h], without and with the
    [overview] field. *)
Definition slide (h : Z) : StateRecord :=
  {[ "indexh" := VNum h; "indexv" := VNum 0; "indexf" := VNum 0;
     "paused" := VBool false ]}.

Definition slideOverview (h : Z) (o : bool) : StateRecord :=
  <[ "overview" := VBool o ]> (slide h).

(** A publisher and subscriber of the channel "main". *)
Definition mainConfig : config :=
  {| c_secret := Some (VStr "s3cr3t"); c_socketId := Some (VStr "main");
     c_eventDispatchDelay := None; c_stateDispatchDelay := None;
     c_remoteStateChangeBlackout := None |}.

(** A configuration without [socketId]. *)
Definition anonymousConfig : config :=
  {| c_secret := Some (VStr "s3cr3t"); c_socketId := None;
     c_eventDispatchDelay := None; c_stateDispatchDelay := None;
     c_remoteStateChangeBlackout := None |}.

(** The start of every sample session: the script loads at 1000000 ms and
    the socket connects one millisecond later. *)
Definition connecting : list (Z * event) :=
  [(1000000, ScriptLoaded); (1000001, Connect)].

(** The instance on channel "main" once connected, with the engine on
    slide 0. *)
Definition connectedWorld : world := Eval vm_compute in
  default (create 0 ∅) (session (Some mainConfig) 1000000 (slide 0) connecting).

(** A state message of a foreign channel. *)
Definition otherMessage : message :=
  {| m_secret := VUndefined; m_socketId := VStr "other";
     m_state := Some (slide 7); m_events := Some [VStr "ping"] |}.

(** A state message of channel "main" putting the engine on slide [h]. *)
Definition mainMessage (h : Z) : message :=
  {| m_secret := VStr "s3cr3t"; m_socketId := VStr "main";
     m_state := Some (slide h); m_events := None |}.

(** The sample instance of [broadcast.js] on channel "main", loaded. *)
Definition legacyConfig : BroadcastJs.config :=
  {| BroadcastJs.c_master := None; BroadcastJs.c_client := None;
     BroadcastJs.c_secret := Some (VStr "s3cr3t");
     BroadcastJs.c_socketId := Some (VStr "main");
     BroadcastJs.c_dispatchDelay := None |}.

Definition legacyWorld : BroadcastJs.world := Eval vm_compute in
  BroadcastJs.onScriptLoaded
    (BroadcastJs.init (Some legacyConfig) (BroadcastJs.create false (slide 0))).



(** Sample session for the trailing publish: slide 0 is published at
    1000002; the user moves to slide 1 at 1000100, which arms the debounce
    timer (handle 1, due at 1000600); the user moves back to slide 0 at
    1000200, which is what was last shared. *)
Definition thereAndBack : list (Z * event) :=
  [(1000002, StateChanged);
   (1000100, Navigate (slide 1)); (1000100, StateChanged);
   (1000200, Navigate (slide 0)); (1000200, StateChanged)].

Definition backOnSlide0 : world := Eval vm_compute in
  default connectedWorld (run thereAndBack connectedWorld).

(** The instance just after slide 0 was published at 1000002, with the
    engine moved to slide 1. *)
Definition movedToSlide1 : world := Eval vm_compute in
  default connectedWorld
    (run [(1000002, StateChanged); (1000100, Navigate (slide 1))] connectedWorld).

(** The same with the debounce timer armed at 1000100 for slide 1. *)
Definition armedForSlide1 : world := Eval vm_compute in
  default connectedWorld
    (run [(1000002, StateChanged); (1000100, Navigate (slide 1));
          (1000100, StateChanged)] connectedWorld).

(** A state of channel "main" for slide 1 arrives at 1000300 while the
    timer armed for slide 1 is pending. *)
Definition armedThenRemote : world := Eval vm_compute in
  handleReceivedMessage 1000300 (mainMessage 1) armedForSlide1.



(** The [socketId] the user's configuration gives, [undefined] when the
    configuration or the key is absent. *)
Definition configuredSocketId (cfg : option config) : value :=
  match cfg with
  | Some c => default VUndefined (c_socketId c)
  | None => VUndefined
  end.

(** Nothing of the synchronisation subsystem is set up and nothing has
    gone through it. *)
Definition inert (w : world) : Prop :=
  scriptRequested w = false ∧ socket w = false
  ∧ masterWired w = false ∧ clientWired w = false
  ∧ timers w = [] ∧ emitted w = [] ∧ applied w = [] ∧ received w = [].

(** Events raised one after the other, each at its time. *)
Definition raise (evs : list (Z * value)) (w : world) : world :=
  foldl (λ w '(t, content), handleCustomEvent t content w) w evs.

(** Three events 10 ms apart after a quiet period, and the flush timer
    firing when it is due. *)
Definition threeEvents : list (Z * event) :=
  [(1000002, Send (VStr "e1")); (1000012, Send (VStr "e2"));
   (1000022, Send (VStr "e3")); (1000102, Timeout 1)].

(** The sample instance right after a flush at 1000002. *)
Definition justFlushed : world := Eval vm_compute in
  default connectedWorld (run [(1000002, Send (VStr "e0"))] connectedWorld).

(** A session without [socketId]: the user moves to slide 1, the engine
    notifies, a plugin raises an event and a message arrives. *)
Definition standaloneTrace : list (Z * event) :=
  [(1000000, Navigate (slide 1)); (1000001, StateChanged);
   (1000002, Send (VStr "e1")); (1000003, Incoming (mainMessage 3))].

Definition standalone : world := Eval vm_compute in
  default (create 0 ∅)
    (session (Some anonymousConfig) 1000000 (slide 0) standaloneTrace).

(** [broadcast.js] initialised without any configuration. *)
Definition legacyUnconfigured : BroadcastJs.world := Eval vm_compute in
  BroadcastJs.init None (BroadcastJs.create false (slide 0)).

(** No pending timer is overdue at time [t]. *)
Definition onTime (t : Z) (w : world) : Prop :=
  ∀ tm, tm ∈ timers w → t ≤ t_due tm.

(** The batcher's bookkeeping, for a session in which no event has been
    raised after time [T]: the two markers name distinct handles already
    handed out, a non-empty queue has its flush timer marked, the marked
    flush timer is pending and due no later than [eventDispatchDelay]
    after [T], and the last flush is not in the future. *)
Definition queue_ok (T : Z) (w : world) : Prop :=
  timers_wf w
  ∧ (∀ id, stateDispatchTimer w = Some id → (id < nextTimer w)%positive)
  ∧ (∀ id, eventDispatchTimer w = Some id → (id < nextTimer w)%positive)
  ∧ (∀ a b, stateDispatchTimer w = Some a → eventDispatchTimer w = Some b → a ≠ b)
  ∧ (eventQueue w ≠ [] → eventDispatchTimer w ≠ None)
  ∧ (∀ id, eventDispatchTimer w = Some id →
       ∃ tm, tm ∈ timers w ∧ t_id tm = id ∧ t_cb tm = CbDispatchEvents
             ∧ t_due tm ≤ T + eventDispatchDelay (opts w))
  ∧ lastEventDispatch w ≤ clock w.

(** Every event of the trace was raised at [T] at the latest. *)
Definition raisedBefore (T : Z) (tr : list (Z * event)) : Prop :=
  ∀ t content, (t, Send content) ∈ tr → t ≤ T.

(** Three events raised within 30 ms of the flush at 1000002. *)
Definition threeQueued : list (Z * value) :=
  [(1000010, VStr "e1"); (1000020, VStr "e2"); (1000030, VStr "e3")].

(** A busy session: slide 0 and an event go out at 1000002, a second event
    is queued at 1000010 and the move to slide 1 is debounced at 1000100,
    so that a timer of each kind is pending. *)
Definition busyTrace : list (Z * event) :=
  connecting ++
  [(1000002, StateChanged); (1000002, Send (VStr "e0"));
   (1000010, Send (VStr "e1"));
   (1000100, Navigate (slide 1)); (1000100, StateChanged)].

Definition busyWorld : world := Eval vm_compute in
  default (create 0 ∅) (session (Some mainConfig) 1000000 (slide 0) busyTrace).


(** The states published so far, oldest first. *)
Definition statePublishes (w : world) : list StateRecord :=
  omap m_state (emitted w).





(** ** Proof steps *)

(** Unfolding the methods on a world given field by field. *)

Ltac unfold_setters :=
  cbv [set_opts set_socket set_setupFinished set_lastStateChange
       set_stateDispatchTimer set_lastSharedState set_lastRemoteStateChange
       set_lastEventDispatch set_eventDispatchTimer set_eventQueue set_deck
       set_timers set_nextTimer set_scriptRequested set_masterWired
       set_clientWired set_emitted set_applied set_received set_clock
       opts socket setupFinished lastStateChange stateDispatchTimer
       lastSharedState lastRemoteStateChange lastEventDispatch
       eventDispatchTimer eventQueue deck timers nextTimer scriptRequested
       masterWired clientWired emitted applied received clock].

Ltac unfold_methods :=
  cbv [handleStateChange dispatchStateChange sameAsShared getState setState
       emit dispatchReceived setTimeout clearTimeout dispatchEventQueue
       handleCustomEvent runCallback setupMaster setupClient onConnect
       onScriptLoaded stateTimers eventTimers];
  unfold_setters.

(** Case analysis on the tests of a method, then computation on each path:
    for goals stating which fields a method leaves alone. *)
Ltac split_cases :=
  repeat match goal with
         | |- context [if ?c then _ else _] => destruct c
         | |- context [match ?x with Some _ => _ | None => _ end] => destruct x
         end.

Ltac frame w :=
  cbv zeta;
  unfold handleStateChange, handleCustomEvent, runCallback, dispatchEventQueue;
  split_cases; destruct w;
  split_and?; first [reflexivity | left; reflexivity | right; reflexivity].
(** ** Vocabulary of the further properties *)

(** A message as the instance with options [o] builds them: tagged with
    its [secret] and [socketId], and carrying either a state or a
    non-empty batch of events. *)
Definition ownMessage (o : options) (m : message) : Prop :=
  (∃ s, m = stateMessage o s) ∨ (∃ q, q ≠ [] ∧ m = eventsMessage o q).

(** Where [lastSharedState] comes from: it is unset as long as nothing was
    published or applied, and holds the last state published or the last
    state applied afterwards. *)
Definition sharedIsLast (w : world) : Prop :=
  match lastSharedState w with
  | None => statePublishes w = [] ∧ applied w = []
  | Some s => last (statePublishes w) = Some s ∨ last (applied w) = Some s
  end.

(** The message a turn of the loop hands to [handleReceivedMessage] and
    that passes its guard. *)
Definition accepted (o : options) (e : event) : option message :=
  match e with
  | Incoming data =>
      if strict_ne (m_socketId data) (socketId o) then None else Some data
  | _ => None
  end.

(** The states and the event contents of the accepted messages of a trace,
    in the order of arrival. *)
Definition acceptedStates (o : options) (tr : list (Z * event))
    : list StateRecord :=
  omap (λ te, accepted o te.2 ≫= m_state) tr.

Definition acceptedEvents (o : options) (tr : list (Z * event)) : list value :=
  concat (omap (λ te, accepted o te.2 ≫= m_events) tr).

(** The roles an instance has taken: the publisher's handlers are wired
    only under a truthy [secret], the subscriber's only under a truthy
    [socketId]; an instance that is no publisher has sent nothing, armed
    no timer and queued nothing; one that is no subscriber has applied and
    re-raised nothing. *)
Definition roles_ok (w : world) : Prop :=
  (masterWired w = true → truthy (secret (opts w)) = true)
  ∧ (clientWired w = true → truthy (socketId (opts w)) = true)
  ∧ (masterWired w = false →
       emitted w = [] ∧ timers w = [] ∧ eventQueue w = [])
  ∧ (clientWired w = false → applied w = [] ∧ received w = []).



(** The two handle fields mirror the browser's timer table: a set field
    names a pending timer of its kind, and events wait in the queue only
    while the flush timer is marked. *)
Definition markers_ok (w : world) : Prop :=
  timers_wf w
  ∧ (eventQueue w ≠ [] → eventDispatchTimer w ≠ None)
  ∧ (∀ id, stateDispatchTimer w = Some id →
       ∃ tm, tm ∈ timers w ∧ t_id tm = id ∧ isStateTimer tm = true)
  ∧ (∀ id, eventDispatchTimer w = Some id →
       ∃ tm, tm ∈ timers w ∧ t_id tm = id ∧ isEventTimer tm = true).

(** A subscriber of the channel "main" that is no publisher. *)
Definition followerConfig : config :=
  {| c_secret := None; c_socketId := Some (VStr "main");
     c_eventDispatchDelay := None; c_stateDispatchDelay := None;
     c_remoteStateChangeBlackout := None |}.

(** Its sample session: once connected, the engine notifies, a plugin
    raises an event, and a state of the channel arrives. *)
Definition followerTrace : list (Z * event) :=
  connecting ++
  [(1000002, StateChanged); (1000003, Send (VStr "e1"));
   (1000004, Incoming (mainMessage 3))].

Definition follower : world := Eval vm_compute in
  default (create 0 ∅)
    (session (Some followerConfig) 1000000 (slide 0) followerTrace).

(** Three messages in a row: a state of the channel, a message of a
    foreign channel, and events of the channel. *)
Definition inbox : list (Z * event) :=
  [(1000500, Incoming (mainMessage 3)); (1000501, Incoming otherMessage);
   (1000502, Incoming {| m_secret := VStr "s3cr3t"; m_socketId := VStr "main";
                         m_state := None;
                         m_events := Some [VStr "e1"; VStr "e2"] |})].

(** A late timer: the debounce timer armed at 1000100 for slide 1 is due
    at 1000600 and has not fired when the user moves to slide 2 at
    1000650. *)
Definition lateTrace : list (Z * event) :=
  connecting ++
  [(1000002, StateChanged);
   (1000100, Navigate (slide 1)); (1000100, StateChanged);
   (1000650, Navigate (slide 2))].

Definition lateForSlide1 : world := Eval vm_compute in
  default (create 0 ∅) (session (Some mainConfig) 1000000 (slide 0) lateTrace).

(** *** The variant of [broadcast.js] *)

Section BroadcastJsVocabulary.

Import BroadcastJs BroadcastJsQueue.

(** The message built by [handleStateChange] of [broadcast.js]. *)
Definition BroadcastJs_stateMessage (o : options) (state : StateRecord)
    : message :=
  {| m_secret := secret o; m_socketId := socketId o;
     m_state := Some state; m_events := None |}.

(** The message built by [postEventQueue]. *)
Definition queueMessage (o : options) (events : list value) : message :=
  {| m_secret := secret o; m_socketId := socketId o;
     m_state := None; m_events := Some events |}.

(** A message as the instance of [broadcast.js] with options [o] builds
    them. *)
Definition BroadcastJs_ownMessage (o : options) (m : message) : Prop :=
  (∃ s, m = BroadcastJs_stateMessage o s)
  ∨ (∃ q, q ≠ [] ∧ m = queueMessage o q).

(** The states published so far by an instance of [broadcast.js]. *)
Definition BroadcastJs_statePublishes (w : world) : list StateRecord :=
  omap m_state (emitted w).

(** The event payloads sent so far by an instance of [broadcast.js]. *)
Definition BroadcastJs_sentEvents (w : world) : list value :=
  concat (omap m_events (emitted w)).

(** The event payloads one turn of the loop hands to [handleCustomEvent]. *)
Definition BroadcastJsQueue_raisedBy (e : event) : list value :=
  match e with
  | Send content => [content]
  | _ => []
  end.

(** The bookkeeping of the batcher of [broadcast.js]: at most one timer is
    pending, [timeoutSet] tells whether there is one, and events wait in
    the queue only while there is one. *)
Definition flag_ok (h : host) : Prop :=
  match timers h with
  | [] => timeoutSet (inst h) = false ∧ eventQueue (inst h) = []
  | [tm] => timeoutSet (inst h) = true
  | _ => False
  end.

(** The roles an instance of [broadcast.js] has taken: the publisher's
    handlers are wired only under a truthy [master] option on a page whose
    URL does not carry 'receiver', the subscriber's only under a truthy
    [client] option; an instance that is no publisher has sent nothing,
    armed no timer and queued nothing; one that is no subscriber has
    applied and re-raised nothing. *)
Definition BroadcastJs_roles_ok (h : host) : Prop :=
  let w := inst h in
  (masterWired w = true →
     truthy (master (opts w)) = true ∧ receiverUrl w = false)
  ∧ (clientWired w = true → truthy (client (opts w)) = true)
  ∧ (masterWired w = false →
       emitted w = [] ∧ timers h = [] ∧ eventQueue w = [])
  ∧ (clientWired w = false → applied w = [] ∧ received w = []).

(** No state of the list is equivalent to the one before it. *)
Definition BroadcastJs_noRepeat (l : list StateRecord) : Prop :=
  ∀ i a b, l !! i = Some a → l !! S i = Some b → isEquivalent b a = false.

(** The invariant of a publisher that has applied no remote state:
    [lastMsgState] is the last state published, and no state was published
    twice in a row. *)
Definition BroadcastJs_fresh_ok (w : world) : Prop :=
  applied w = [] →
  lastMsgState w = last (BroadcastJs_statePublishes w)
  ∧ BroadcastJs_noRepeat (BroadcastJs_statePublishes w).

(** Sample session of [broadcast.js] on channel "main": the script loads
    at 1000001, slide 0 is published, two events are raised 8 ms apart,
    and the user moves to slide 1. *)
Definition legacyTrace : list (Z * event) :=
  [(1000001, Base ScriptLoaded);
   (1000002, Base StateChanged); (1000002, Send (VStr "e0"));
   (1000010, Send (VStr "e1"));
   (1000100, Base (Navigate (slide 1))); (1000100, Base StateChanged)].

Definition legacyHost : host := Eval vm_compute in
  default (start None false 0 ∅)
    (run legacyTrace (start (Some legacyConfig) false 1000000 (slide 0))).

(** The same page opened with 'receiver' in its URL. *)
Definition legacyReceiver : host := Eval vm_compute in
  default (start None false 0 ∅)
    (run legacyTrace (start (Some legacyConfig) true 1000000 (slide 0))).

(** The sample page once the script has loaded. *)
Definition legacyLoaded : host := Eval vm_compute in
  default (start None false 0 ∅)
    (run [(1000001, Base ScriptLoaded)]
       (start (Some legacyConfig) false 1000000 (slide 0))).

End BroadcastJsVocabulary.

(** *** The two batchers side by side *)

(** What drives a batcher: a 'send' event, or a timer firing. *)
Inductive batcherEvent : Type :=
  | Raise (content : value)
  | Fire (id : positive).

Definition Part000_event (e : batcherEvent) : event :=
  match e with Raise c => Send c | Fire id => Timeout id end.

Definition BroadcastJs_event (e : batcherEvent) : BroadcastJsQueue.event :=
  match e with
  | Raise c => BroadcastJsQueue.Send c
  | Fire id => BroadcastJsQueue.Timeout id
  end.

(** A pending timer of [broadcast.js] as a timer of [part_000]: it runs
    the flush. *)
Definition flushTimer (tm : BroadcastJsQueue.timer) : timer :=
  Timer (BroadcastJsQueue.t_id tm) (BroadcastJsQueue.t_due tm) CbDispatchEvents.

(** An instance of [part_000] and one of [broadcast.js] whose batchers are
    in the same state: same options, queue, last flush, pending timers and
    messages sent; the handle of the one is set when the flag of the other
    is. *)
Definition sameBatcher (w : world) (h : BroadcastJsQueue.host) : Prop :=
  let b := BroadcastJsQueue.inst h in
  secret (opts w) = BroadcastJs.secret (BroadcastJs.opts b)
  ∧ socketId (opts w) = BroadcastJs.socketId (BroadcastJs.opts b)
  ∧ eventDispatchDelay (opts w) = BroadcastJs.dispatchDelay (BroadcastJs.opts b)
  ∧ masterWired w = BroadcastJs.masterWired b
  ∧ clock w = BroadcastJsQueue.clock h
  ∧ eventQueue w = BroadcastJs.eventQueue b
  ∧ lastEventDispatch w = BroadcastJs.lastDispatch b
  ∧ match eventDispatchTimer w with Some _ => true | None => false end
    = BroadcastJs.timeoutSet b
  ∧ nextTimer w = BroadcastJsQueue.nextTimer h
  ∧ timers w = flushTimer <$> BroadcastJsQueue.timers h
  ∧ emitted w = BroadcastJs.emitted b.

(** Three events 10 ms apart after a quiet period, and the flush timer
    firing when it is due. *)
Definition threeRaised : list (Z * batcherEvent) :=
  [(1000002, Raise (VStr "e1")); (1000012, Raise (VStr "e2"));
   (1000022, Raise (VStr "e3")); (1000102, Fire 1)].

(** *** Loading the script *)

Section LoadJavaScriptVocabulary.

Import LoadJavaScript.

(** The browser reports the [readyState] "loaded" or "complete". *)
Definition finished (n : notification) : bool :=
  match n with
  | ReadyStateChange rs =>
      strict_eq rs (VStr "loaded") || strict_eq rs (VStr "complete")
  | Load => false
  end.

(** The browser reports that the script has loaded. *)
Definition isLoad (n : notification) : bool :=
  match n with Load => true | ReadyStateChange _ => false end.

End LoadJavaScriptVocabulary.


(** ** Scalars and records *)

Lemma strict_eq_true (a b : value) : strict_eq a b = true ↔ a = b.
Proof. unfold strict_eq. apply bool_decide_eq_true. Qed.

Lemma strict_eq_refl (a : value) : strict_eq a a = true.
Proof. by apply strict_eq_true. Qed.

Lemma strict_ne_true (a b : value) : strict_ne a b = true ↔ a ≠ b.
Proof.
  unfold strict_ne. rewrite negb_true_iff, <- not_true_iff_false.
  by rewrite strict_eq_true.
Qed.

Lemma strict_ne_false (a b : value) : strict_ne a b = false ↔ a = b.
Proof.
  unfold strict_ne. rewrite negb_false_iff. apply strict_eq_true.
Qed.

(** ** The equivalence checker *)







(** The checker of [broadcast.js] reports two records with different field
    names equivalent when the fields hold [undefined]. *)
Lemma BroadcastJs_isEquivalent_undefined_fields :
  BroadcastJs.isEquivalent {[ "indexf" := VUndefined ]} {[ "overview" := VUndefined ]} = true
  ∧ dom ({[ "indexf" := VUndefined ]} : StateRecord)
      ≠ dom ({[ "overview" := VUndefined ]} : StateRecord).
Proof.
  split; [vm_compute; reflexivity|]. intros Heq.
  apply (f_equal (λ d : gset string, bool_decide ("indexf" ∈ d))) in Heq.
  vm_compute in Heq. discriminate.
Qed.


(** ** The loop over the events received *)

(** The loop of [handleReceivedMessage] over [data.events]. *)
Lemma dispatchReceived_all (events : list value) (w : world) :
  foldl (λ w content, dispatchReceived content w) w events
  = set_received (received w ++ events) w.
Proof.
  revert w. induction events as [|e events IH]; intros w.
  - destruct w. unfold_methods. by rewrite app_nil_r.
  - simpl. rewrite IH. destruct w. unfold_methods. by rewrite <- app_assoc.
Qed.


(** ** The timer table *)

Lemma timers_wf_ext (w w' : world) :
  timers w' = timers w → nextTimer w' = nextTimer w →
  stateDispatchTimer w' = stateDispatchTimer w →
  eventDispatchTimer w' = eventDispatchTimer w →
  timers_wf w → timers_wf w'.
Proof.
  unfold timers_wf. intros -> -> -> ->. done.
Qed.

Lemma timers_wf_clearTimeout (id : positive) (w : world) :
  timers_wf w → timers_wf (clearTimeout id w).
Proof.
  intros (Hnd & Hlt & Hst & Hev). destruct w. revert Hnd Hlt Hst Hev.
  unfold timers_wf. unfold_methods. intros Hnd Hlt Hst Hev. split_and!.
  - eapply sublist_NoDup; [exact Hnd | apply fmap_sublist, sublist_filter].
  - intros tm [_ Hin]%list_elem_of_filter. auto.
  - intros tm [_ Hin]%list_elem_of_filter. auto.
  - intros tm [_ Hin]%list_elem_of_filter. auto.
Qed.

Lemma no_state_timer_unmarked (w : world) :
  timers_wf w → stateDispatchTimer w = None →
  ∀ tm, tm ∈ timers w → isStateTimer tm = false.
Proof.
  intros (_ & _ & Hst & _) Hnone tm Hin.
  destruct (isStateTimer tm) eqn:E; [|done].
  specialize (Hst tm Hin E). congruence.
Qed.

Lemma no_event_timer_unmarked (w : world) :
  timers_wf w → eventDispatchTimer w = None →
  ∀ tm, tm ∈ timers w → isEventTimer tm = false.
Proof.
  intros (_ & _ & _ & Hev) Hnone tm Hin.
  destruct (isEventTimer tm) eqn:E; [|done].
  specialize (Hev tm Hin E). congruence.
Qed.

Lemma no_state_timer_cleared (id : positive) (w : world) :
  timers_wf w → stateDispatchTimer w = Some id →
  ∀ tm, tm ∈ timers (clearTimeout id w) → isStateTimer tm = false.
Proof.
  intros (_ & _ & Hst & _) Hsome tm. destruct w. revert Hst Hsome.
  unfold_methods. intros Hst Hsome [Hne Hin]%list_elem_of_filter.
  destruct (isStateTimer tm) eqn:E; [|done].
  specialize (Hst tm Hin E). congruence.
Qed.

Lemma no_event_timer_cleared (id : positive) (w : world) :
  timers_wf w → eventDispatchTimer w = Some id →
  ∀ tm, tm ∈ timers (clearTimeout id w) → isEventTimer tm = false.
Proof.
  intros (_ & _ & _ & Hev) Hsome tm. destruct w. revert Hev Hsome.
  unfold_methods. intros Hev Hsome [Hne Hin]%list_elem_of_filter.
  destruct (isEventTimer tm) eqn:E; [|done].
  specialize (Hev tm Hin E). congruence.
Qed.

(** Arming a timer of one kind when none of that kind is pending, and
    recording its handle in the marker of that kind. *)
Lemma timers_wf_arm_state (s : StateRecord) (delay now : Z) (w : world) :
  timers_wf w → (∀ tm, tm ∈ timers w → isStateTimer tm = false) →
  timers_wf (set_stateDispatchTimer (Some (nextTimer w))
               (setTimeout (CbDispatchState s) delay now w).2).
Proof.
  intros (Hnd & Hlt & Hst & Hev) Hno. destruct w. revert Hnd Hlt Hst Hev Hno.
  unfold timers_wf. unfold_methods. simpl. intros Hnd Hlt Hst Hev Hno.
  split_and!.
  - rewrite fmap_app. apply NoDup_app. split_and!; [done| |apply NoDup_singleton].
    intros id (tm & -> & Hin)%list_elem_of_fmap Heq%list_elem_of_singleton.
    simpl in Heq. specialize (Hlt tm Hin). rewrite Heq in Hlt. lia.
  - intros tm [Hin | ->%list_elem_of_singleton]%elem_of_app; simpl; [|lia].
    specialize (Hlt tm Hin). lia.
  - intros tm [Hin | ->%list_elem_of_singleton]%elem_of_app; simpl; [|done].
    intros E. rewrite (Hno tm Hin) in E. done.
  - intros tm [Hin | ->%list_elem_of_singleton]%elem_of_app; [auto|done].
Qed.

Lemma timers_wf_arm_event (delay now : Z) (w : world) :
  timers_wf w → (∀ tm, tm ∈ timers w → isEventTimer tm = false) →
  timers_wf (set_eventDispatchTimer (Some (nextTimer w))
               (setTimeout CbDispatchEvents delay now w).2).
Proof.
  intros (Hnd & Hlt & Hst & Hev) Hno. destruct w. revert Hnd Hlt Hst Hev Hno.
  unfold timers_wf. unfold_methods. simpl. intros Hnd Hlt Hst Hev Hno.
  split_and!.
  - rewrite fmap_app. apply NoDup_app. split_and!; [done| |apply NoDup_singleton].
    intros id (tm & -> & Hin)%list_elem_of_fmap Heq%list_elem_of_singleton.
    simpl in Heq. specialize (Hlt tm Hin). rewrite Heq in Hlt. lia.
  - intros tm [Hin | ->%list_elem_of_singleton]%elem_of_app; simpl; [|lia].
    specialize (Hlt tm Hin). lia.
  - intros tm [Hin | ->%list_elem_of_singleton]%elem_of_app; [auto|done].
  - intros tm [Hin | ->%list_elem_of_singleton]%elem_of_app; simpl; [|done].
    intros E. rewrite (Hno tm Hin) in E. done.
Qed.

Lemma timers_wf_unmark_state (w : world) :
  timers_wf w → (∀ tm, tm ∈ timers w → isStateTimer tm = false) →
  timers_wf (set_stateDispatchTimer None w).
Proof.
  intros (Hnd & Hlt & Hst & Hev) Hno. destruct w. revert Hnd Hlt Hst Hev Hno.
  unfold timers_wf. unfold_methods. intros Hnd Hlt Hst Hev Hno.
  split_and!; [done..| |done].
  intros tm Hin E. rewrite (Hno tm Hin) in E. done.
Qed.

Lemma timers_wf_unmark_event (w : world) :
  timers_wf w → (∀ tm, tm ∈ timers w → isEventTimer tm = false) →
  timers_wf (set_eventDispatchTimer None w).
Proof.
  intros (Hnd & Hlt & Hst & Hev) Hno. destruct w. revert Hnd Hlt Hst Hev Hno.
  unfold timers_wf. unfold_methods. intros Hnd Hlt Hst Hev Hno.
  split_and!; [done..|].
  intros tm Hin E. rewrite (Hno tm Hin) in E. done.
Qed.

Lemma timers_wf_dispatchStateChange (s : StateRecord) (w : world) :
  timers_wf w → timers_wf (dispatchStateChange s w).
Proof. apply timers_wf_ext; by destruct w. Qed.

Lemma timers_wf_dispatchEventQueue (now : Z) (w : world) :
  timers_wf w → timers_wf (dispatchEventQueue now w).
Proof.
  unfold dispatchEventQueue. case_match; [|done].
  apply timers_wf_ext; by destruct w.
Qed.

Lemma timers_wf_handleStateChange (now : Z) (w : world) :
  timers_wf w → timers_wf (handleStateChange now w).
Proof.
  intros Hwf. unfold handleStateChange.
  destruct (sameAsShared _ _); [done|].
  destruct (_ <? _); [done|].
  destruct (_ <=? _).
  - eapply timers_wf_ext; [..|exact Hwf]; by destruct w.
  - destruct (stateDispatchTimer w) as [id|] eqn:E.
    + eapply timers_wf_ext;
        [..|apply (timers_wf_arm_state (getState w)
                     (stateDispatchDelay (opts w)) now (clearTimeout id w))];
        [by destruct w..| |].
      * by apply timers_wf_clearTimeout.
      * by apply no_state_timer_cleared.
    + eapply timers_wf_ext;
        [..|apply (timers_wf_arm_state (getState w)
                     (stateDispatchDelay (opts w)) now w)];
        [by destruct w..|done|].
      by apply no_state_timer_unmarked.
Qed.

Lemma timers_wf_handleCustomEvent (now : Z) (content : value) (w : world) :
  timers_wf w → timers_wf (handleCustomEvent now content w).
Proof.
  intros Hwf. unfold handleCustomEvent.
  set (w1 := set_eventQueue (eventQueue w ++ [content]) w).
  assert (timers_wf w1) as Hwf1.
  { eapply timers_wf_ext; [..|exact Hwf]; by destruct w. }
  destruct (_ <=? _).
  - by apply timers_wf_dispatchEventQueue.
  - destruct (eventDispatchTimer w1) eqn:E; [done|].
    eapply timers_wf_ext;
      [..|apply (timers_wf_arm_event
                   (eventDispatchDelay (opts w1) - (now - lastEventDispatch w1))
                   now w1)];
      [by destruct w..|done|].
    by apply no_event_timer_unmarked.
Qed.


Lemma timers_wf_fireTimer (now : Z) (id : positive) (w w' : world) :
  timers_wf w → fireTimer now id w = Some w' → timers_wf w'.
Proof.
  intros Hwf. unfold fireTimer.
  destruct (list_find _ _) as [[i tm]|] eqn:Hfind; [|done].
  destruct (_ <=? _); [|done]. intros [= <-].
  apply list_find_Some in Hfind as (Hin%list_elem_of_lookup_2 & Hid & _).
  pose proof Hwf as (_ & _ & Hst & Hev).
  destruct (t_cb tm) eqn:Hcb; simpl.
  - apply timers_wf_dispatchStateChange, timers_wf_unmark_state.
    + by apply timers_wf_clearTimeout.
    + apply no_state_timer_cleared; [done|].
      rewrite <- Hid. apply Hst; [done|]. unfold isStateTimer. by rewrite Hcb.
  - apply timers_wf_dispatchEventQueue, timers_wf_unmark_event.
    + by apply timers_wf_clearTimeout.
    + apply no_event_timer_cleared; [done|].
      rewrite <- Hid. apply Hev; [done|]. unfold isEventTimer. by rewrite Hcb.
Qed.




Lemma timers_wf_init (cfg : option config) (t0 : Z) (s0 : StateRecord) :
  timers_wf (init cfg (create t0 s0)).
Proof.
  assert (timers_wf (create t0 s0)) as Hwf.
  { unfold timers_wf; simpl. split_and!; [apply NoDup_nil_2|..];
      intros tm Hin; by apply elem_of_nil in Hin. }
  unfold init. case_match.
  - eapply timers_wf_ext; [..|exact Hwf]; by destruct cfg.
  - eapply timers_wf_ext; [..|exact Hwf]; by destruct cfg.
Qed.




(** ** The remote message handler *)

Lemma handleReceivedMessage_foreign (now : Z) (data : message) (w : world) :
  m_socketId data ≠ socketId (opts w) → handleReceivedMessage now data w = w.
Proof.
  intros Hne. unfold handleReceivedMessage.
  by rewrite (proj2 (strict_ne_true _ _) Hne).
Qed.

Lemma BroadcastJs_handleReceivedMessage_foreign
    (data : message) (w : BroadcastJs.world) :
  m_socketId data ≠ BroadcastJs.socketId (BroadcastJs.opts w) →
  BroadcastJs.handleReceivedMessage data w = w.
Proof.
  intros Hne. unfold BroadcastJs.handleReceivedMessage.
  by rewrite (proj2 (strict_ne_true _ _) Hne).
Qed.

(** C6: a message whose [socketId] is not the instance's own is discarded
    by [handleReceivedMessage], in both variants: the whole state of the
    instance and of its host stays as it was, so the engine's state, the
    'received' events dispatched, [lastSharedState] and
    [lastRemoteStateChange] are unchanged. *)
Theorem foreign_message_discarded
    (now : Z) (data : message) (w : world) (b : BroadcastJs.world) :
  m_socketId data ≠ socketId (opts w) →
  m_socketId data ≠ BroadcastJs.socketId (BroadcastJs.opts b) →
  handleReceivedMessage now data w = w
  ∧ deck (handleReceivedMessage now data w) = deck w
  ∧ applied (handleReceivedMessage now data w) = applied w
  ∧ received (handleReceivedMessage now data w) = received w
  ∧ lastSharedState (handleReceivedMessage now data w) = lastSharedState w
  ∧ lastRemoteStateChange (handleReceivedMessage now data w)
    = lastRemoteStateChange w
  ∧ BroadcastJs.handleReceivedMessage data b = b.
Proof.
  intros Hw Hb.
  rewrite (handleReceivedMessage_foreign now data w Hw).
  rewrite (BroadcastJs_handleReceivedMessage_foreign data b Hb).
  done.
Qed.

Lemma foreign_message_discarded_witness :
  m_socketId otherMessage ≠ socketId (opts connectedWorld)
  ∧ m_socketId otherMessage ≠ BroadcastJs.socketId (BroadcastJs.opts legacyWorld)
  ∧ handleReceivedMessage 1000500 otherMessage connectedWorld = connectedWorld
  ∧ BroadcastJs.handleReceivedMessage otherMessage legacyWorld = legacyWorld.
Proof.
  assert (m_socketId otherMessage ≠ socketId (opts connectedWorld)) as H1
    by (vm_compute; discriminate).
  assert (m_socketId otherMessage
          ≠ BroadcastJs.socketId (BroadcastJs.opts legacyWorld)) as H2
    by (vm_compute; discriminate).
  pose proof (foreign_message_discarded 1000500 otherMessage
                connectedWorld legacyWorld H1 H2) as H.
  split_and!; [exact H1 | exact H2 | apply H | apply H].
Defined.

(** ** What each method leaves alone *)

Lemma handleStateChange_frame (now : Z) (w : world) :
  let w' := handleStateChange now w in
  opts w' = opts w ∧ lastRemoteStateChange w' = lastRemoteStateChange w
  ∧ clock w' = clock w ∧ deck w' = deck w
  ∧ masterWired w' = masterWired w ∧ clientWired w' = clientWired w
  ∧ socket w' = socket w ∧ scriptRequested w' = scriptRequested w
  ∧ eventQueue w' = eventQueue w ∧ lastEventDispatch w' = lastEventDispatch w
  ∧ eventDispatchTimer w' = eventDispatchTimer w
  ∧ applied w' = applied w ∧ received w' = received w.
Proof. frame w. Qed.

Lemma handleCustomEvent_frame (now : Z) (c : value) (w : world) :
  let w' := handleCustomEvent now c w in
  opts w' = opts w ∧ lastRemoteStateChange w' = lastRemoteStateChange w
  ∧ clock w' = clock w ∧ deck w' = deck w
  ∧ masterWired w' = masterWired w ∧ clientWired w' = clientWired w
  ∧ socket w' = socket w ∧ scriptRequested w' = scriptRequested w
  ∧ lastStateChange w' = lastStateChange w
  ∧ lastSharedState w' = lastSharedState w
  ∧ stateDispatchTimer w' = stateDispatchTimer w
  ∧ applied w' = applied w ∧ received w' = received w.
Proof. frame w. Qed.

Lemma handleReceivedMessage_frame (now : Z) (data : message) (w : world) :
  let w' := handleReceivedMessage now data w in
  opts w' = opts w ∧ clock w' = clock w
  ∧ masterWired w' = masterWired w ∧ clientWired w' = clientWired w
  ∧ socket w' = socket w ∧ scriptRequested w' = scriptRequested w
  ∧ lastStateChange w' = lastStateChange w
  ∧ stateDispatchTimer w' = stateDispatchTimer w
  ∧ eventQueue w' = eventQueue w ∧ lastEventDispatch w' = lastEventDispatch w
  ∧ eventDispatchTimer w' = eventDispatchTimer w
  ∧ timers w' = timers w ∧ nextTimer w' = nextTimer w
  ∧ emitted w' = emitted w
  ∧ (lastRemoteStateChange w' = lastRemoteStateChange w
     ∨ lastRemoteStateChange w' = now).
Proof.
  cbv zeta. unfold handleReceivedMessage. split_cases;
    rewrite ?dispatchReceived_all; destruct w;
    split_and?; first [reflexivity | left; reflexivity | right; reflexivity].
Qed.

Lemma runCallback_frame (now : Z) (cb : callback) (w : world) :
  let w' := runCallback now cb w in
  opts w' = opts w ∧ lastRemoteStateChange w' = lastRemoteStateChange w
  ∧ clock w' = clock w ∧ deck w' = deck w
  ∧ masterWired w' = masterWired w ∧ clientWired w' = clientWired w
  ∧ socket w' = socket w ∧ scriptRequested w' = scriptRequested w
  ∧ lastStateChange w' = lastStateChange w
  ∧ applied w' = applied w ∧ received w' = received w
  ∧ timers w' = timers w.
Proof. destruct cb; frame w. Qed.

Lemma fireTimer_frame (now : Z) (id : positive) (w w' : world) :
  fireTimer now id w = Some w' →
  opts w' = opts w ∧ lastRemoteStateChange w' = lastRemoteStateChange w
  ∧ clock w' = clock w ∧ deck w' = deck w
  ∧ masterWired w' = masterWired w ∧ clientWired w' = clientWired w
  ∧ socket w' = socket w ∧ scriptRequested w' = scriptRequested w
  ∧ lastStateChange w' = lastStateChange w
  ∧ applied w' = applied w ∧ received w' = received w.
Proof.
  unfold fireTimer. destruct (list_find _ _) as [[i tm]|]; [|done].
  destruct (_ <=? _); [|done]. intros [= <-].
  pose proof (runCallback_frame now (t_cb tm) (clearTimeout id w)) as H.
  simpl in H. destruct H as (-> & -> & -> & -> & -> & -> & -> & -> & -> & -> & -> & _).
  by destruct w.
Qed.

(** One turn of the loop keeps the options, sets the clock, and moves
    [lastRemoteStateChange] to the current time if at all. *)
Lemma step_frame (t : Z) (e : event) (w w' : world) :
  step t e w = Some w' →
  opts w' = opts w ∧ clock w' = t ∧ clock w ≤ t
  ∧ (lastRemoteStateChange w' = lastRemoteStateChange w
     ∨ lastRemoteStateChange w' = t).
Proof.
  unfold step. destruct (Z.ltb_spec t (clock w)) as [|Hle]; [done|].
  assert (opts (set_clock t w) = opts w
          ∧ lastRemoteStateChange (set_clock t w) = lastRemoteStateChange w
          ∧ clock (set_clock t w) = t) as (Ho & Hr & Hc) by by destruct w.
  revert Ho Hr Hc. generalize (set_clock t w). intros w1 Ho Hr Hc.
  rewrite <- Ho, <- Hr. clear Ho Hr.
  assert (∀ w2, opts w2 = opts w1 → clock w2 = clock w1 →
                (lastRemoteStateChange w2 = lastRemoteStateChange w1
                 ∨ lastRemoteStateChange w2 = t) →
                Some w2 = Some w' →
                opts w' = opts w1 ∧ clock w' = t ∧ clock w ≤ t
                ∧ (lastRemoteStateChange w' = lastRemoteStateChange w1
                   ∨ lastRemoteStateChange w' = t)) as Hfin.
  { intros w2 Ho Hck Hr [= <-]. rewrite Ho, Hck. done. }
  destruct e.
  - destruct (_ && _); [|done]. apply Hfin; [by destruct w1..|left; by destruct w1].
  - destruct (socket w1); [|done]. unfold onConnect.
    destruct (setupFinished w1); [by apply Hfin; auto|].
    destruct (truthy (secret (opts w1)));
      destruct (truthy (socketId (opts _)));
      (apply Hfin; [by destruct w1..|left; by destruct w1]).
  - apply Hfin; [by destruct w1..|left; by destruct w1].
  - destruct (masterWired w1); [|by apply Hfin; auto].
    pose proof (handleStateChange_frame t w1) as H. simpl in H.
    apply Hfin; [apply H..|left; apply H].
  - destruct (masterWired w1); [|by apply Hfin; auto].
    pose proof (handleCustomEvent_frame t content w1) as H. simpl in H.
    apply Hfin; [apply H..|left; apply H].
  - destruct (clientWired w1); [|by apply Hfin; auto].
    pose proof (handleReceivedMessage_frame t data w1) as H. simpl in H.
    apply Hfin; apply H.
  - intros H. pose proof (fireTimer_frame _ _ _ _ H) as H'.
    apply (Hfin w'); [apply H'..|left; apply H'|done].
Qed.

(** The handlers are installed only once the socket exists, so that
    [this.socket] is never null when one of them emits. *)
Lemma wired_socket_step (t : Z) (e : event) (w w' : world) :
  step t e w = Some w' →
  (masterWired w = true ∨ clientWired w = true → socket w = true) →
  masterWired w' = true ∨ clientWired w' = true → socket w' = true.
Proof.
  unfold step. destruct (_ <? _); [done|].
  replace (masterWired w) with (masterWired (set_clock t w)) by by destruct w.
  replace (clientWired w) with (clientWired (set_clock t w)) by by destruct w.
  replace (socket w) with (socket (set_clock t w)) by by destruct w.
  generalize (set_clock t w). clear w. intros w. destruct e.
  - destruct (_ && _); [|done]. by intros [= <-].
  - destruct (socket w) eqn:Hs; [|done]. intros [= <-] _ _. unfold onConnect.
    destruct (setupFinished w); [done|].
    destruct (truthy (secret (opts w)));
      destruct (truthy (socketId (opts _))); by destruct w.
  - by intros [= <-].
  - intros [= <-]. destruct (masterWired w) eqn:Hm; [|by rewrite Hm].
    pose proof (handleStateChange_frame t w) as Hf. simpl in Hf.
    destruct Hf as (_ & _ & _ & _ & -> & -> & -> & _). by rewrite Hm.
  - intros [= <-]. destruct (masterWired w) eqn:Hm; [|by rewrite Hm].
    pose proof (handleCustomEvent_frame t content w) as Hf. simpl in Hf.
    destruct Hf as (_ & _ & _ & _ & -> & -> & -> & _). by rewrite Hm.
  - intros [= <-]. destruct (clientWired w) eqn:Hc; [|by rewrite Hc].
    pose proof (handleReceivedMessage_frame t data w) as Hf. simpl in Hf.
    destruct Hf as (_ & _ & -> & -> & -> & _). by rewrite Hc.
  - intros Hfire. pose proof (fireTimer_frame _ _ _ _ Hfire) as Hf.
    by destruct Hf as (_ & _ & _ & _ & -> & -> & -> & _).
Qed.

Lemma wired_socket (cfg : option config) (t0 : Z) (s0 : StateRecord)
    (tr : list (Z * event)) (w : world) :
  session cfg t0 s0 tr = Some w →
  masterWired w = true ∨ clientWired w = true → socket w = true.
Proof.
  unfold session.
  assert (masterWired (init cfg (create t0 s0)) = true
          ∨ clientWired (init cfg (create t0 s0)) = true
          → socket (init cfg (create t0 s0)) = true) as Hinit.
  { unfold init. destruct cfg as [c|]; simpl.
    - destruct (strict_eq (default VUndefined (c_socketId c)) VUndefined);
        simpl; by intros [|].
    - by intros [|]. }
  revert Hinit. generalize (init cfg (create t0 s0)).
  induction tr as [|[t e] tr IH]; intros w0 Hinv; simpl.
  - by intros [= <-].
  - destruct (step t e w0) as [w1|] eqn:Hstep; [|done].
    apply IH. by apply (wired_socket_step t e w0).
Qed.

(** ** Echo suppression *)





(** ** The trailing publish *)

(** Firing a pending debounce timer: the marker is cleared, then the state
    held by the closure is published and becomes [lastSharedState]. *)
Lemma fireTimer_state (now : Z) (id : positive) (i : nat) (due : Z)
    (s : StateRecord) (w : world) :
  list_find (λ tm, t_id tm = id) (timers w)
    = Some (i, Timer id due (CbDispatchState s)) →
  due ≤ now →
  ∃ w', fireTimer now id w = Some w'
        ∧ stateDispatchTimer w' = None
        ∧ emitted w' = emitted w ++ [stateMessage (opts w) s]
        ∧ lastSharedState w' = Some s
        ∧ timers w' = filter (λ tm, t_id tm ≠ id) (timers w)
        ∧ deck w' = deck w.
Proof.
  intros Hfind Hdue. unfold fireTimer. rewrite Hfind. simpl.
  rewrite (proj2 (Z.leb_le _ _) Hdue). eexists. split; [done|].
  by destruct w.
Qed.

(** C10: a pending debounce timer publishes the state its closure holds,
    unconditionally. A remote message handled while the timer is pending
    leaves the timer table and [stateDispatchTimer] as they are, and when
    the timer fires afterwards, at any time from its due time on, the
    captured state is emitted and recorded as [lastSharedState], without
    any test of the blackout window or of the equivalence with
    [lastSharedState]. *)
Theorem trailing_publish_unconditional
    (w : world) (id : positive) (i : nat) (due : Z) (s : StateRecord)
    (T : Z) (data : message) (now : Z) :
  list_find (λ tm, t_id tm = id) (timers w)
    = Some (i, Timer id due (CbDispatchState s)) →
  due ≤ now →
  timers (handleReceivedMessage T data w) = timers w
  ∧ stateDispatchTimer (handleReceivedMessage T data w) = stateDispatchTimer w
  ∧ ∃ w', fireTimer now id (handleReceivedMessage T data w) = Some w'
          ∧ stateDispatchTimer w' = None
          ∧ emitted w' = emitted w ++ [stateMessage (opts w) s]
          ∧ lastSharedState w' = Some s.
Proof.
  intros Hfind Hdue.
  pose proof (handleReceivedMessage_frame T data w) as H. simpl in H.
  destruct H as (Ho & _ & _ & _ & _ & _ & _ & Hm & _ & _ & _ & Ht & _ & He & _).
  split_and!; [done..|].
  rewrite <- Ht in Hfind.
  destruct (fireTimer_state now id i due s _ Hfind Hdue)
    as (w' & Hfire & Hmark & Hemit & Hshared & _).
  exists w'. by rewrite <- He, <- Ho.
Qed.

Lemma trailing_publish_unconditional_witness :
  list_find (λ tm, t_id tm = 1%positive) (timers armedForSlide1)
    = Some (0%nat, Timer 1 1000600 (CbDispatchState (slide 1)))
  ∧ 1000600 - lastRemoteStateChange armedThenRemote
      < remoteStateChangeBlackout (opts armedThenRemote)
  ∧ sameAsShared (slide 1) armedThenRemote = true
  ∧ ∃ w', fireTimer 1000600 1 armedThenRemote = Some w'
          ∧ emitted w' = emitted armedForSlide1
                           ++ [stateMessage (opts armedForSlide1) (slide 1)].
Proof.
  assert (list_find (λ tm, t_id tm = 1%positive) (timers armedForSlide1)
          = Some (0%nat, Timer 1 1000600 (CbDispatchState (slide 1)))) as H1
    by (vm_compute; reflexivity).
  assert (1000600 ≤ 1000600) as H2 by lia.
  destruct (trailing_publish_unconditional armedForSlide1 1 0 1000600 (slide 1)
              1000300 (mainMessage 1) 1000600 H1 H2)
    as (_ & _ & w' & Hfire & _ & Hemit & _).
  split_and!; [exact H1 | vm_compute; reflexivity | vm_compute; reflexivity |].
  exists w'. split; [exact Hfire | exact Hemit].
Defined.

Lemma filter_none {A} (P : A → Prop) `{!∀ x, Decision (P x)} (l : list A) :
  (∀ x, x ∈ l → ¬ P x) → filter P l = [].
Proof.
  induction l as [|a l IH]; intros Hno; [done|].
  rewrite filter_cons_False by (apply Hno; set_solver).
  apply IH. intros x Hx. apply Hno. set_solver.
Qed.

Lemma list_find_fresh (l : list timer) (n : positive) (due : Z) (cb : callback) :
  (∀ tm, tm ∈ l → (t_id tm < n)%positive) →
  list_find (λ tm, t_id tm = n) (l ++ [Timer n due cb])
  = Some (length l, Timer n due cb).
Proof.
  intros Hlt. rewrite list_find_app_r.
  - simpl. by rewrite decide_True.
  - apply list_find_None, Forall_forall. intros tm Hin Heq.
    specialize (Hlt tm Hin). simpl in Heq. lia.
Qed.

(** The world after [handleStateChange] took its scheduling branch. *)
Lemma handleStateChange_arms (now : Z) (w : world) :
  timers_wf w →
  sameAsShared (getState w) w = false →
  remoteStateChangeBlackout (opts w) ≤ now - lastRemoteStateChange w →
  now - lastStateChange w < stateDispatchDelay (opts w) →
  let w1 := handleStateChange now w in
  let tm := Timer (nextTimer w) (now + Z.max 0 (stateDispatchDelay (opts w)))
              (CbDispatchState (getState w)) in
  stateDispatchTimer w1 = Some (nextTimer w)
  ∧ (∃ l, timers w1 = l ++ [tm]
          ∧ (∀ x, x ∈ l → x ∈ timers w ∧ isStateTimer x = false))
  ∧ emitted w1 = emitted w ∧ opts w1 = opts w
  ∧ lastSharedState w1 = lastSharedState w
  ∧ lastStateChange w1 = now.
Proof.
  intros Hwf Hsame Hblack Hint. cbv zeta. unfold handleStateChange.
  rewrite Hsame.
  rewrite (proj2 (Z.ltb_ge _ _) Hblack).
  rewrite (proj2 (Z.leb_gt _ _) Hint).
  destruct (stateDispatchTimer w) as [old|] eqn:E.
  - split_and!; try by destruct w.
    exists (filter (λ tm, t_id tm ≠ old) (timers w)). split; [by destruct w|].
    intros x Hx. split.
    + by apply list_elem_of_filter in Hx as [_ ?].
    + apply (no_state_timer_cleared old w Hwf E). by destruct w.
  - split_and!; try by destruct w. 
    exists (timers w). split; [by destruct w|].
    intros x Hx. split; [done|]. by apply (no_state_timer_unmarked w Hwf E).
Qed.

(** C1, as stated, fails: in the sample session slide 0 is published, the
    user moves to slide 1 (the debounce timer is armed) and back to slide 0
    (no-op, slide 0 being what was last shared). When the timer fires the
    engine is on slide 0, and slide 1 is published. *)
Lemma trailing_publish_is_stale :
  run thereAndBack connectedWorld = Some backOnSlide0
  ∧ getState backOnSlide0 = slide 0
  ∧ emitted <$> step 1000600 (Timeout 1) backOnSlide0
    = Some (emitted backOnSlide0 ++ [stateMessage (opts backOnSlide0) (slide 1)])
  ∧ getState <$> step 1000600 (Timeout 1) backOnSlide0 = Some (slide 0)
  ∧ isEquivalent (slide 1) (slide 0) = false.
Proof. split_and!; vm_compute; reflexivity. Qed.

(** C1 (amended): when [handleStateChange] schedules a trailing publish, the
    timer it arms holds the state read from the engine at that moment.
    When the timer fires, it clears [stateDispatchTimer] and then publishes
    that captured state, whatever state the engine has moved to since. *)
Theorem trailing_publish_sends_captured_state
    (now : Z) (w : world) (moved : StateRecord) (fire : Z) :
  timers_wf w →
  sameAsShared (getState w) w = false →
  remoteStateChangeBlackout (opts w) ≤ now - lastRemoteStateChange w →
  now - lastStateChange w < stateDispatchDelay (opts w) →
  now + Z.max 0 (stateDispatchDelay (opts w)) ≤ fire →
  let w1 := handleStateChange now w in
  stateDispatchTimer w1 = Some (nextTimer w)
  ∧ stateTimers w1
    = [Timer (nextTimer w) (now + Z.max 0 (stateDispatchDelay (opts w)))
         (CbDispatchState (getState w))]
  ∧ emitted w1 = emitted w
  ∧ ∃ w2, fireTimer fire (nextTimer w) (set_deck moved w1) = Some w2
          ∧ stateDispatchTimer w2 = None
          ∧ emitted w2 = emitted w ++ [stateMessage (opts w) (getState w)]
          ∧ lastSharedState w2 = Some (getState w)
          ∧ getState w2 = moved.
Proof.
  intros Hwf Hsame Hblack Hint Hfire.
  destruct (handleStateChange_arms now w Hwf Hsame Hblack Hint)
    as (Hmark & (l & Hl & Hold) & Hemit & Hopts & _).
  cbv zeta. split_and!; [done| |done|].
  - unfold stateTimers. rewrite Hl, filter_app.
    rewrite filter_none; [done|].
    intros x Hx. destruct (Hold x Hx) as [_ ->]. done.
  - assert (list_find (λ tm, t_id tm = nextTimer w)
              (timers (set_deck moved (handleStateChange now w)))
            = Some (length l,
                    Timer (nextTimer w)
                      (now + Z.max 0 (stateDispatchDelay (opts w)))
                      (CbDispatchState (getState w)))) as Hfind.
    { replace (timers (set_deck moved (handleStateChange now w)))
        with (timers (handleStateChange now w))
        by by destruct (handleStateChange now w).
      rewrite Hl. apply list_find_fresh.
      intros tm Htm. destruct Hwf as (_ & Hlt & _). apply Hlt.
      by apply Hold. }
    destruct (fireTimer_state fire _ _ _ _ _ Hfind Hfire)
      as (w2 & Hf & Hm2 & He2 & Hs2 & _ & Hd2).
    exists w2. split_and!; [done..| | |].
    + rewrite He2. 
      replace (emitted (set_deck moved (handleStateChange now w)))
        with (emitted (handleStateChange now w))
        by by destruct (handleStateChange now w).
      replace (opts (set_deck moved (handleStateChange now w)))
        with (opts (handleStateChange now w))
        by by destruct (handleStateChange now w).
      by rewrite Hemit, Hopts.
    + done.
    + unfold getState. rewrite Hd2. by destruct (handleStateChange now w).
Qed.

Lemma timers_wf_no_timers (w : world) : timers w = [] → timers_wf w.
Proof.
  intros H. unfold timers_wf. rewrite H. split_and!; [apply NoDup_nil_2|..];
    intros tm Hin; by apply elem_of_nil in Hin.
Qed.

Lemma trailing_publish_sends_captured_state_witness :
  getState movedToSlide1 = slide 1
  ∧ sameAsShared (getState movedToSlide1) movedToSlide1 = false
  ∧ ∃ w2, fireTimer 1000600 1
            (set_deck (slide 0) (handleStateChange 1000100 movedToSlide1))
          = Some w2
          ∧ emitted w2 = emitted movedToSlide1
                           ++ [stateMessage (opts movedToSlide1) (slide 1)]
          ∧ getState w2 = slide 0.
Proof.
  assert (timers_wf movedToSlide1) as Hwf
    by (apply timers_wf_no_timers; vm_compute; reflexivity).
  assert (sameAsShared (getState movedToSlide1) movedToSlide1 = false) as Hsame
    by (vm_compute; reflexivity).
  destruct (trailing_publish_sends_captured_state 1000100 movedToSlide1
              (slide 0) 1000600 Hwf Hsame)
    as (_ & _ & _ & w2 & Hfire & _ & Hemit & _ & Hdeck);
    [vm_compute; first [reflexivity | discriminate]..|].
  split_and!; [vm_compute; reflexivity | exact Hsame |].
  exists w2. split_and!; [exact Hfire | exact Hemit | exact Hdeck].
Defined.

(** ** Repeated notifications *)

(** The three outcomes of [handleStateChange]. *)
Lemma handleStateChange_cases (now : Z) (w : world) :
  let w' := handleStateChange now w in
  w' = w
  ∨ (sameAsShared (getState w) w = false
     ∧ stateDispatchDelay (opts w) ≤ now - lastStateChange w
     ∧ emitted w' = emitted w ++ [stateMessage (opts w) (getState w)]
     ∧ lastSharedState w' = Some (getState w)
     ∧ timers w' = timers w ∧ nextTimer w' = nextTimer w
     ∧ stateDispatchTimer w' = stateDispatchTimer w
     ∧ lastStateChange w' = now)
  ∨ (sameAsShared (getState w) w = false
     ∧ remoteStateChangeBlackout (opts w) ≤ now - lastRemoteStateChange w
     ∧ now - lastStateChange w < stateDispatchDelay (opts w)
     ∧ emitted w' = emitted w
     ∧ lastSharedState w' = lastSharedState w
     ∧ lastStateChange w' = now).
Proof.
  cbv zeta. unfold handleStateChange.
  destruct (sameAsShared _ _) eqn:Hsame; [by left|].
  destruct (Z.ltb_spec (now - lastRemoteStateChange w)
              (remoteStateChangeBlackout (opts w))); [by left|]. right.
  destruct (Z.leb_spec (stateDispatchDelay (opts w)) (now - lastStateChange w)).
  - left. split_and!; try done; by destruct w.
  - right. split_and!; try done; destruct (stateDispatchTimer w); by destruct w.
Qed.


Lemma handleStateChange_same (now : Z) (w : world) :
  sameAsShared (getState w) w = true → handleStateChange now w = w.
Proof. unfold handleStateChange. by intros ->. Qed.




Lemma BroadcastJs_handleStateChange_same (b : BroadcastJs.world) :
  (∃ last, BroadcastJs.lastMsgState b = Some last
           ∧ BroadcastJs.isEquivalent (BroadcastJs.getState b) last = true) →
  BroadcastJs.handleStateChange b = b.
Proof.
  intros (last & Hl & He). unfold BroadcastJs.handleStateChange.
  by rewrite Hl, He.
Qed.



(** ** Bursts of notifications *)






(** ** Initialisation without a channel *)

Lemma init_inert (cfg : option config) (t0 : Z) (s0 : StateRecord) :
  configuredSocketId cfg = VUndefined → inert (init cfg (create t0 s0)).
Proof.
  intros Hcfg. unfold init.
  assert (socketId (opts match cfg with
                         | Some c => set_opts (assign (opts (set_setupFinished false (create t0 s0))) c)
                                       (set_setupFinished false (create t0 s0))
                         | None => set_setupFinished false (create t0 s0)
                         end) = VUndefined) as ->.
  { destruct cfg as [c|]; [|done]. simpl in *. done. }
  rewrite strict_eq_refl. by destruct cfg.
Qed.

Lemma step_inert (t : Z) (e : event) (w w' : world) :
  inert w → step t e w = Some w' → inert w'.
Proof.
  intros (Hs & Hk & Hm & Hc & Ht & He & Ha & Hr). unfold step.
  destruct (_ <? _); [done|].
  replace (scriptRequested (set_clock t w)) with false by by destruct w.
  replace (socket (set_clock t w)) with false by by destruct w.
  replace (masterWired (set_clock t w)) with false by by destruct w.
  replace (clientWired (set_clock t w)) with false by by destruct w.
  assert (inert (set_clock t w)) as Hin by by destruct w.
  destruct e; simpl; try done; try by intros [= <-].
  unfold fireTimer.
  replace (timers (set_clock t w)) with (@nil timer) by by destruct w.
  done.
Qed.

Lemma run_inert (tr : list (Z * event)) (w w' : world) :
  inert w → run tr w = Some w' → inert w'.
Proof.
  revert w. induction tr as [|[t e] tr IH]; intros w Hin; simpl.
  - by intros [= <-].
  - destruct (step t e w) as [w1|] eqn:Hstep; [|done].
    apply IH. by eapply step_inert.
Qed.

Lemma step_unwired (t : Z) (w : world) (content : value) (data : message) :
  masterWired w = false → clientWired w = false → clock w ≤ t →
  step t StateChanged w = Some (set_clock t w)
  ∧ step t (Send content) w = Some (set_clock t w)
  ∧ step t (Incoming data) w = Some (set_clock t w).
Proof.
  intros Hm Hc Ht. unfold step. rewrite (proj2 (Z.ltb_ge _ _) Ht).
  replace (masterWired (set_clock t w)) with false by by destruct w.
  replace (clientWired (set_clock t w)) with false by by destruct w.
  done.
Qed.

(** C9, as stated, fails in [broadcast.js], whose [init] has no guard on
    [socketId]: without any configuration the script is requested, and
    once it is loaded the publisher and the subscriber are set up and a
    state change is published, with [socketId] undefined. *)
Lemma BroadcastJs_init_without_socketId_is_live :
  BroadcastJs.socketId (BroadcastJs.opts legacyUnconfigured) = VUndefined
  ∧ BroadcastJs.scriptRequested legacyUnconfigured = true
  ∧ BroadcastJs.masterWired
      <$> BroadcastJs.run [BroadcastJs.ScriptLoaded] legacyUnconfigured
    = Some true
  ∧ BroadcastJs.clientWired
      <$> BroadcastJs.run [BroadcastJs.ScriptLoaded] legacyUnconfigured
    = Some true
  ∧ BroadcastJs.emitted
      <$> BroadcastJs.run [BroadcastJs.ScriptLoaded; BroadcastJs.StateChanged]
            legacyUnconfigured
    = Some [{| m_secret := VUndefined; m_socketId := VUndefined;
               m_state := Some (slide 0); m_events := None |}].
Proof. split_and!; vm_compute; reflexivity. Qed.

(** C9 (amended): in [part_000], when the configuration gives no
    [socketId], [init] returns with the subsystem inert, and it stays so
    for the whole session: no script is requested, there is no socket, no
    publisher and no subscriber, no timer, and nothing is emitted, applied
    or re-raised; the engine's notifications, the 'send' events and the
    messages are dropped. In [broadcast.js], [init] has no such guard: it
    requests the transport script whatever the configuration, and the
    roles follow the [master] and [client] options. *)
Theorem init_without_socketId_is_inert
    (cfg : option config) (t0 : Z) (s0 : StateRecord)
    (tr : list (Z * event)) (w : world)
    (bcfg : option BroadcastJs.config) (b : BroadcastJs.world) :
  configuredSocketId cfg = VUndefined →
  session cfg t0 s0 tr = Some w →
  inert (init cfg (create t0 s0))
  ∧ inert w
  ∧ (∀ t content data, clock w ≤ t →
       step t StateChanged w = Some (set_clock t w)
       ∧ step t (Send content) w = Some (set_clock t w)
       ∧ step t (Incoming data) w = Some (set_clock t w))
  ∧ BroadcastJs.scriptRequested (BroadcastJs.init bcfg b) = true
  ∧ BroadcastJs.masterWired
      (BroadcastJs.onScriptLoaded (BroadcastJs.init bcfg b))
    = truthy (BroadcastJs.master (BroadcastJs.opts (BroadcastJs.init bcfg b)))
      && negb (BroadcastJs.receiverUrl b)
      || BroadcastJs.masterWired b
  ∧ BroadcastJs.clientWired
      (BroadcastJs.onScriptLoaded (BroadcastJs.init bcfg b))
    = truthy (BroadcastJs.client (BroadcastJs.opts (BroadcastJs.init bcfg b)))
      || BroadcastJs.clientWired b.
Proof.
  intros Hcfg Hrun. pose proof (init_inert cfg t0 s0 Hcfg) as Hinit.
  pose proof (run_inert _ _ _ Hinit Hrun) as Hw.
  split_and!; [done..| |by destruct bcfg| |].
  - intros t content data Ht. destruct Hw as (_ & _ & Hm & Hc & _).
    by apply step_unwired.
  - unfold BroadcastJs.onScriptLoaded.
    replace (BroadcastJs.receiverUrl b)
      with (BroadcastJs.receiverUrl
              (BroadcastJs.set_socket true (BroadcastJs.init bcfg b)))
      by by destruct bcfg.
    replace (BroadcastJs.masterWired b)
      with (BroadcastJs.masterWired
              (BroadcastJs.set_socket true (BroadcastJs.init bcfg b)))
      by by destruct bcfg.
    replace (BroadcastJs.opts (BroadcastJs.init bcfg b))
      with (BroadcastJs.opts
              (BroadcastJs.set_socket true (BroadcastJs.init bcfg b)))
      by by destruct bcfg.
    generalize (BroadcastJs.set_socket true (BroadcastJs.init bcfg b)).
    intros b'.
    destruct (truthy (BroadcastJs.master (BroadcastJs.opts b'))
              && negb (BroadcastJs.receiverUrl b')) eqn:Em;
      destruct (truthy (BroadcastJs.client (BroadcastJs.opts _)));
      by destruct b'.
  - unfold BroadcastJs.onScriptLoaded.
    replace (BroadcastJs.clientWired b)
      with (BroadcastJs.clientWired
              (BroadcastJs.set_socket true (BroadcastJs.init bcfg b)))
      by by destruct bcfg.
    replace (BroadcastJs.opts (BroadcastJs.init bcfg b))
      with (BroadcastJs.opts
              (BroadcastJs.set_socket true (BroadcastJs.init bcfg b)))
      by by destruct bcfg.
    generalize (BroadcastJs.set_socket true (BroadcastJs.init bcfg b)).
    intros b'.
    destruct (truthy (BroadcastJs.master (BroadcastJs.opts b'))
              && negb (BroadcastJs.receiverUrl b'));
      destruct (truthy (BroadcastJs.client (BroadcastJs.opts _))) eqn:Ec;
      simpl; rewrite ?Ec; by destruct b'.
Qed.

Lemma init_without_socketId_is_inert_witness :
  configuredSocketId (Some anonymousConfig) = VUndefined
  ∧ session (Some anonymousConfig) 1000000 (slide 0) standaloneTrace
    = Some standalone
  ∧ inert standalone
  ∧ deck standalone = slide 1.
Proof.
  assert (configuredSocketId (Some anonymousConfig) = VUndefined) as H1
    by reflexivity.
  assert (session (Some anonymousConfig) 1000000 (slide 0) standaloneTrace
          = Some standalone) as H2 by (vm_compute; reflexivity).
  split_and!; [exact H1 | exact H2 | | vm_compute; reflexivity].
  apply (init_without_socketId_is_inert (Some anonymousConfig) 1000000
           (slide 0) standaloneTrace standalone None legacyUnconfigured H1 H2).
Defined.

(** ** The event batcher *)

Lemma dispatchEventQueue_empty (now : Z) (w : world) :
  eventQueue w = [] → dispatchEventQueue now w = w.
Proof. unfold dispatchEventQueue. by intros ->. Qed.

Lemma dispatchEventQueue_flush (now : Z) (w : world) :
  eventQueue w ≠ [] →
  let w' := dispatchEventQueue now w in
  emitted w' = emitted w ++ [eventsMessage (opts w) (eventQueue w)]
  ∧ eventQueue w' = [] ∧ lastEventDispatch w' = now
  ∧ timers w' = timers w ∧ nextTimer w' = nextTimer w
  ∧ eventDispatchTimer w' = eventDispatchTimer w ∧ opts w' = opts w.
Proof.
  intros Hne. cbv zeta. unfold dispatchEventQueue.
  destruct w; simpl in *. by destruct eventQueue0.
Qed.

(** An event raised when [eventDispatchDelay] has elapsed since the last
    flush goes out at once, with whatever was queued. *)
Lemma handleCustomEvent_flush (now : Z) (content : value) (w : world) :
  eventDispatchDelay (opts w) ≤ now - lastEventDispatch w →
  let w' := handleCustomEvent now content w in
  emitted w' = emitted w ++ [eventsMessage (opts w) (eventQueue w ++ [content])]
  ∧ eventQueue w' = [] ∧ lastEventDispatch w' = now
  ∧ timers w' = timers w ∧ nextTimer w' = nextTimer w
  ∧ eventDispatchTimer w' = eventDispatchTimer w ∧ opts w' = opts w.
Proof.
  intros Hint. cbv zeta. unfold handleCustomEvent.
  set (w1 := set_eventQueue (eventQueue w ++ [content]) w).
  assert (opts w1 = opts w ∧ lastEventDispatch w1 = lastEventDispatch w
          ∧ eventQueue w1 = eventQueue w ++ [content] ∧ emitted w1 = emitted w
          ∧ timers w1 = timers w ∧ nextTimer w1 = nextTimer w
          ∧ eventDispatchTimer w1 = eventDispatchTimer w)
    as (Ho & Hl & Hq & He & Ht & Hn & Hm) by by destruct w.
  rewrite Ho, Hl, (proj2 (Z.leb_le _ _) Hint).
  destruct (dispatchEventQueue_flush now w1) as (-> & -> & -> & -> & -> & -> & ->).
  { rewrite Hq. by destruct (eventQueue w). }
  by rewrite He, Ho, Hq.
Qed.

(** An event raised sooner is queued; a flush timer is armed, for the end
    of the delay, if none is pending. *)
Lemma handleCustomEvent_queue (now : Z) (content : value) (w : world) :
  now - lastEventDispatch w < eventDispatchDelay (opts w) →
  let w' := handleCustomEvent now content w in
  emitted w' = emitted w ∧ eventQueue w' = eventQueue w ++ [content]
  ∧ lastEventDispatch w' = lastEventDispatch w ∧ opts w' = opts w
  ∧ match eventDispatchTimer w with
    | Some id => eventDispatchTimer w' = Some id ∧ timers w' = timers w
                 ∧ nextTimer w' = nextTimer w
    | None => eventDispatchTimer w' = Some (nextTimer w)
              ∧ timers w' = timers w ++
                  [Timer (nextTimer w)
                     (lastEventDispatch w + eventDispatchDelay (opts w))
                     CbDispatchEvents]
              ∧ nextTimer w' = Pos.succ (nextTimer w)
    end.
Proof.
  intros Hint. cbv zeta. unfold handleCustomEvent.
  set (w1 := set_eventQueue (eventQueue w ++ [content]) w).
  assert (opts w1 = opts w ∧ lastEventDispatch w1 = lastEventDispatch w
          ∧ eventDispatchTimer w1 = eventDispatchTimer w)
    as (Ho & Hl & Hm) by by destruct w.
  rewrite Ho, Hl, Hm, (proj2 (Z.leb_gt _ _) Hint).
  destruct (eventDispatchTimer w) eqn:E.
  - subst w1. by destruct w.
  - subst w1. destruct w; simpl in *. split_and!; try done.
    do 3 f_equal. lia.
Qed.

(** Firing a pending flush timer: the marker is cleared, then the queue is
    flushed. *)
Lemma fireTimer_events (now : Z) (id : positive) (i : nat) (due : Z) (w : world) :
  list_find (λ tm, t_id tm = id) (timers w) = Some (i, Timer id due CbDispatchEvents) →
  due ≤ now →
  fireTimer now id w
  = Some (dispatchEventQueue now (set_eventDispatchTimer None (clearTimeout id w))).
Proof.
  intros Hfind Hdue. unfold fireTimer. rewrite Hfind. simpl.
  by rewrite (proj2 (Z.leb_le _ _) Hdue).
Qed.

Lemma raise_snoc (evs : list (Z * value)) (t : Z) (c : value) (w : world) :
  raise (evs ++ [(t, c)]) w = handleCustomEvent t c (raise evs w).
Proof. unfold raise. by rewrite foldl_app. Qed.

(** Events raised while the delay since the last flush has not elapsed all
    wait in the queue, in order, behind one flush timer. *)
Lemma raise_queues (evs : list (Z * value)) (w : world) :
  eventQueue w = [] → eventDispatchTimer w = None → evs ≠ [] →
  (∀ t c, (t, c) ∈ evs →
     t - lastEventDispatch w < eventDispatchDelay (opts w)) →
  let w' := raise evs w in
  emitted w' = emitted w ∧ eventQueue w' = evs.*2
  ∧ lastEventDispatch w' = lastEventDispatch w ∧ opts w' = opts w
  ∧ eventDispatchTimer w' = Some (nextTimer w)
  ∧ timers w' = timers w ++
      [Timer (nextTimer w) (lastEventDispatch w + eventDispatchDelay (opts w))
         CbDispatchEvents].
Proof.
  intros Hq Hm. cbv zeta.
  induction evs as [|[t c] evs IH] using rev_ind; [done|]. intros _ Hwin.
  rewrite raise_snoc.
  assert (t - lastEventDispatch w < eventDispatchDelay (opts w)) as Ht.
  { apply (Hwin t c), elem_of_app. right. by apply list_elem_of_singleton. }
  destruct evs as [|ev evs].
  - simpl. destruct (handleCustomEvent_queue t c w Ht) as (He & Hq' & Hl & Ho & Htm).
    rewrite Hm in Htm. destruct Htm as (Hm' & Ht' & _).
    by rewrite He, Hq', Hl, Ho, Hm', Ht', Hq.
  - destruct IH as (He & Hq' & Hl & Ho & Hm' & Ht'); [done| |].
    { intros t' c' Hin. apply (Hwin t' c'), elem_of_app. by left. }
    destruct (handleCustomEvent_queue t c (raise (ev :: evs) w))
      as (He2 & Hq2 & Hl2 & Ho2 & Htm); [by rewrite Hl, Ho|].
    rewrite Hm' in Htm. destruct Htm as (Hm2 & Ht2 & _).
    rewrite He2, Hq2, Hl2, Ho2, Hm2, Ht2, He, Hq', Hl, Ho, Ht'.
    by rewrite fmap_app.
Qed.

(** ...and go out together when that timer fires. *)
Lemma raise_then_fire (evs : list (Z * value)) (w : world) (fire : Z) :
  timers_wf w →
  eventQueue w = [] → eventDispatchTimer w = None → evs ≠ [] →
  (∀ t c, (t, c) ∈ evs →
     t - lastEventDispatch w < eventDispatchDelay (opts w)) →
  lastEventDispatch w + eventDispatchDelay (opts w) ≤ fire →
  emitted (raise evs w) = emitted w
  ∧ eventQueue (raise evs w) = evs.*2
  ∧ ∃ w', fireTimer fire (nextTimer w) (raise evs w) = Some w'
          ∧ emitted w' = emitted w ++ [eventsMessage (opts w) evs.*2]
          ∧ eventQueue w' = [] ∧ eventDispatchTimer w' = None
          ∧ lastEventDispatch w' = fire.
Proof.
  intros Hwf Hq Hm Hne Hwin Hfire.
  destruct (raise_queues evs w Hq Hm Hne Hwin) as (He & Hq' & Hl & Ho & Hm' & Ht).
  split_and!; [done..|].
  eexists. split.
  - eapply fireTimer_events; [|exact Hfire]. rewrite Ht.
    apply list_find_fresh. by destruct Hwf as (_ & Hlt & _).
  - set (w1 := set_eventDispatchTimer None (clearTimeout (nextTimer w) (raise evs w))).
    assert (eventQueue w1 = evs.*2 ∧ emitted w1 = emitted w ∧ opts w1 = opts w)
      as (Hq1 & He1 & Ho1).
    { subst w1. rewrite <- Hq', <- He, <- Ho. by destruct (raise evs w). }
    destruct (dispatchEventQueue_flush fire w1) as (-> & -> & -> & _ & _ & Hm1 & _).
    { rewrite Hq1. destruct evs; [done|]. done. }
    rewrite Hm1, He1, Ho1, Hq1. by split_and!.
Qed.

(** *** First in, first out *)

Lemma sentEvents_state (w w' : world) (m : message) :
  emitted w' = emitted w ++ [m] → m_events m = None →
  sentEvents w' = sentEvents w.
Proof.
  unfold sentEvents. intros -> Hm. rewrite omap_app. simpl. rewrite Hm.
  simpl. by rewrite app_nil_r.
Qed.

Lemma sentEvents_batch (w w' : world) (o : options) (q : list value) :
  emitted w' = emitted w ++ [eventsMessage o q] →
  sentEvents w' = sentEvents w ++ q.
Proof.
  unfold sentEvents. intros ->. rewrite omap_app, concat_app. simpl.
  by rewrite app_nil_r.
Qed.

Lemma sentEvents_same (w w' : world) :
  emitted w' = emitted w → sentEvents w' = sentEvents w.
Proof. unfold sentEvents. by intros ->. Qed.

Lemma dispatchEventQueue_fifo (now : Z) (w : world) :
  sentEvents (dispatchEventQueue now w) ++ eventQueue (dispatchEventQueue now w)
  = sentEvents w ++ eventQueue w.
Proof.
  destruct (eventQueue w) as [|e q] eqn:E.
  - by rewrite dispatchEventQueue_empty, E.
  - destruct (dispatchEventQueue_flush now w) as (He & Hq & _); [by rewrite E|].
    rewrite Hq, app_nil_r, (sentEvents_batch _ _ _ _ He). by rewrite E.
Qed.

Lemma handleCustomEvent_fifo (now : Z) (c : value) (w : world) :
  let w' := handleCustomEvent now c w in
  sentEvents w' ++ eventQueue w' = (sentEvents w ++ eventQueue w) ++ [c].
Proof.
  cbv zeta.
  destruct (Z.le_gt_cases (eventDispatchDelay (opts w)) (now - lastEventDispatch w))
    as [Hge | Hlt].
  - destruct (handleCustomEvent_flush now c w Hge) as (He & Hq & _).
    rewrite Hq, app_nil_r, (sentEvents_batch _ _ _ _ He). by rewrite app_assoc.
  - destruct (handleCustomEvent_queue now c w Hlt) as (He & Hq & _).
    rewrite Hq, (sentEvents_same _ _ He). by rewrite app_assoc.
Qed.

Lemma handleStateChange_fifo (now : Z) (w : world) :
  let w' := handleStateChange now w in
  sentEvents w' ++ eventQueue w' = sentEvents w ++ eventQueue w.
Proof.
  cbv zeta. pose proof (handleStateChange_frame now w) as Hf. simpl in Hf.
  destruct Hf as (_ & _ & _ & _ & _ & _ & _ & _ & -> & _).
  f_equal.
  destruct (handleStateChange_cases now w)
    as [-> | [(_ & _ & He & _) | (_ & _ & _ & He & _)]]; [done| |].
  - by apply (sentEvents_state _ _ _ He).
  - by apply sentEvents_same.
Qed.

Lemma fireTimer_fifo (now : Z) (id : positive) (w w' : world) :
  fireTimer now id w = Some w' →
  sentEvents w' ++ eventQueue w' = sentEvents w ++ eventQueue w.
Proof.
  unfold fireTimer. destruct (list_find _ _) as [[i tm]|]; [|done].
  destruct (_ <=? _); [|done]. intros [= <-].
  destruct (t_cb tm); simpl.
  - f_equal.
    by apply sentEvents_state with (m := stateMessage (opts w) state).
  - rewrite dispatchEventQueue_fifo. by destruct w.
Qed.

Lemma step_fifo (t : Z) (e : event) (w w' : world) :
  step t e w = Some w' → masterWired w = true →
  masterWired w' = true
  ∧ sentEvents w' ++ eventQueue w' = (sentEvents w ++ eventQueue w) ++ raisedBy e.
Proof.
  unfold step. destruct (_ <? _); [done|]. intros Hstep Hm.
  assert (masterWired (set_clock t w) = true
          ∧ sentEvents (set_clock t w) ++ eventQueue (set_clock t w)
            = sentEvents w ++ eventQueue w) as [Hm1 <-] by by destruct w.
  revert Hstep Hm1. generalize (set_clock t w). clear w Hm. intros w Hstep Hm.
  destruct e; simpl; rewrite ?app_nil_r.
  - destruct (_ && _); [|done]. injection Hstep as <-. by destruct w.
  - destruct (socket w); [|done]. injection Hstep as <-. unfold onConnect.
    destruct (setupFinished w); [done|].
    destruct (truthy (secret (opts w)));
      destruct (truthy (socketId (opts _))); by destruct w.
  - injection Hstep as <-. by destruct w.
  - rewrite Hm in Hstep. injection Hstep as <-.
    pose proof (handleStateChange_frame t w) as Hf. simpl in Hf.
    destruct Hf as (_ & _ & _ & _ & -> & _). split; [done|].
    apply handleStateChange_fifo.
  - rewrite Hm in Hstep. injection Hstep as <-.
    pose proof (handleCustomEvent_frame t content w) as Hf. simpl in Hf.
    destruct Hf as (_ & _ & _ & _ & -> & _). split; [done|].
    apply handleCustomEvent_fifo.
  - injection Hstep as <-. destruct (clientWired w); [|done].
    pose proof (handleReceivedMessage_frame t data w) as Hf. simpl in Hf.
    destruct Hf as (_ & _ & -> & _ & _ & _ & _ & _ & -> & _ & _ & _ & _ & He & _).
    by rewrite (sentEvents_same _ _ He).
  - pose proof (fireTimer_frame _ _ _ _ Hstep) as Hf.
    destruct Hf as (_ & _ & _ & _ & -> & _). split; [done|].
    by apply (fireTimer_fifo t id).
Qed.

Lemma run_fifo (tr : list (Z * event)) (w w' : world) :
  run tr w = Some w' → masterWired w = true →
  sentEvents w' ++ eventQueue w'
  = (sentEvents w ++ eventQueue w) ++ concat (raisedBy <$> tr.*2).
Proof.
  revert w. induction tr as [|[t e] tr IH]; intros w; simpl.
  - intros [= <-] _. by rewrite app_nil_r.
  - destruct (step t e w) as [w1|] eqn:Hstep; [|done]. intros Hrun Hm.
    destruct (step_fifo t e w w1 Hstep Hm) as [Hm1 Hf].
    rewrite (IH w1 Hrun Hm1), Hf. by rewrite <- !app_assoc.
Qed.

(** *** Timers on time *)

(** The table after [handleStateChange] armed the debounce timer. *)
Lemma handleStateChange_arms_table (now : Z) (w : world) :
  sameAsShared (getState w) w = false →
  remoteStateChangeBlackout (opts w) ≤ now - lastRemoteStateChange w →
  now - lastStateChange w < stateDispatchDelay (opts w) →
  let w' := handleStateChange now w in
  stateDispatchTimer w' = Some (nextTimer w)
  ∧ nextTimer w' = Pos.succ (nextTimer w)
  ∧ timers w'
    = match stateDispatchTimer w with
      | Some old => filter (λ tm, t_id tm ≠ old) (timers w)
      | None => timers w
      end ++ [Timer (nextTimer w) (now + Z.max 0 (stateDispatchDelay (opts w)))
                (CbDispatchState (getState w))].
Proof.
  intros Hsame Hblack Hint. cbv zeta. unfold handleStateChange.
  rewrite Hsame, (proj2 (Z.ltb_ge _ _) Hblack), (proj2 (Z.leb_gt _ _) Hint).
  by destruct (stateDispatchTimer w).
Qed.

Lemma queue_ok_handleStateChange (T now : Z) (w : world) :
  queue_ok T w → queue_ok T (handleStateChange now w).
Proof.
  intros (Hwf & Hs & He & Hne & Hq & Htm & Hl).
  pose proof (handleStateChange_frame now w) as Hf. simpl in Hf.
  destruct Hf as (Ho & _ & Hc & _ & _ & _ & _ & _ & Hq' & Hl' & Hm' & _).
  unfold queue_ok. rewrite Ho, Hc, Hq', Hl', Hm'.
  split; [by apply timers_wf_handleStateChange|].
  destruct (handleStateChange_cases now w)
    as [-> | [(_ & _ & _ & _ & Ht & Hn & Hm & _) | (Hsame & Hb & Hd & _)]].
  - done.
  - by rewrite Ht, Hn, Hm.
  - destruct (handleStateChange_arms_table now w Hsame Hb Hd) as (-> & -> & ->).
    split_and!; try done.
    + intros id [= <-]. lia.
    + intros id Hid. specialize (He id Hid). lia.
    + intros a b [= <-] Hb' Heq. specialize (He _ Hb'). lia.
    + intros id Hid. destruct (Htm id Hid) as (tm & Hin & Htid & Hcb & Hdue).
      exists tm. split_and!; try done. apply elem_of_app. left.
      destruct (stateDispatchTimer w) as [old|] eqn:E; [|done].
      apply list_elem_of_filter. split; [|done].
      rewrite Htid. intros ->. by apply (Hne old old).
Qed.

Lemma queue_ok_ext (T : Z) (w w' : world) :
  timers w' = timers w → nextTimer w' = nextTimer w →
  stateDispatchTimer w' = stateDispatchTimer w →
  eventDispatchTimer w' = eventDispatchTimer w →
  eventQueue w' = eventQueue w → opts w' = opts w →
  lastEventDispatch w' = lastEventDispatch w → clock w ≤ clock w' →
  queue_ok T w → queue_ok T w'.
Proof.
  intros Ht Hn Hs He Hq Ho Hl Hc (Hwf & H1 & H2 & H3 & H4 & H5 & H6).
  unfold queue_ok. rewrite Ht, Hn, Hs, He, Hq, Ho, Hl.
  split_and!; try done; [|lia].
  by apply (timers_wf_ext w w').
Qed.

Lemma queue_ok_handleCustomEvent (T now : Z) (c : value) (w : world) :
  queue_ok T w → clock w = now → now ≤ T →
  queue_ok T (handleCustomEvent now c w).
Proof.
  intros (Hwf & Hs & He & Hne & Hq & Htm & Hl) Hclock HT.
  pose proof (handleCustomEvent_frame now c w) as Hf. simpl in Hf.
  destruct Hf as (_ & _ & Hc & _ & _ & _ & _ & _ & _ & _ & Hm' & _).
  unfold queue_ok. rewrite Hc, Hm'.
  split; [by apply timers_wf_handleCustomEvent|].
  destruct (Z.le_gt_cases (eventDispatchDelay (opts w)) (now - lastEventDispatch w))
    as [Hge | Hlt].
  - destruct (handleCustomEvent_flush now c w Hge)
      as (_ & -> & -> & -> & -> & -> & ->).
    split_and!; try done. lia.
  - destruct (handleCustomEvent_queue now c w Hlt) as (_ & -> & -> & -> & Hcase).
    destruct (eventDispatchTimer w) as [id|] eqn:E.
    + destruct Hcase as (-> & -> & ->). split_and!; try done.
    + destruct Hcase as (-> & -> & ->). split_and!; try done.
      * intros id Hid. specialize (Hs id Hid). lia.
      * intros id [= <-]. lia.
      * intros a b Ha [= <-] Heq. specialize (Hs a Ha). lia.
      * intros id [= <-]. eexists. split_and!.
        -- apply elem_of_app. right. by apply list_elem_of_singleton.
        -- done.
        -- done.
        -- simpl. lia.
Qed.

Lemma queue_ok_handleReceivedMessage (T now : Z) (data : message) (w : world) :
  queue_ok T w → queue_ok T (handleReceivedMessage now data w).
Proof.
  pose proof (handleReceivedMessage_frame now data w) as Hf. simpl in Hf.
  destruct Hf as (Ho & Hc & _ & _ & _ & _ & _ & Hs & Hq & Hl & He & Ht & Hn & _).
  apply queue_ok_ext; try done. lia.
Qed.

Lemma queue_ok_fireTimer (T now : Z) (id : positive) (w w' : world) :
  queue_ok T w → clock w = now → fireTimer now id w = Some w' → queue_ok T w'.
Proof.
  intros Hok Hclock Hfire.
  pose proof Hok as (Hwf & Hs & He & Hne & Hq & Htm & Hl).
  pose proof (timers_wf_fireTimer _ _ _ _ Hwf Hfire) as Hwf'.
  revert Hfire. unfold fireTimer.
  destruct (list_find _ _) as [[i tm]|] eqn:Hfind; [|done].
  destruct (_ <=? _); [|done]. intros [= <-].
  apply list_find_Some in Hfind as (Hin%list_elem_of_lookup_2 & Hid & _).
  destruct Hwf as (_ & _ & Hst & Hev).
  destruct (t_cb tm) as [s|] eqn:Hcb; simpl in *.
  - assert (stateDispatchTimer w = Some id) as Hmark.
    { rewrite <- Hid. apply Hst; [done|]. unfold isStateTimer. by rewrite Hcb. }
    split; [done|]. split_and!; try done.
    intros b Hb. destruct (Htm b Hb) as (tm' & Hin' & Hid' & Hcb' & Hdue').
    exists tm'. split_and!; try done.
    apply list_elem_of_filter. split; [|done].
    rewrite Hid'. intros ->. by apply (Hne id id).
  - split; [done|].
    set (w1 := set_eventDispatchTimer None (clearTimeout id w)) in *.
    assert (eventDispatchTimer (dispatchEventQueue now w1) = None
            ∧ eventQueue (dispatchEventQueue now w1) = []
            ∧ stateDispatchTimer (dispatchEventQueue now w1) = stateDispatchTimer w
            ∧ nextTimer (dispatchEventQueue now w1) = nextTimer w
            ∧ clock (dispatchEventQueue now w1) = clock w
            ∧ (lastEventDispatch (dispatchEventQueue now w1) = lastEventDispatch w
               ∨ lastEventDispatch (dispatchEventQueue now w1) = now))
      as (-> & -> & -> & -> & -> & Hlast).
    { unfold dispatchEventQueue. destruct (eventQueue w1) eqn:E; simpl.
      - split_and!; try done. by left.
      - split_and!; try done. by right. }
    split_and!; try done. destruct Hlast as [-> | ->]; lia.
Qed.

Lemma queue_ok_onConnect (T : Z) (w : world) :
  queue_ok T w → queue_ok T (onConnect w).
Proof.
  unfold onConnect. destruct (setupFinished w); [done|].
  destruct (truthy (secret (opts w)));
    destruct (truthy (socketId (opts _))); by apply queue_ok_ext.
Qed.

Lemma queue_ok_step (T t : Z) (e : event) (w w' : world) :
  queue_ok T w → step t e w = Some w' →
  (∀ content, e = Send content → t ≤ T) →
  queue_ok T w'.
Proof.
  intros Hok Hstep HT. revert Hstep. unfold step.
  destruct (Z.ltb_spec t (clock w)) as [|Hle]; [done|].
  assert (queue_ok T (set_clock t w) ∧ clock (set_clock t w) = t) as [Hok1 Hc1].
  { split; [|done]. by apply (queue_ok_ext T w). }
  revert Hok1 Hc1. generalize (set_clock t w). clear w Hok Hle.
  intros w Hok Hclock. destruct e.
  - destruct (_ && _); [|done]. intros [= <-]. by apply (queue_ok_ext T w).
  - destruct (socket w); [|done]. intros [= <-]. by apply queue_ok_onConnect.
  - intros [= <-]. by apply (queue_ok_ext T w).
  - intros [= <-]. destruct (masterWired w); [|done].
    by apply queue_ok_handleStateChange.
  - intros [= <-]. destruct (masterWired w); [|done].
    apply queue_ok_handleCustomEvent; [done..|]. by apply (HT content).
  - intros [= <-]. destruct (clientWired w); [|done].
    by apply queue_ok_handleReceivedMessage.
  - by apply queue_ok_fireTimer.
Qed.

Lemma queue_ok_run (T : Z) (tr : list (Z * event)) (w w' : world) :
  queue_ok T w → run tr w = Some w' → raisedBefore T tr → queue_ok T w'.
Proof.
  revert w. induction tr as [|[t e] tr IH]; intros w Hok; simpl.
  - by intros [= <-].
  - destruct (step t e w) as [w1|] eqn:Hstep; [|done]. intros Hrun Hbefore.
    apply (IH w1); [|done|].
    + apply (queue_ok_step T t e w w1 Hok Hstep).
      intros content ->. apply (Hbefore t content). by left.
    + intros t' c' Hin. apply (Hbefore t' c'). by right.
Qed.

Lemma queue_ok_init (T : Z) (cfg : option config) (t0 : Z) (s0 : StateRecord) :
  0 ≤ t0 → queue_ok T (init cfg (create t0 s0)).
Proof.
  intros Ht0. split; [apply timers_wf_init|].
  unfold init. destruct cfg as [c|]; simpl.
  - destruct (strict_eq (default VUndefined (c_socketId c)) VUndefined);
      simpl; split_and!; try done.
  - split_and!; try done.
Qed.

(** With no timer overdue, nothing raised more than [eventDispatchDelay]
    ago is still waiting in the queue. *)
Lemma queue_empty_on_time (T t : Z) (w : world) :
  queue_ok T w → onTime t w → T + eventDispatchDelay (opts w) < t →
  eventQueue w = [].
Proof.
  intros (_ & _ & _ & _ & Hq & Htm & _) Hon Hlate.
  destruct (eventQueue w) as [|e q] eqn:E; [done|]. exfalso.
  destruct (eventDispatchTimer w) as [id|] eqn:Em; [|by apply Hq].
  destruct (Htm id eq_refl) as (tm & Hin & _ & _ & Hdue).
  specialize (Hon tm Hin). lia.
Qed.

(** C7, as stated, fails: three events raised 10 ms apart after a quiet
    period go out in two batches, the first alone at once and the other
    two when the flush timer fires. *)
Lemma burst_after_quiet_is_split :
  1000022 - 1000002 < eventDispatchDelay (opts connectedWorld)
  ∧ emitted <$> run threeEvents connectedWorld
    = Some [eventsMessage (opts connectedWorld) [VStr "e1"];
            eventsMessage (opts connectedWorld) [VStr "e2"; VStr "e3"]].
Proof. split; vm_compute; reflexivity. Qed.

(** C7 (amended): (a) events raised while less than [eventDispatchDelay]
    has elapsed since the last flush wait in the queue and go out in one
    batch, in the order raised, when the flush timer fires; (b) an event
    raised when [eventDispatchDelay] has elapsed since the last flush goes
    out at once, with whatever was queued, so the first event of a burst
    after a quiet period is sent alone; (c) when no timer is overdue, an
    event raised more than [eventDispatchDelay] after all the earlier ones
    finds the queue empty and shares its batch with none of them; (d) the
    batches sent followed by the queue are the events raised, in order;
    (e) flushing an empty queue changes nothing. *)
Theorem events_batched_in_order :
  (∀ evs w fire,
     timers_wf w → eventQueue w = [] → eventDispatchTimer w = None →
     evs ≠ [] →
     (∀ t c, (t, c) ∈ evs →
        t - lastEventDispatch w < eventDispatchDelay (opts w)) →
     lastEventDispatch w + eventDispatchDelay (opts w) ≤ fire →
     emitted (raise evs w) = emitted w
     ∧ eventQueue (raise evs w) = evs.*2
     ∧ ∃ w', fireTimer fire (nextTimer w) (raise evs w) = Some w'
             ∧ emitted w' = emitted w ++ [eventsMessage (opts w) evs.*2]
             ∧ eventQueue w' = [] ∧ eventDispatchTimer w' = None
             ∧ lastEventDispatch w' = fire)
  ∧ (∀ now c w,
       eventDispatchDelay (opts w) ≤ now - lastEventDispatch w →
       emitted (handleCustomEvent now c w)
         = emitted w ++ [eventsMessage (opts w) (eventQueue w ++ [c])]
       ∧ eventQueue (handleCustomEvent now c w) = []
       ∧ lastEventDispatch (handleCustomEvent now c w) = now)
  ∧ (∀ cfg t0 s0 tr w T t,
       0 ≤ t0 → session cfg t0 s0 tr = Some w →
       raisedBefore T tr → T + eventDispatchDelay (opts w) < t →
       onTime t w →
       eventQueue w = []
       ∧ ∀ c, (emitted (handleCustomEvent t c w) = emitted w
               ∧ eventQueue (handleCustomEvent t c w) = [c])
              ∨ (emitted (handleCustomEvent t c w)
                   = emitted w ++ [eventsMessage (opts w) [c]]
                 ∧ eventQueue (handleCustomEvent t c w) = []))
  ∧ (∀ tr w w',
       run tr w = Some w' → masterWired w = true →
       sentEvents w' ++ eventQueue w'
       = (sentEvents w ++ eventQueue w) ++ concat (raisedBy <$> tr.*2))
  ∧ (∀ now w, eventQueue w = [] → dispatchEventQueue now w = w).
Proof.
  split_and!.
  - intros evs w fire. apply raise_then_fire.
  - intros now c w Hge.
    destruct (handleCustomEvent_flush now c w Hge) as (He & Hq & Hl & _).
    done.
  - intros cfg t0 s0 tr w T t Ht0 Hrun Hbefore Hlate Hon.
    assert (eventQueue w = []) as Hq.
    { apply (queue_empty_on_time T t); [|done..].
      eapply queue_ok_run; [by apply queue_ok_init|exact Hrun|done]. }
    split; [done|]. intros c.
    destruct (Z.le_gt_cases (eventDispatchDelay (opts w))
                (t - lastEventDispatch w)) as [Hge | Hlt].
    + right. destruct (handleCustomEvent_flush t c w Hge) as (He & Hq' & _).
      by rewrite He, Hq', Hq.
    + left. destruct (handleCustomEvent_queue t c w Hlt) as (He & Hq' & _).
      by rewrite He, Hq', Hq.
  - apply run_fifo.
  - intros now w. apply dispatchEventQueue_empty.
Qed.

Lemma events_batched_in_order_witness :
  eventQueue justFlushed = [] ∧ eventDispatchTimer justFlushed = None
  ∧ lastEventDispatch justFlushed = 1000002
  ∧ eventQueue (raise threeQueued justFlushed)
    = [VStr "e1"; VStr "e2"; VStr "e3"]
  ∧ ∃ w', fireTimer 1000102 (nextTimer justFlushed)
            (raise threeQueued justFlushed) = Some w'
          ∧ emitted w'
            = emitted justFlushed
                ++ [eventsMessage (opts justFlushed)
                      [VStr "e1"; VStr "e2"; VStr "e3"]].
Proof.
  destruct events_batched_in_order as (Hbatch & _).
  assert (timers_wf justFlushed) as Hwf
    by (apply timers_wf_no_timers; vm_compute; reflexivity).
  assert (eventQueue justFlushed = []) as Hq by (vm_compute; reflexivity).
  assert (eventDispatchTimer justFlushed = None) as Hm
    by (vm_compute; reflexivity).
  assert (threeQueued ≠ []) as Hne by discriminate.
  assert (∀ t c, (t, c) ∈ threeQueued →
            t - lastEventDispatch justFlushed
            < eventDispatchDelay (opts justFlushed)) as Hwin.
  { intros t c Hin. unfold threeQueued in Hin.
    repeat (apply elem_of_cons in Hin as [[= -> ->]|Hin];
            [vm_compute; reflexivity|]).
    by apply elem_of_nil in Hin. }
  assert (lastEventDispatch justFlushed
          + eventDispatchDelay (opts justFlushed) ≤ 1000102) as Hfire
    by (vm_compute; discriminate).
  destruct (Hbatch threeQueued justFlushed 1000102 Hwf Hq Hm Hne Hwin Hfire)
    as (_ & Hq' & w' & Hf & He & _).
  split_and!; [exact Hq | exact Hm | vm_compute; reflexivity | exact Hq' |].
  exists w'. split; [exact Hf | exact He].
Defined.

(** ** Repeated notifications and the trailing timer *)


Lemma statePublishes_state (w w' : world) (o : options) (s : StateRecord) :
  emitted w' = emitted w ++ [stateMessage o s] →
  statePublishes w' = statePublishes w ++ [s].
Proof. unfold statePublishes. intros ->. by rewrite omap_app. Qed.

Lemma statePublishes_events (w w' : world) (o : options) (q : list value) :
  emitted w' = emitted w ++ [eventsMessage o q] →
  statePublishes w' = statePublishes w.
Proof.
  unfold statePublishes. intros ->. rewrite omap_app. simpl.
  by rewrite app_nil_r.
Qed.

Lemma statePublishes_same (w w' : world) :
  emitted w' = emitted w → statePublishes w' = statePublishes w.
Proof. unfold statePublishes. by intros ->. Qed.











(** * Further properties *)

(** ** The session of [part_000] *)

(** *** What is sent *)

(** What one turn of the loop adds to the log of the socket. *)
Lemma fireTimer_emits (now : Z) (id : positive) (w w' : world) :
  fireTimer now id w = Some w' →
  (emitted w' = emitted w ∧ lastSharedState w' = lastSharedState w)
  ∨ (∃ s, emitted w' = emitted w ++ [stateMessage (opts w) s]
          ∧ lastSharedState w' = Some s)
  ∨ (∃ q, q ≠ [] ∧ emitted w' = emitted w ++ [eventsMessage (opts w) q]
          ∧ lastSharedState w' = lastSharedState w).
Proof.
  unfold fireTimer. destruct (list_find _ _) as [[i tm]|]; [|done].
  destruct (_ <=? _); [|done]. intros [= <-].
  destruct (t_cb tm) as [s|]; simpl.
  - right. left. by exists s.
  - set (w1 := set_eventDispatchTimer None (clearTimeout id w)).
    destruct (eventQueue w1) as [|e q] eqn:E.
    + left. by rewrite dispatchEventQueue_empty.
    + right. right. exists (e :: q). split; [done|].
      destruct (dispatchEventQueue_flush now w1) as (He & _); [by rewrite E|].
      rewrite He, E. split; [done|].
      unfold dispatchEventQueue. by rewrite E.
Qed.

Lemma step_emits (t : Z) (e : event) (w w' : world) :
  step t e w = Some w' →
  (emitted w' = emitted w ∧ applied w' = applied w
   ∧ lastSharedState w' = lastSharedState w)
  ∨ (∃ s, emitted w' = emitted w ++ [stateMessage (opts w) s]
          ∧ applied w' = applied w ∧ lastSharedState w' = Some s)
  ∨ (∃ q, q ≠ [] ∧ emitted w' = emitted w ++ [eventsMessage (opts w) q]
          ∧ applied w' = applied w ∧ lastSharedState w' = lastSharedState w)
  ∨ (∃ s, emitted w' = emitted w ∧ applied w' = applied w ++ [s]
          ∧ lastSharedState w' = Some s).
Proof.
  unfold step. destruct (_ <? _); [done|].
  replace (emitted w) with (emitted (set_clock t w)) by by destruct w.
  replace (applied w) with (applied (set_clock t w)) by by destruct w.
  replace (lastSharedState w) with (lastSharedState (set_clock t w)) by by destruct w.
  replace (opts w) with (opts (set_clock t w)) by by destruct w.
  generalize (set_clock t w). clear w. intros w. destruct e.
  - destruct (_ && _); [|done]. intros [= <-]. by left.
  - destruct (socket w); [|done]. intros [= <-]. left. unfold onConnect.
    destruct (setupFinished w); [done|].
    destruct (truthy (secret (opts w)));
      destruct (truthy (socketId (opts _))); by destruct w.
  - intros [= <-]. by left.
  - intros [= <-]. destruct (masterWired w); [|by left].
    pose proof (handleStateChange_frame t w) as Hf. simpl in Hf.
    destruct Hf as (_ & _ & _ & _ & _ & _ & _ & _ & _ & _ & _ & Ha & _).
    destruct (handleStateChange_cases t w)
      as [-> | [(_ & _ & He & Hs & _) | (_ & _ & _ & He & Hs & _)]].
    + by left.
    + right. left. eexists. by rewrite He, Hs, Ha.
    + left. by rewrite He, Hs, Ha.
  - intros [= <-]. destruct (masterWired w); [|by left].
    pose proof (handleCustomEvent_frame t content w) as Hf. simpl in Hf.
    destruct Hf as (_ & _ & _ & _ & _ & _ & _ & _ & _ & Hs & _ & Ha & _).
    destruct (Z.le_gt_cases (eventDispatchDelay (opts w))
                (t - lastEventDispatch w)) as [Hge | Hlt].
    + destruct (handleCustomEvent_flush t content w Hge) as (He & _).
      right. right. left. exists (eventQueue w ++ [content]).
      rewrite He, Hs, Ha. split_and!; [|done..]. by destruct (eventQueue w).
    + destruct (handleCustomEvent_queue t content w Hlt) as (He & _).
      left. by rewrite He, Hs, Ha.
  - intros [= <-]. destruct (clientWired w); [|by left].
    pose proof (handleReceivedMessage_frame t data w) as Hf. simpl in Hf.
    destruct Hf as (_ & _ & _ & _ & _ & _ & _ & _ & _ & _ & _ & _ & _ & He & _).
    rewrite He. unfold handleReceivedMessage.
    destruct (strict_ne _ _); [by left|].
    destruct (m_state data) as [s|]; destruct (m_events data);
      rewrite ?dispatchReceived_all; [right; right; right; by exists s|
        right; right; right; by exists s | by left | by left].
  - intros Hfire. pose proof (fireTimer_frame _ _ _ _ Hfire) as Hf.
    destruct Hf as (_ & _ & _ & _ & _ & _ & _ & _ & _ & Ha & _).
    rewrite Ha. destruct (fireTimer_emits _ _ _ _ Hfire)
      as [[He Hs] | [(s & He & Hs) | (q & Hq & He & Hs)]].
    + by left.
    + right. left. by exists s.
    + right. right. left. by exists q.
Qed.

(** The instance after [init]: nothing has happened yet. *)
Lemma init_fresh (cfg : option config) (t0 : Z) (s0 : StateRecord) :
  let w := init cfg (create t0 s0) in
  emitted w = [] ∧ applied w = [] ∧ received w = [] ∧ lastSharedState w = None
  ∧ timers w = [] ∧ eventQueue w = [] ∧ stateDispatchTimer w = None
  ∧ eventDispatchTimer w = None ∧ masterWired w = false ∧ clientWired w = false
  ∧ socket w = false ∧ setupFinished w = false ∧ deck w = s0.
Proof. unfold init. case_match; by destruct cfg. Qed.

(** The options are fixed once [init] has returned. *)
Lemma run_opts (tr : list (Z * event)) (w w' : world) :
  run tr w = Some w' → opts w' = opts w.
Proof.
  revert w. induction tr as [|[t e] tr IH]; intros w; simpl.
  - by intros [= <-].
  - destruct (step t e w) as [w1|] eqn:Hstep; [|done]. intros Hrun.
    rewrite (IH w1 Hrun). by apply step_frame in Hstep as (? & _).
Qed.

Lemma run_own_messages (tr : list (Z * event)) (w w' : world) :
  run tr w = Some w' →
  Forall (ownMessage (opts w)) (emitted w) →
  Forall (ownMessage (opts w)) (emitted w').
Proof.
  revert w. induction tr as [|[t e] tr IH]; intros w; simpl.
  - by intros [= <-].
  - destruct (step t e w) as [w1|] eqn:Hstep; [|done]. intros Hrun Hall.
    pose proof (step_frame _ _ _ _ Hstep) as (Ho & _). rewrite <- Ho.
    apply (IH w1 Hrun). rewrite Ho.
    destruct (step_emits _ _ _ _ Hstep)
      as [(-> & _) | [(s & -> & _) | [(q & Hq & -> & _) | (s & -> & _)]]];
      [done| | |done].
    + apply Forall_app. split; [done|]. apply Forall_singleton. left. by exists s.
    + apply Forall_app. split; [done|]. apply Forall_singleton. right. by exists q.
Qed.

(** X1: every message a session of [part_000] sends carries the instance's
    own [secret] and [socketId] and either a state and no events, or a
    non-empty batch of events and no state. *)
Theorem emitted_messages_are_own
    (cfg : option config) (t0 : Z) (s0 : StateRecord)
    (tr : list (Z * event)) (w : world) :
  session cfg t0 s0 tr = Some w →
  ∀ m, m ∈ emitted w →
    m_secret m = secret (opts w) ∧ m_socketId m = socketId (opts w)
    ∧ ((∃ s, m_state m = Some s ∧ m_events m = None)
       ∨ (∃ q, q ≠ [] ∧ m_state m = None ∧ m_events m = Some q)).
Proof.
  intros Hrun m Hm. unfold session in Hrun.
  pose proof (run_opts _ _ _ Hrun) as Ho.
  assert (Forall (ownMessage (opts (init cfg (create t0 s0))))
            (emitted (init cfg (create t0 s0)))) as Hinit.
  { by destruct (init_fresh cfg t0 s0) as (-> & _). }
  pose proof (run_own_messages _ _ _ Hrun Hinit) as Hall.
  rewrite <- Ho in Hall. rewrite Forall_forall in Hall.
  destruct (Hall m Hm) as [[s ->] | (q & Hq & ->)]; simpl.
  - split_and!; [done..|]. left. by exists s.
  - split_and!; [done..|]. right. by exists q.
Qed.

Lemma emitted_messages_are_own_witness :
  session (Some mainConfig) 1000000 (slide 0) busyTrace = Some busyWorld
  ∧ emitted busyWorld ≠ []
  ∧ ∀ m, m ∈ emitted busyWorld →
      m_secret m = secret (opts busyWorld)
      ∧ m_socketId m = socketId (opts busyWorld)
      ∧ ((∃ s, m_state m = Some s ∧ m_events m = None)
         ∨ (∃ q, q ≠ [] ∧ m_state m = None ∧ m_events m = Some q)).
Proof.
  assert (session (Some mainConfig) 1000000 (slide 0) busyTrace
          = Some busyWorld) as Hrun by (vm_compute; reflexivity).
  split_and!; [exact Hrun | vm_compute; discriminate |].
  exact (emitted_messages_are_own _ _ _ _ _ Hrun).
Defined.

(** *** Where [lastSharedState] comes from *)

Lemma sharedIsLast_step (t : Z) (e : event) (w w' : world) :
  step t e w = Some w' → sharedIsLast w → sharedIsLast w'.
Proof.
  intros Hstep. unfold sharedIsLast.
  destruct (step_emits _ _ _ _ Hstep)
    as [(He & -> & ->) | [(s & He & -> & ->) | [(q & Hq & He & -> & ->)
       | (s & He & -> & ->)]]].
  - by rewrite (statePublishes_same _ _ He).
  - intros _. left. rewrite (statePublishes_state _ _ _ _ He). apply last_snoc.
  - by rewrite (statePublishes_events _ _ _ _ He).
  - intros _. right. apply last_snoc.
Qed.

(** X2: in a session of [part_000], [lastSharedState] is unset exactly as
    long as nothing was published and nothing applied; once set, it is the
    last state published or the last state applied. *)
Theorem lastSharedState_is_last_published_or_applied
    (cfg : option config) (t0 : Z) (s0 : StateRecord)
    (tr : list (Z * event)) (w : world) :
  session cfg t0 s0 tr = Some w →
  match lastSharedState w with
  | None => statePublishes w = [] ∧ applied w = []
  | Some s => last (statePublishes w) = Some s ∨ last (applied w) = Some s
  end.
Proof.
  unfold session.
  assert (sharedIsLast (init cfg (create t0 s0))) as Hinit.
  { unfold sharedIsLast, statePublishes.
    by destruct (init_fresh cfg t0 s0) as (-> & -> & _ & -> & _). }
  revert Hinit. generalize (init cfg (create t0 s0)).
  induction tr as [|[t e] tr IH]; intros w0 Hinv; simpl.
  - by intros [= <-].
  - destruct (step t e w0) as [w1|] eqn:Hstep; [|done].
    apply IH. by apply (sharedIsLast_step t e w0).
Qed.

Lemma lastSharedState_is_last_published_or_applied_witness :
  session (Some mainConfig) 1000000 (slide 0) busyTrace = Some busyWorld
  ∧ lastSharedState busyWorld = Some (slide 0)
  ∧ match lastSharedState busyWorld with
    | None => statePublishes busyWorld = [] ∧ applied busyWorld = []
    | Some s => last (statePublishes busyWorld) = Some s
                ∨ last (applied busyWorld) = Some s
    end.
Proof.
  assert (session (Some mainConfig) 1000000 (slide 0) busyTrace
          = Some busyWorld) as Hrun by (vm_compute; reflexivity).
  split_and!; [exact Hrun | vm_compute; reflexivity |].
  exact (lastSharedState_is_last_published_or_applied _ _ _ _ _ Hrun).
Defined.

(** *** What is applied *)

(** What [handleReceivedMessage] hands to the engine and to the document. *)
Lemma handleReceivedMessage_log (now : Z) (data : message) (w : world) :
  let w' := handleReceivedMessage now data w in
  applied w' = applied w ++ option_list (accepted (opts w) (Incoming data) ≫= m_state)
  ∧ received w' = received w
                  ++ default [] (accepted (opts w) (Incoming data) ≫= m_events).
Proof.
  cbv zeta. unfold handleReceivedMessage, accepted.
  destruct (strict_ne _ _); simpl; [by rewrite !app_nil_r|].
  destruct (m_state data) as [s|]; destruct (m_events data) as [q|]; simpl;
    rewrite ?dispatchReceived_all, ?app_nil_r; by destruct w.
Qed.

Lemma step_log (t : Z) (e : event) (w w' : world) :
  step t e w = Some w' →
  (clientWired w = true → clientWired w' = true)
  ∧ applied w' = applied w
      ++ (if clientWired w then option_list (accepted (opts w) e ≫= m_state) else [])
  ∧ received w' = received w
      ++ (if clientWired w then default [] (accepted (opts w) e ≫= m_events) else []).
Proof.
  unfold step. destruct (_ <? _); [done|].
  replace (clientWired w) with (clientWired (set_clock t w)) by by destruct w.
  replace (applied w) with (applied (set_clock t w)) by by destruct w.
  replace (received w) with (received (set_clock t w)) by by destruct w.
  replace (opts w) with (opts (set_clock t w)) by by destruct w.
  generalize (set_clock t w). clear w. intros w.
  assert (∀ w2, clientWired w2 = clientWired w → applied w2 = applied w →
                received w2 = received w → accepted (opts w) e = None →
                Some w2 = Some w' →
                (clientWired w = true → clientWired w' = true)
                ∧ applied w' = applied w
                    ++ (if clientWired w
                        then option_list (accepted (opts w) e ≫= m_state) else [])
                ∧ received w' = received w
                    ++ (if clientWired w
                        then default [] (accepted (opts w) e ≫= m_events) else []))
    as Hfin.
  { intros w2 Hc Ha Hr -> [= <-]. rewrite Hc, Ha, Hr. simpl.
    destruct (clientWired w); by rewrite !app_nil_r. }
  destruct e.
  - destruct (_ && _); [|done]. apply Hfin; by destruct w.
  - destruct (socket w); [|done]. unfold onConnect.
    destruct (setupFinished w); [by apply Hfin|].
    intros [= <-]. simpl.
    replace (if clientWired w then [] else []) with (@nil StateRecord)
      by by destruct (clientWired w).
    replace (if clientWired w then [] else []) with (@nil value)
      by by destruct (clientWired w).
    rewrite !app_nil_r.
    destruct (truthy (secret (opts w)));
      destruct (truthy (socketId (opts _))); by destruct w.
  - apply Hfin; by destruct w.
  - destruct (masterWired w); [|by apply Hfin].
    pose proof (handleStateChange_frame t w) as H. simpl in H.
    apply Hfin; [apply H..|done].
  - destruct (masterWired w); [|by apply Hfin].
    pose proof (handleCustomEvent_frame t content w) as H. simpl in H.
    apply Hfin; [apply H..|done].
  - intros [= <-]. destruct (clientWired w) eqn:Hc.
    + pose proof (handleReceivedMessage_frame t data w) as H. simpl in H.
      pose proof (handleReceivedMessage_log t data w) as H'. simpl in H'.
      split; [intros _; rewrite <- Hc; apply H | exact H'].
    + by rewrite Hc, !app_nil_r.
  - intros H. pose proof (fireTimer_frame _ _ _ _ H) as H'.
    apply (Hfin w'); [apply H'..|done|done].
Qed.

(** X3: once the subscription is installed, the states applied to the
    engine are the states of the messages that carry the instance's
    [socketId], in the order of arrival, and the contents re-raised are
    the events of those messages, in order; a message may carry a state,
    events, both or neither. *)
Theorem subscriber_applies_accepted_messages_in_order
    (tr : list (Z * event)) (w w' : world) :
  clientWired w = true →
  run tr w = Some w' →
  applied w' = applied w ++ acceptedStates (opts w) tr
  ∧ received w' = received w ++ acceptedEvents (opts w) tr.
Proof.
  revert w. induction tr as [|[t e] tr IH]; intros w Hc; simpl.
  - intros [= <-]. unfold acceptedStates, acceptedEvents. simpl.
    by rewrite !app_nil_r.
  - destruct (step t e w) as [w1|] eqn:Hstep; [|done]. intros Hrun.
    destruct (step_log _ _ _ _ Hstep) as (Hc1 & Ha & Hr).
    pose proof (step_frame _ _ _ _ Hstep) as (Ho & _).
    destruct (IH w1 (Hc1 Hc) Hrun) as (Ha' & Hr').
    rewrite Ha', Hr', Ha, Hr, Hc, Ho, <- !app_assoc.
    unfold acceptedStates, acceptedEvents. simpl.
    destruct (accepted (opts w) e) as [m|]; simpl; [|done].
    destruct (m_state m), (m_events m); simpl; done.
Qed.

Lemma subscriber_applies_accepted_messages_in_order_witness :
  clientWired connectedWorld = true
  ∧ ∃ w', run inbox connectedWorld = Some w'
          ∧ applied w' = [slide 3]
          ∧ received w' = [VStr "e1"; VStr "e2"].
Proof.
  assert (clientWired connectedWorld = true) as Hc by (vm_compute; reflexivity).
  assert (∃ w', run inbox connectedWorld = Some w') as [w' Hw'].
  { destruct (run inbox connectedWorld) as [w'|] eqn:E; [by exists w'|].
    vm_compute in E. discriminate. }
  split; [exact Hc|]. exists w'. split; [exact Hw'|].
  destruct (subscriber_applies_accepted_messages_in_order
              inbox connectedWorld w' Hc Hw') as [-> ->].
  split; vm_compute; reflexivity.
Defined.

(** *** Roles *)

(** The 'connect' handler wires a role only under its option. *)
Lemma onConnect_roles (w : world) :
  let w' := onConnect w in
  opts w' = opts w
  ∧ (masterWired w' = masterWired w
     ∨ masterWired w' = true ∧ truthy (secret (opts w)) = true)
  ∧ (clientWired w' = clientWired w
     ∨ clientWired w' = true ∧ truthy (socketId (opts w)) = true)
  ∧ emitted w' = emitted w ∧ timers w' = timers w
  ∧ eventQueue w' = eventQueue w
  ∧ applied w' = applied w ∧ received w' = received w.
Proof.
  cbv zeta. unfold onConnect. destruct (setupFinished w); [by auto 10|].
  destruct (truthy (secret (opts w))) eqn:Hs.
  - replace (truthy (socketId (opts (setupMaster w))))
      with (truthy (socketId (opts w))) by by destruct w.
    destruct (truthy (socketId (opts w))) eqn:Hi;
      (split_and!; [by destruct w | right; by destruct w | | by destruct w..]);
      [right | left]; by destruct w.
  - destruct (truthy (socketId (opts w))) eqn:Hi;
      (split_and!; [by destruct w | left; by destruct w | | by destruct w..]);
      [right | left]; by destruct w.
Qed.

Lemma roles_ok_step (t : Z) (e : event) (w w' : world) :
  step t e w = Some w' → roles_ok w → roles_ok w'.
Proof.
  unfold step. destruct (_ <? _); [done|].
  intros Hstep Hok. assert (roles_ok (set_clock t w)) as Hok1 by by destruct w.
  revert Hstep Hok1. generalize (set_clock t w). clear w Hok.
  intros w Hstep (Hm & Hc & Hnm & Hnc).
  assert (∀ w2, opts w2 = opts w → masterWired w2 = masterWired w →
                clientWired w2 = clientWired w →
                (masterWired w = false →
                   emitted w2 = emitted w ∧ timers w2 = timers w
                   ∧ eventQueue w2 = eventQueue w) →
                (clientWired w = false →
                   applied w2 = applied w ∧ received w2 = received w) →
                Some w2 = Some w' → roles_ok w') as Hfin.
  { intros w2 Ho Hmw Hcw He Ha [= <-]. unfold roles_ok.
    rewrite Ho, Hmw, Hcw. split_and!; [done|done|..].
    - intros Hf. destruct (He Hf) as (-> & -> & ->). by apply Hnm.
    - intros Hf. destruct (Ha Hf) as (-> & ->). by apply Hnc. }
  destruct e.
  - destruct (_ && _); [|done]. revert Hstep. apply Hfin; by destruct w.
  - destruct (socket w); [|done]. injection Hstep as <-.
    pose proof (onConnect_roles w) as H. simpl in H.
    destruct H as (Ho & Hmw & Hcw & He & Ht & Hq & Ha & Hr).
    unfold roles_ok. rewrite Ho, He, Ht, Hq, Ha, Hr. split_and!.
    + destruct Hmw as [-> | [_ ?]]; done.
    + destruct Hcw as [-> | [_ ?]]; done.
    + destruct Hmw as [-> | [-> _]]; done.
    + destruct Hcw as [-> | [-> _]]; done.
  - revert Hstep. apply Hfin; by destruct w.
  - destruct (masterWired w) eqn:Hmw; [|revert Hstep; by apply Hfin].
    pose proof (handleStateChange_frame t w) as H. simpl in H.
    revert Hstep. apply Hfin; [apply H | by rewrite <- Hmw; apply H | apply H
                               | done | intros _; split; apply H].
  - destruct (masterWired w) eqn:Hmw; [|revert Hstep; by apply Hfin].
    pose proof (handleCustomEvent_frame t content w) as H. simpl in H.
    revert Hstep. apply Hfin; [apply H | by rewrite <- Hmw; apply H | apply H
                               | done | intros _; split; apply H].
  - destruct (clientWired w) eqn:Hcw; [|revert Hstep; by apply Hfin].
    pose proof (handleReceivedMessage_frame t data w) as H. simpl in H.
    revert Hstep. apply Hfin; [apply H | apply H | by rewrite <- Hcw; apply H
                               | intros _; split_and!; apply H | done].
  - destruct (masterWired w) eqn:Hmw.
    + pose proof (fireTimer_frame _ _ _ _ Hstep) as H.
      apply (Hfin w'); [apply H | by rewrite <- Hmw; apply H | apply H | done
                        | intros _; split; apply H | done].
    + destruct (Hnm eq_refl) as (_ & Ht & _). unfold fireTimer in Hstep.
      by rewrite Ht in Hstep.
Qed.

(** X4: the roles follow the configuration for the whole session of
    [part_000]: with a falsy [secret] the instance never sends a message,
    arms a timer or queues an event; with a falsy [socketId] it never
    applies a state or re-raises an event. *)
Theorem roles_follow_configuration
    (cfg : option config) (t0 : Z) (s0 : StateRecord)
    (tr : list (Z * event)) (w : world) :
  session cfg t0 s0 tr = Some w →
  (truthy (secret (opts w)) = false →
     emitted w = [] ∧ timers w = [] ∧ eventQueue w = [])
  ∧ (truthy (socketId (opts w)) = false →
       applied w = [] ∧ received w = []).
Proof.
  unfold session. intros Hrun.
  assert (roles_ok (init cfg (create t0 s0))) as Hinit.
  { destruct (init_fresh cfg t0 s0)
      as (He & Ha & Hr & _ & Ht & Hq & _ & _ & Hm & Hc & _).
    unfold roles_ok. by rewrite He, Ha, Hr, Ht, Hq, Hm, Hc. }
  assert (roles_ok w) as (Hm & Hc & Hnm & Hnc).
  { revert Hrun Hinit. generalize (init cfg (create t0 s0)).
    induction tr as [|[t e] tr IH]; intros w0; simpl.
    - by intros [= <-].
    - destruct (step t e w0) as [w1|] eqn:Hstep; [|done]. intros Hrun Hok.
      apply (IH w1 Hrun). by apply (roles_ok_step t e w0). }
  split.
  - intros Hs. apply Hnm. destruct (masterWired w); [|done].
    rewrite Hm in Hs; done.
  - intros Hi. apply Hnc. destruct (clientWired w); [|done].
    rewrite Hc in Hi; done.
Qed.

Lemma roles_follow_configuration_witness :
  session (Some followerConfig) 1000000 (slide 0) followerTrace = Some follower
  ∧ truthy (secret (opts follower)) = false
  ∧ emitted follower = [] ∧ timers follower = [] ∧ eventQueue follower = []
  ∧ applied follower = [slide 3].
Proof.
  assert (session (Some followerConfig) 1000000 (slide 0) followerTrace
          = Some follower) as Hrun by (vm_compute; reflexivity).
  assert (truthy (secret (opts follower)) = false) as Hs
    by (vm_compute; reflexivity).
  destruct (roles_follow_configuration _ _ _ _ _ Hrun) as [Hm _].
  destruct (Hm Hs) as (He & Ht & Hq).
  split_and!; [exact Hrun | exact Hs | exact He | exact Ht | exact Hq
              | vm_compute; reflexivity].
Defined.

(** *** Round trip *)

(** X5: round trip in [part_000]: the message [dispatchStateChange]
    sends for a state, handed to [handleReceivedMessage] of an instance
    with the same [socketId], puts the receiver's engine in that state
    with one call of [setState], stamps [lastRemoteStateChange], and sends
    and arms nothing; and as long as the receiver's engine reports a state
    equivalent to the one received, [handleStateChange] changes nothing,
    at any time: the state is not echoed. *)
Theorem received_state_is_applied_and_not_echoed
    (T : Z) (s : StateRecord) (a b : world) :
  socketId (opts a) = socketId (opts b) →
  let b' := handleReceivedMessage T (stateMessage (opts a) s) b in
  emitted (dispatchStateChange s a) = emitted a ++ [stateMessage (opts a) s]
  ∧ getState b' = s ∧ applied b' = applied b ++ [s]
  ∧ lastRemoteStateChange b' = T
  ∧ emitted b' = emitted b ∧ timers b' = timers b
  ∧ ∀ now s', isEquivalent s' s = true →
      handleStateChange now (set_deck s' b') = set_deck s' b'.
Proof.
  intros Hid. cbv zeta.
  assert (handleReceivedMessage T (stateMessage (opts a) s) b
          = setState s (set_lastRemoteStateChange T
                          (set_lastSharedState (Some s) b))) as ->.
  { unfold handleReceivedMessage. simpl. rewrite Hid.
    by rewrite (proj2 (strict_ne_false _ _) eq_refl). }
  split_and!; [by destruct a | by destruct b..|].
  intros now s' He. apply handleStateChange_same.
  unfold sameAsShared.
  replace (lastSharedState _) with (Some s) by by destruct b.
  replace (getState _) with s' by by destruct b.
  exact He.
Qed.

Lemma received_state_is_applied_and_not_echoed_witness :
  socketId (opts connectedWorld) = socketId (opts connectedWorld)
  ∧ getState (handleReceivedMessage 1000500
                (stateMessage (opts connectedWorld) (slide 3)) connectedWorld)
    = slide 3
  ∧ handleStateChange 1002600
      (set_deck (slideOverview 3 true)
         (handleReceivedMessage 1000500
            (stateMessage (opts connectedWorld) (slide 3)) connectedWorld))
    = set_deck (slideOverview 3 true)
        (handleReceivedMessage 1000500
           (stateMessage (opts connectedWorld) (slide 3)) connectedWorld).
Proof.
  destruct (received_state_is_applied_and_not_echoed 1000500 (slide 3)
              connectedWorld connectedWorld eq_refl)
    as (_ & Hg & _ & _ & _ & _ & Hecho).
  split_and!; [reflexivity | exact Hg |].
  apply Hecho. vm_compute. reflexivity.
Defined.

(** *** The equivalence checks *)






(** *** Timers and their handles *)

(** Handles are not repeated in the table. *)
Lemma timer_by_id (l : list timer) (tm1 tm2 : timer) :
  NoDup (t_id <$> l) → tm1 ∈ l → tm2 ∈ l → t_id tm1 = t_id tm2 → tm1 = tm2.
Proof.
  intros Hnd [i Hi]%list_elem_of_lookup_1 [j Hj]%list_elem_of_lookup_1 Hid.
  assert (i = j) as ->.
  { apply (NoDup_lookup _ i j (t_id tm1) Hnd); rewrite list_lookup_fmap.
    - by rewrite Hi.
    - by rewrite Hj, Hid. }
  congruence.
Qed.

(** A timer is of one kind or the other. *)
Lemma timer_kinds (tm : timer) : isStateTimer tm = negb (isEventTimer tm).
Proof. unfold isStateTimer, isEventTimer. by destruct (t_cb tm). Qed.

(** The two fields never name the same timer. *)
Lemma markers_distinct (w : world) (a b : positive) :
  markers_ok w → stateDispatchTimer w = Some a → eventDispatchTimer w = Some b →
  a ≠ b.
Proof.
  intros ((Hnd & _) & _ & Hs & He) Ha Hb ->.
  destruct (Hs b Ha) as (tm1 & Hin1 & Hid1 & Hk1).
  destruct (He b Hb) as (tm2 & Hin2 & Hid2 & Hk2).
  assert (tm1 = tm2) as -> by (apply (timer_by_id (timers w)); congruence).
  rewrite timer_kinds, Hk2 in Hk1. done.
Qed.

Lemma markers_ok_ext (w w' : world) :
  timers w' = timers w → nextTimer w' = nextTimer w →
  stateDispatchTimer w' = stateDispatchTimer w →
  eventDispatchTimer w' = eventDispatchTimer w →
  eventQueue w' = eventQueue w →
  markers_ok w → markers_ok w'.
Proof.
  intros Ht Hn Hs He Hq (Hwf & H1 & H2 & H3).
  unfold markers_ok. rewrite Ht, Hs, He, Hq.
  split_and!; try done. by apply (timers_wf_ext w w').
Qed.

Lemma markers_ok_handleStateChange (now : Z) (w : world) :
  markers_ok w → markers_ok (handleStateChange now w).
Proof.
  intros Hok. pose proof Hok as (Hwf & Hq & Hs & He).
  pose proof (handleStateChange_frame now w) as Hf. simpl in Hf.
  destruct Hf as (_ & _ & _ & _ & _ & _ & _ & _ & Hq' & _ & Hm' & _).
  unfold markers_ok. rewrite Hq', Hm'.
  split; [by apply timers_wf_handleStateChange|].
  destruct (handleStateChange_cases now w)
    as [-> | [(_ & _ & _ & _ & Ht & Hn & Hm & _) | (Hsame & Hb & Hd & _)]].
  - done.
  - by rewrite Ht, Hm.
  - destruct (handleStateChange_arms_table now w Hsame Hb Hd) as (-> & _ & ->).
    split_and!; [done| |].
    + intros id [= <-].
      exists (Timer (nextTimer w) (now + Z.max 0 (stateDispatchDelay (opts w)))
                (CbDispatchState (getState w))).
      split_and!; [|done..].
      apply elem_of_app. right. by apply list_elem_of_singleton.
    + intros id Hid. destruct (He id Hid) as (tm & Hin & Htid & Hk).
      exists tm. split_and!; try done. apply elem_of_app. left.
      destruct (stateDispatchTimer w) as [old|] eqn:E; [|done].
      apply list_elem_of_filter. split; [|done].
      rewrite Htid. intros ->. by apply (markers_distinct w old old).
Qed.

Lemma markers_ok_handleCustomEvent (now : Z) (c : value) (w : world) :
  markers_ok w → markers_ok (handleCustomEvent now c w).
Proof.
  intros Hok. pose proof Hok as (Hwf & Hq & Hs & He).
  pose proof (handleCustomEvent_frame now c w) as Hf. simpl in Hf.
  destruct Hf as (_ & _ & _ & _ & _ & _ & _ & _ & _ & _ & Hm' & _).
  unfold markers_ok. rewrite Hm'.
  split; [by apply timers_wf_handleCustomEvent|].
  destruct (Z.le_gt_cases (eventDispatchDelay (opts w)) (now - lastEventDispatch w))
    as [Hge | Hlt].
  - destruct (handleCustomEvent_flush now c w Hge)
      as (_ & -> & _ & -> & _ & -> & _).
    split_and!; done.
  - destruct (handleCustomEvent_queue now c w Hlt) as (_ & _ & _ & _ & Hcase).
    destruct (eventDispatchTimer w) as [id|] eqn:E.
    + destruct Hcase as (-> & -> & _). split_and!; done.
    + destruct Hcase as (-> & -> & _). split_and!; [done| |].
      * intros id Hid. destruct (Hs id Hid) as (tm & Hin & Htid & Hk).
        exists tm. split_and!; try done. apply elem_of_app. by left.
      * intros id [= <-].
        exists (Timer (nextTimer w)
                  (lastEventDispatch w + eventDispatchDelay (opts w))
                  CbDispatchEvents).
        split_and!; [|done..].
        apply elem_of_app. right. by apply list_elem_of_singleton.
Qed.

Lemma markers_ok_handleReceivedMessage (now : Z) (data : message) (w : world) :
  markers_ok w → markers_ok (handleReceivedMessage now data w).
Proof.
  pose proof (handleReceivedMessage_frame now data w) as Hf. simpl in Hf.
  destruct Hf as (_ & _ & _ & _ & _ & _ & _ & Hs & Hq & _ & He & Ht & Hn & _).
  by apply markers_ok_ext.
Qed.

Lemma markers_ok_fireTimer (now : Z) (id : positive) (w w' : world) :
  markers_ok w → fireTimer now id w = Some w' → markers_ok w'.
Proof.
  intros Hok Hfire. pose proof Hok as (Hwf & Hq & Hs & He).
  pose proof (timers_wf_fireTimer _ _ _ _ Hwf Hfire) as Hwf'.
  revert Hfire. unfold fireTimer.
  destruct (list_find _ _) as [[i tm]|] eqn:Hfind; [|done].
  destruct (_ <=? _); [|done]. intros [= <-].
  apply list_find_Some in Hfind as (Hin%list_elem_of_lookup_2 & Hid & _).
  destruct Hwf as (_ & _ & Hst & Hev).
  destruct (t_cb tm) as [s|] eqn:Hcb; simpl in *.
  - assert (stateDispatchTimer w = Some id) as Hmark.
    { rewrite <- Hid. apply Hst; [done|]. unfold isStateTimer. by rewrite Hcb. }
    split; [done|]. split_and!; try done.
    intros b Hb. destruct (He b Hb) as (tm' & Hin' & Hid' & Hk').
    exists tm'. split_and!; try done.
    apply list_elem_of_filter. split; [|done].
    rewrite Hid'. intros ->. by apply (markers_distinct w id id).
  - assert (eventDispatchTimer w = Some id) as Hmark.
    { rewrite <- Hid. apply Hev; [done|]. unfold isEventTimer. by rewrite Hcb. }
    split; [done|].
    set (w1 := set_eventDispatchTimer None (clearTimeout id w)) in *.
    assert (eventDispatchTimer (dispatchEventQueue now w1) = None
            ∧ eventQueue (dispatchEventQueue now w1) = []
            ∧ stateDispatchTimer (dispatchEventQueue now w1) = stateDispatchTimer w
            ∧ timers (dispatchEventQueue now w1)
              = filter (λ tm, t_id tm ≠ id) (timers w))
      as (-> & -> & -> & ->).
    { unfold dispatchEventQueue. destruct (eventQueue w1) eqn:E; simpl.
      - split_and!; done.
      - split_and!; done. }
    split_and!; try done.
    intros a Ha. destruct (Hs a Ha) as (tm' & Hin' & Hid' & Hk').
    exists tm'. split_and!; try done.
    apply list_elem_of_filter. split; [|done].
    rewrite Hid'. intros ->. by apply (markers_distinct w id id).
Qed.

Lemma markers_ok_step (t : Z) (e : event) (w w' : world) :
  markers_ok w → step t e w = Some w' → markers_ok w'.
Proof.
  intros Hok. unfold step. destruct (_ <? _); [done|].
  assert (markers_ok (set_clock t w)) as Hok1 by by apply (markers_ok_ext w).
  revert Hok1. generalize (set_clock t w). clear w Hok.
  intros w Hok. destruct e.
  - destruct (_ && _); [|done]. intros [= <-]. by apply (markers_ok_ext w).
  - destruct (socket w); [|done]. intros [= <-]. unfold onConnect.
    destruct (setupFinished w); [done|].
    destruct (truthy (secret (opts w)));
      destruct (truthy (socketId (opts _))); by apply (markers_ok_ext w).
  - intros [= <-]. by apply (markers_ok_ext w).
  - intros [= <-]. destruct (masterWired w); [|done].
    by apply markers_ok_handleStateChange.
  - intros [= <-]. destruct (masterWired w); [|done].
    by apply markers_ok_handleCustomEvent.
  - intros [= <-]. destruct (clientWired w); [|done].
    by apply markers_ok_handleReceivedMessage.
  - by apply markers_ok_fireTimer.
Qed.

Lemma markers_ok_session (cfg : option config) (t0 : Z) (s0 : StateRecord)
    (tr : list (Z * event)) (w : world) :
  session cfg t0 s0 tr = Some w → markers_ok w.
Proof.
  unfold session.
  assert (markers_ok (init cfg (create t0 s0))) as Hinit.
  { destruct (init_fresh cfg t0 s0)
      as (_ & _ & _ & _ & Ht & Hq & Hs & He & _).
    unfold markers_ok. rewrite Hq, Hs, He.
    split_and!; [by apply timers_wf_no_timers|done..]. }
  revert Hinit. generalize (init cfg (create t0 s0)).
  induction tr as [|[t e] tr IH]; intros w0 Hok; simpl.
  - by intros [= <-].
  - destruct (step t e w0) as [w1|] eqn:Hstep; [|done].
    apply IH. by apply (markers_ok_step t e w0).
Qed.

(** X8: in a session of [part_000] the two handle fields mirror the
    browser's timer table: [stateDispatchTimer] holds a handle exactly
    when the debounce timer with that handle is pending, and
    [eventDispatchTimer] exactly when the flush timer with that handle is
    pending. *)
Theorem timer_handles_mirror_timer_table
    (cfg : option config) (t0 : Z) (s0 : StateRecord)
    (tr : list (Z * event)) (w : world) :
  session cfg t0 s0 tr = Some w →
  (∀ id, stateDispatchTimer w = Some id
         ↔ ∃ tm, tm ∈ timers w ∧ t_id tm = id ∧ isStateTimer tm = true)
  ∧ (∀ id, eventDispatchTimer w = Some id
           ↔ ∃ tm, tm ∈ timers w ∧ t_id tm = id ∧ isEventTimer tm = true).
Proof.
  intros Hrun.
  destruct (markers_ok_session _ _ _ _ _ Hrun)
    as ((_ & _ & Hst & Hev) & _ & Hs & He).
  split; intros id; split; [apply Hs | | apply He |].
  - intros (tm & Hin & <- & Hk). by apply Hst.
  - intros (tm & Hin & <- & Hk). by apply Hev.
Qed.

Lemma timer_handles_mirror_timer_table_witness :
  session (Some mainConfig) 1000000 (slide 0) busyTrace = Some busyWorld
  ∧ stateDispatchTimer busyWorld = Some 2%positive
  ∧ ∃ tm, tm ∈ timers busyWorld ∧ t_id tm = 2%positive
          ∧ isStateTimer tm = true.
Proof.
  assert (session (Some mainConfig) 1000000 (slide 0) busyTrace
          = Some busyWorld) as Hrun by (vm_compute; reflexivity).
  assert (stateDispatchTimer busyWorld = Some 2%positive) as Hs
    by (vm_compute; reflexivity).
  destruct (timer_handles_mirror_timer_table _ _ _ _ _ Hrun) as [Hst _].
  split_and!; [exact Hrun | exact Hs | exact (proj1 (Hst _) Hs)].
Defined.

(** X9: no event is left behind in a session of [part_000]: while the
    queue is not empty, the flush timer named by [eventDispatchTimer] is
    pending, and when it fires, at any time from its due time on, the
    whole queue goes out as one message, the queue is empty and the handle
    is cleared. *)
Theorem queued_events_have_a_pending_flush
    (cfg : option config) (t0 : Z) (s0 : StateRecord)
    (tr : list (Z * event)) (w : world) :
  session cfg t0 s0 tr = Some w →
  eventQueue w ≠ [] →
  ∃ tm, tm ∈ timers w ∧ eventDispatchTimer w = Some (t_id tm)
        ∧ ∀ t, clock w ≤ t → t_due tm ≤ t →
            ∃ w', step t (Timeout (t_id tm)) w = Some w'
                  ∧ emitted w'
                    = emitted w ++ [eventsMessage (opts w) (eventQueue w)]
                  ∧ eventQueue w' = [] ∧ eventDispatchTimer w' = None.
Proof.
  intros Hrun Hne.
  destruct (markers_ok_session _ _ _ _ _ Hrun)
    as ((Hnd & _) & Hq & _ & He).
  destruct (eventDispatchTimer w) as [id|] eqn:Em; [|by destruct (Hq Hne)].
  destruct (He id eq_refl) as (tm & Hin & <- & Hk).
  exists tm. split_and!; [done..|]. intros t Hclock Hdue.
  assert (t_cb tm = CbDispatchEvents) as Hcb.
  { unfold isEventTimer in Hk. by destruct (t_cb tm). }
  unfold step. rewrite (proj2 (Z.ltb_ge _ _) Hclock).
  assert (∃ i, list_find (λ x, t_id x = t_id tm) (timers (set_clock t w))
               = Some (i, tm)) as [i Hfind].
  { replace (timers (set_clock t w)) with (timers w) by by destruct w.
    destruct (list_find (λ x, t_id x = t_id tm) (timers w)) as [[i tm']|] eqn:E.
    - exists i. apply list_find_Some in E as (Hin'%list_elem_of_lookup_2 & Hid & _).
      by rewrite (timer_by_id (timers w) tm' tm Hnd Hin' Hin Hid).
    - apply list_find_None in E. rewrite Forall_forall in E.
      by destruct (E tm Hin). }
  unfold fireTimer. rewrite Hfind, (proj2 (Z.leb_le _ _) Hdue), Hcb. simpl.
  eexists. split; [done|].
  set (w1 := set_eventDispatchTimer None (clearTimeout (t_id tm) (set_clock t w))).
  assert (eventQueue w1 = eventQueue w ∧ emitted w1 = emitted w
          ∧ opts w1 = opts w ∧ eventDispatchTimer w1 = None)
    as (Hq1 & He1 & Ho1 & Hm1) by by destruct w.
  destruct (dispatchEventQueue_flush t w1) as (-> & -> & _ & _ & _ & -> & _);
    [by rewrite Hq1|].
  by rewrite He1, Ho1, Hq1.
Qed.

Lemma queued_events_have_a_pending_flush_witness :
  session (Some mainConfig) 1000000 (slide 0) busyTrace = Some busyWorld
  ∧ eventQueue busyWorld = [VStr "e1"]
  ∧ ∃ tm, tm ∈ timers busyWorld
          ∧ eventDispatchTimer busyWorld = Some (t_id tm)
          ∧ ∀ t, clock busyWorld ≤ t → t_due tm ≤ t →
              ∃ w', step t (Timeout (t_id tm)) busyWorld = Some w'
                    ∧ emitted w'
                      = emitted busyWorld
                          ++ [eventsMessage (opts busyWorld)
                                (eventQueue busyWorld)]
                    ∧ eventQueue w' = [] ∧ eventDispatchTimer w' = None.
Proof.
  assert (session (Some mainConfig) 1000000 (slide 0) busyTrace
          = Some busyWorld) as Hrun by (vm_compute; reflexivity).
  assert (eventQueue busyWorld = [VStr "e1"]) as Hq
    by (vm_compute; reflexivity).
  split_and!; [exact Hrun | exact Hq |].
  apply (queued_events_have_a_pending_flush _ _ _ _ _ Hrun).
  rewrite Hq. discriminate.
Defined.

(** *** Reconnection *)







(** *** A publish at once and the pending timer *)

(** In a table without repeated handles the timer found under a handle is
    the pending timer that has it. *)
Lemma list_find_timer (l : list timer) (tm : timer) :
  NoDup (t_id <$> l) → tm ∈ l →
  ∃ i, list_find (λ x, t_id x = t_id tm) l = Some (i, tm).
Proof.
  intros Hnd Hin.
  destruct (list_find (λ x, t_id x = t_id tm) l) as [[i tm']|] eqn:E.
  - exists i. apply list_find_Some in E as (Hin'%list_elem_of_lookup_2 & Hid & _).
    by rewrite (timer_by_id l tm' tm Hnd Hin' Hin Hid).
  - apply list_find_None in E. rewrite Forall_forall in E.
    by destruct (E tm Hin).
Qed.

(** X11: an immediate publish does not cancel a pending debounce timer.
    When [handleStateChange] publishes at once, in a session of [part_000]
    in which a debounce timer is pending, the timer and its handle stay as
    they are, and when the timer fires later it publishes the state it
    captured, after the one just published, wherever the engine is by
    then. *)
Theorem immediate_publish_keeps_the_pending_timer
    (cfg : option config) (t0 : Z) (s0 : StateRecord)
    (tr : list (Z * event)) (w : world) (id : positive) (now : Z) :
  session cfg t0 s0 tr = Some w →
  stateDispatchTimer w = Some id →
  sameAsShared (getState w) w = false →
  remoteStateChangeBlackout (opts w) ≤ now - lastRemoteStateChange w →
  stateDispatchDelay (opts w) ≤ now - lastStateChange w →
  let w' := handleStateChange now w in
  emitted w' = emitted w ++ [stateMessage (opts w) (getState w)]
  ∧ stateDispatchTimer w' = Some id ∧ timers w' = timers w
  ∧ ∃ tm s, tm ∈ timers w' ∧ t_id tm = id ∧ t_cb tm = CbDispatchState s
            ∧ ∀ t, t_due tm ≤ t →
                ∃ w'', fireTimer t id w' = Some w''
                       ∧ emitted w''
                         = emitted w' ++ [stateMessage (opts w) s].
Proof.
  intros Hrun Hmark Hsame Hblack Hdelay. cbv zeta.
  destruct (markers_ok_session _ _ _ _ _ Hrun) as ((Hnd & _) & _ & Hs & _).
  pose proof (handleStateChange_frame now w) as Hf. simpl in Hf.
  destruct Hf as (Ho & _).
  destruct (handleStateChange_cases now w)
    as [Heq | [(_ & _ & He & _ & Ht & _ & Hm & _) | (_ & _ & Hlt & _)]];
    [|clear Hsame Hblack|lia].
  - exfalso. revert Heq. unfold handleStateChange.
    rewrite Hsame, (proj2 (Z.ltb_ge _ _) Hblack), (proj2 (Z.leb_le _ _) Hdelay).
    intros Heq. apply (f_equal emitted) in Heq. revert Heq.
    replace (emitted (set_lastStateChange now (dispatchStateChange (getState w) w)))
      with (emitted w ++ [stateMessage (opts w) (getState w)]) by by destruct w.
    intros Heq. apply (f_equal length) in Heq. rewrite length_app in Heq.
    simpl in Heq. lia.
  - rewrite He, Ht, Hm. split_and!; [done..|].
    destruct (Hs id Hmark) as (tm & Hin & Hid & Hk).
    assert (∃ s, t_cb tm = CbDispatchState s) as [s Hcb].
    { unfold isStateTimer in Hk. destruct (t_cb tm) as [s|]; [by exists s|done]. }
    exists tm, s. split_and!; [done..|]. intros t Hdue.
    destruct (list_find_timer (timers w) tm Hnd Hin) as [i Hfind].
    rewrite Hid in Hfind.
    destruct (fireTimer_state t id i (t_due tm) s (handleStateChange now w))
      as (w'' & Hfire & _ & He' & _); [|done|].
    + rewrite Ht, Hfind. destruct tm; simpl in *. by subst.
    + exists w''. split; [done|]. by rewrite He', He, Ho.
Qed.

Lemma immediate_publish_keeps_the_pending_timer_witness :
  session (Some mainConfig) 1000000 (slide 0) lateTrace = Some lateForSlide1
  ∧ getState lateForSlide1 = slide 2
  ∧ ∃ w'', fireTimer 1000660 1 (handleStateChange 1000650 lateForSlide1)
           = Some w''
           ∧ statePublishes w'' = [slide 0; slide 2; slide 1].
Proof.
  assert (session (Some mainConfig) 1000000 (slide 0) lateTrace
          = Some lateForSlide1) as Hrun by (vm_compute; reflexivity).
  split_and!; [exact Hrun | vm_compute; reflexivity |].
  destruct (immediate_publish_keeps_the_pending_timer
              _ _ _ _ lateForSlide1 1%positive 1000650 Hrun)
    as (He & _ & Ht & tm & s & Hin & _ & Hcb & Hfire);
    [vm_compute; reflexivity | vm_compute; reflexivity
    | vm_compute; discriminate | vm_compute; discriminate |].
  assert (timers lateForSlide1
          = [Timer 1 1000600 (CbDispatchState (slide 1))]) as Htab
    by (vm_compute; reflexivity).
  rewrite Ht, Htab in Hin. apply list_elem_of_singleton in Hin. subst tm.
  simpl in Hcb. injection Hcb as <-.
  destruct (Hfire 1000660) as (w'' & Hf & He''); [simpl; lia|].
  exists w''. split; [exact Hf|].
  unfold statePublishes. rewrite He'', He. vm_compute. reflexivity.
Defined.


(** ** The session of [broadcast.js] *)

Section BroadcastJsSession.

Import BroadcastJs BroadcastJsQueue.

(** *** The batcher *)

(** What [postEventQueue] does to the instance. *)
Lemma postEventQueue_spec (now : Z) (w : world) :
  let w' := postEventQueue now w in
  eventQueue w' = [] ∧ timeoutSet w' = timeoutSet w
  ∧ opts w' = opts w ∧ masterWired w' = masterWired w
  ∧ clientWired w' = clientWired w ∧ deck w' = deck w
  ∧ applied w' = applied w ∧ received w' = received w
  ∧ lastMsgState w' = lastMsgState w
  ∧ match eventQueue w with
    | [] => w' = w
    | _ => emitted w' = emitted w ++ [queueMessage (opts w) (eventQueue w)]
           ∧ lastDispatch w' = now
    end.
Proof.
  cbv zeta. unfold postEventQueue.
  destruct (eventQueue w) eqn:E; simpl; [done|]. by destruct w.
Qed.

(** The events of [BroadcastJs] leave the batcher's fields alone. *)
Lemma BroadcastJs_step_frame (e : BroadcastJs.event) (w w' : world) :
  BroadcastJs.step e w = Some w' →
  opts w' = opts w ∧ lastDispatch w' = lastDispatch w
  ∧ timeoutSet w' = timeoutSet w ∧ eventQueue w' = eventQueue w
  ∧ (masterWired w = true → masterWired w' = true)
  ∧ BroadcastJs_sentEvents w' = BroadcastJs_sentEvents w.
Proof.
  unfold BroadcastJs_sentEvents. destruct e; simpl.
  - destruct (_ && _); [|done]. intros [= <-]. unfold onScriptLoaded.
    destruct (truthy (master _) && _);
      destruct (truthy (client _)); destruct w; simpl; split_and!; done.
  - intros [= <-]. destruct w; simpl; split_and!; done.
  - intros [= <-]. destruct (masterWired w) eqn:Hm; [|by split_and!].
    unfold handleStateChange.
    destruct (match lastMsgState w with Some _ => _ | None => _ end);
      [|by split_and!].
    destruct w; simpl. split_and!; try done.
    by rewrite omap_app, concat_app, !app_nil_r.
  - intros [= <-]. destruct (clientWired w); [|by split_and!].
    unfold handleReceivedMessage. destruct (strict_ne _ _); [by split_and!|].
    assert (∀ evs w0,
              let w1 := foldl (λ w content, dispatchReceived content w) w0 evs in
              opts w1 = opts w0 ∧ lastDispatch w1 = lastDispatch w0
              ∧ timeoutSet w1 = timeoutSet w0
              ∧ eventQueue w1 = eventQueue w0
              ∧ masterWired w1 = masterWired w0
              ∧ emitted w1 = emitted w0) as Hloop.
    { induction evs as [|c evs IH]; intros w0; simpl; [done|].
      destruct (IH (dispatchReceived c w0)) as (-> & -> & -> & -> & -> & ->).
      by destruct w0. }
    destruct (m_state data) as [s|]; destruct (m_events data) as [q|];
      try (destruct (Hloop q (setState s (set_lastMsgState (Some s) w)))
             as (-> & -> & -> & -> & -> & ->));
      try (destruct (Hloop q w) as (-> & -> & -> & -> & -> & ->));
      destruct w; simpl; split_and!; done.
Qed.

(** The two ways of [handleCustomEvent]: flush at once, or queue. *)
Lemma BroadcastJsQueue_handleCustomEvent_cases (now : Z) (c : value) (h : host) :
  let h' := handleCustomEvent now c h in
  let w := inst h in
  opts (inst h') = opts w ∧ clock h' = clock h
  ∧ masterWired (inst h') = masterWired w
  ∧ ((dispatchDelay (opts w) ≤ now - lastDispatch w
      ∧ emitted (inst h')
        = emitted w ++ [queueMessage (opts w) (eventQueue w ++ [c])]
      ∧ eventQueue (inst h') = [] ∧ lastDispatch (inst h') = now
      ∧ timers h' = timers h ∧ nextTimer h' = nextTimer h
      ∧ timeoutSet (inst h') = timeoutSet w)
     ∨ (now - lastDispatch w < dispatchDelay (opts w)
        ∧ emitted (inst h') = emitted w
        ∧ eventQueue (inst h') = eventQueue w ++ [c]
        ∧ lastDispatch (inst h') = lastDispatch w
        ∧ timeoutSet (inst h') = true
        ∧ if timeoutSet w
          then timers h' = timers h ∧ nextTimer h' = nextTimer h
          else timers h'
               = timers h ++ [Timer (nextTimer h)
                                  (lastDispatch w + dispatchDelay (opts w))]
               ∧ nextTimer h' = Pos.succ (nextTimer h))).
Proof.
  cbv zeta. unfold handleCustomEvent. cbv zeta.
  set (h1 := set_inst _ h).
  assert (opts (inst h1) = opts (inst h)
          ∧ lastDispatch (inst h1) = lastDispatch (inst h)
          ∧ timeoutSet (inst h1) = timeoutSet (inst h)
          ∧ eventQueue (inst h1) = eventQueue (inst h) ++ [c]
          ∧ emitted (inst h1) = emitted (inst h)
          ∧ masterWired (inst h1) = masterWired (inst h)
          ∧ timers h1 = timers h ∧ nextTimer h1 = nextTimer h
          ∧ clock h1 = clock h)
    as (Ho & Hl & Hf & Hq & He & Hm & Ht & Hn & Hc).
  { destruct h as [[] ? ? ?]. done. }
  rewrite <- Ho, <- Hl, <- Hf, <- He, <- Hq, <- Ht, <- Hn, <- Hc, <- Hm.
  assert (eventQueue (inst h1) ≠ []) as Hne.
  { rewrite Hq. by destruct (eventQueue (inst h)). }
  clearbody h1. clear h Ho Hl Hf Hq He Hm Ht Hn Hc.
  destruct (Z.leb_spec (dispatchDelay (opts (inst h1)))
              (now - lastDispatch (inst h1))) as [Hge | Hlt].
  - pose proof (postEventQueue_spec now (inst h1)) as Hp. simpl in Hp.
    destruct Hp as (Hq & Hf & Ho & Hm & _ & _ & _ & _ & _ & Hcase).
    simpl. split_and!; [done..|]. left.
    destruct (eventQueue (inst h1)) as [|e q] eqn:E.
    + done.
    + destruct Hcase as (-> & ->). done.
  - destruct (timeoutSet (inst h1)) eqn:Hf; simpl.
    + split_and!; [done..|]. right. split_and!; done.
    + split_and!; [by destruct h1 as [[] ? ? ?]..|]. right.
      split_and!; try by destruct h1 as [[] ? ? ?].
      destruct h1 as [[] ? ? ?]; simpl in *. do 3 f_equal. lia.
Qed.

(** The one pending timer fires. *)
Lemma BroadcastJsQueue_fireTimer_spec (now : Z) (tm : timer) (h : host) :
  timers h = [tm] → t_due tm ≤ now →
  ∃ h', fireTimer now (t_id tm) h = Some h'
        ∧ timers h' = [] ∧ nextTimer h' = nextTimer h
        ∧ clock h' = clock h
        ∧ timeoutSet (inst h') = false
        ∧ eventQueue (inst h') = []
        ∧ opts (inst h') = opts (inst h)
        ∧ masterWired (inst h') = masterWired (inst h)
        ∧ match eventQueue (inst h) with
          | [] => emitted (inst h') = emitted (inst h)
          | q => emitted (inst h')
                 = emitted (inst h) ++ [queueMessage (opts (inst h)) q]
                 ∧ lastDispatch (inst h') = now
          end.
Proof.
  intros Ht Hdue. unfold fireTimer. rewrite Ht.
  assert (list_find (λ x, t_id x = t_id tm) [tm] = Some (0%nat, tm)) as ->.
  { simpl. by rewrite decide_True. }
  assert (filter (λ x, t_id x ≠ t_id tm) [tm] = []) as ->.
  { rewrite filter_cons_False by (intros H; by apply H). done. }
  rewrite (proj2 (Z.leb_le _ _) Hdue). eexists. split; [done|].
  unfold runCallback. cbv zeta. simpl.
  pose proof (postEventQueue_spec now (set_timeoutSet false (inst h))) as Hp.
  simpl in Hp.
  destruct Hp as (-> & -> & -> & -> & _ & _ & _ & _ & _ & Hcase).
  split_and!; try by destruct h as [[] ? ? ?].
  replace (eventQueue (set_timeoutSet false (inst h)))
    with (eventQueue (inst h)) in Hcase by by destruct h as [[] ? ? ?].
  destruct (eventQueue (inst h)) as [|e q].
  - rewrite Hcase. by destruct h as [[] ? ? ?].
  - destruct Hcase as (-> & ->). by destruct h as [[] ? ? ?].
Qed.

Lemma BroadcastJsQueue_fireTimer_inv (now : Z) (id : positive) (h h' : host) :
  flag_ok h → fireTimer now id h = Some h' →
  ∃ tm, timers h = [tm] ∧ t_id tm = id ∧ t_due tm ≤ now.
Proof.
  unfold flag_ok, fireTimer.
  destruct (timers h) as [|tm [|tm' l]]; [done| |done]. simpl.
  intros _. destruct (decide (t_id tm = id)) as [<-|]; [|done]. simpl.
  destruct (Z.leb_spec (t_due tm) now); [|done]. intros _. by exists tm.
Qed.

Lemma flag_ok_step (t : Z) (e : event) (h h' : host) :
  flag_ok h → step t e h = Some h' → flag_ok h'.
Proof.
  intros Hok. unfold step. destruct (_ <? _); [done|].
  set (h1 := Host _ _ _ t).
  assert (flag_ok h1) as Hok1 by by destruct h.
  clearbody h1. clear h Hok. destruct e as [e|c|id].
  - destruct (BroadcastJs.step e (inst h1)) as [w'|] eqn:Hstep; [|done].
    intros [= <-]. apply BroadcastJs_step_frame in Hstep
      as (_ & _ & Hf & Hq & _).
    unfold flag_ok in *. simpl. by rewrite Hf, Hq.
  - intros [= <-]. destruct (masterWired (inst h1)); [|done].
    pose proof (BroadcastJsQueue_handleCustomEvent_cases t c h1) as Hc.
    simpl in Hc. destruct Hc as (_ & _ & _ & Hc). unfold flag_ok in *.
    destruct Hc as [(_ & _ & Hq & _ & -> & _ & Hf)
                   | (_ & _ & Hq & _ & Hf & Hcase)].
    + rewrite Hq, Hf. destruct (timers h1) as [|tm [|tm' l]]; [|done..].
      by destruct Hok1.
    + rewrite Hf. destruct (timeoutSet (inst h1)) eqn:E.
      * destruct Hcase as (-> & _).
        destruct (timers h1) as [|tm [|tm' l]]; [|done..].
        by destruct Hok1.
      * destruct Hcase as (-> & _).
        destruct (timers h1) as [|tm [|tm' l]]; [done| |done].
        congruence.
  - intros Hfire.
    destruct (BroadcastJsQueue_fireTimer_inv _ _ _ _ Hok1 Hfire)
      as (tm & Ht & <- & Hdue).
    destruct (BroadcastJsQueue_fireTimer_spec t tm h1 Ht Hdue)
      as (h2 & Hfire' & Ht' & _ & _ & Hf & Hq & _).
    rewrite Hfire in Hfire'. injection Hfire' as <-.
    unfold flag_ok. by rewrite Ht'.
Qed.

Lemma flag_ok_run (tr : list (Z * event)) (h h' : host) :
  flag_ok h → run tr h = Some h' → flag_ok h'.
Proof.
  revert h. induction tr as [|[t e] tr IH]; intros h Hok; simpl.
  - by intros [= <-].
  - destruct (step t e h) as [h1|] eqn:Hstep; [|done].
    apply IH. by apply (flag_ok_step t e h).
Qed.

Lemma flag_ok_start (cfg : option config) (receiver : bool) (t0 : Z)
    (s0 : StateRecord) :
  flag_ok (start cfg receiver t0 s0).
Proof. unfold flag_ok. simpl. by destruct cfg. Qed.

(** X12: in a session of [broadcast.js] at most one flush timer is
    pending, [timeoutSet] is true exactly when one is, and events wait in
    the queue only while one is. *)
Theorem BroadcastJs_one_flush_timer
    (cfg : option config) (receiver : bool) (t0 : Z) (s0 : StateRecord)
    (tr : list (Z * event)) (h : host) :
  run tr (start cfg receiver t0 s0) = Some h →
  (length (timers h) ≤ 1)%nat
  ∧ (timeoutSet (inst h) = true ↔ timers h ≠ [])
  ∧ (eventQueue (inst h) ≠ [] → timers h ≠ []).
Proof.
  intros Hrun.
  pose proof (flag_ok_run _ _ _ (flag_ok_start cfg receiver t0 s0) Hrun) as Hok.
  unfold flag_ok in Hok.
  destruct (timers h) as [|tm [|tm' l]]; [| |done].
  - destruct Hok as [-> ->]. split_and!; [simpl; lia|done|done].
  - rewrite Hok. split_and!; [simpl; lia|done|done].
Qed.

Lemma BroadcastJs_one_flush_timer_witness :
  run legacyTrace (start (Some legacyConfig) false 1000000 (slide 0))
  = Some legacyHost
  ∧ eventQueue (inst legacyHost) = [VStr "e1"]
  ∧ (length (timers legacyHost) ≤ 1)%nat
  ∧ (timeoutSet (inst legacyHost) = true ↔ timers legacyHost ≠ [])
  ∧ (eventQueue (inst legacyHost) ≠ [] → timers legacyHost ≠ []).
Proof.
  assert (run legacyTrace (start (Some legacyConfig) false 1000000 (slide 0))
          = Some legacyHost) as Hrun by (vm_compute; reflexivity).
  split_and!; [exact Hrun | vm_compute; reflexivity | ..];
    apply (BroadcastJs_one_flush_timer _ _ _ _ _ _ Hrun).
Defined.

(** X13: no event is left behind in a session of [broadcast.js]: while
    the queue is not empty, exactly one timer is pending, and when it
    fires, at any time from its due time on, the whole queue goes out as
    one message, the queue is empty and [timeoutSet] is false again. *)
Theorem BroadcastJs_queue_is_flushed_by_its_timer
    (cfg : option config) (receiver : bool) (t0 : Z) (s0 : StateRecord)
    (tr : list (Z * event)) (h : host) :
  run tr (start cfg receiver t0 s0) = Some h →
  eventQueue (inst h) ≠ [] →
  ∃ tm, timers h = [tm]
        ∧ ∀ t, clock h ≤ t → t_due tm ≤ t →
            ∃ h', step t (Timeout (t_id tm)) h = Some h'
                  ∧ emitted (inst h')
                    = emitted (inst h)
                        ++ [queueMessage (opts (inst h))
                              (eventQueue (inst h))]
                  ∧ eventQueue (inst h') = []
                  ∧ timeoutSet (inst h') = false ∧ timers h' = [].
Proof.
  intros Hrun Hne.
  pose proof (flag_ok_run _ _ _ (flag_ok_start cfg receiver t0 s0) Hrun) as Hok.
  unfold flag_ok in Hok.
  destruct (timers h) as [|tm [|tm' l]] eqn:Ht; [by destruct Hok| |done].
  exists tm. split; [done|]. intros t Hclock Hdue.
  unfold step. rewrite (proj2 (Z.ltb_ge _ _) Hclock).
  set (h1 := Host _ _ _ t).
  destruct (BroadcastJsQueue_fireTimer_spec t tm h1 Ht Hdue)
    as (h2 & Hfire & Ht' & _ & _ & Hf & Hq & _ & _ & Hcase).
  exists h2. split; [done|]. simpl in Hcase.
  destruct (eventQueue (inst h)) as [|e q]; [done|].
  destruct Hcase as (-> & _). done.
Qed.

Lemma BroadcastJs_queue_is_flushed_by_its_timer_witness :
  run legacyTrace (start (Some legacyConfig) false 1000000 (slide 0))
  = Some legacyHost
  ∧ eventQueue (inst legacyHost) = [VStr "e1"]
  ∧ ∃ tm, timers legacyHost = [tm]
          ∧ ∀ t, clock legacyHost ≤ t → t_due tm ≤ t →
              ∃ h', step t (Timeout (t_id tm)) legacyHost = Some h'
                    ∧ emitted (inst h')
                      = emitted (inst legacyHost)
                          ++ [queueMessage (opts (inst legacyHost))
                                (eventQueue (inst legacyHost))]
                    ∧ eventQueue (inst h') = []
                    ∧ timeoutSet (inst h') = false ∧ timers h' = [].
Proof.
  assert (run legacyTrace (start (Some legacyConfig) false 1000000 (slide 0))
          = Some legacyHost) as Hrun by (vm_compute; reflexivity).
  assert (eventQueue (inst legacyHost) = [VStr "e1"]) as Hq
    by (vm_compute; reflexivity).
  split_and!; [exact Hrun | exact Hq |].
  apply (BroadcastJs_queue_is_flushed_by_its_timer _ _ _ _ _ _ Hrun).
  rewrite Hq. discriminate.
Defined.

Lemma postEventQueue_fifo (now : Z) (w : world) :
  BroadcastJs_sentEvents (postEventQueue now w)
    ++ eventQueue (postEventQueue now w)
  = BroadcastJs_sentEvents w ++ eventQueue w.
Proof.
  pose proof (postEventQueue_spec now w) as Hp. simpl in Hp.
  destruct Hp as (-> & _ & _ & _ & _ & _ & _ & _ & _ & Hcase).
  unfold BroadcastJs_sentEvents.
  destruct (eventQueue w) as [|e q]; [by rewrite Hcase|].
  destruct Hcase as (-> & _).
  rewrite omap_app, concat_app. simpl. by rewrite !app_nil_r.
Qed.

Lemma BroadcastJsQueue_step_fifo (t : Z) (e : event) (h h' : host) :
  step t e h = Some h' → masterWired (inst h) = true →
  masterWired (inst h') = true
  ∧ BroadcastJs_sentEvents (inst h') ++ eventQueue (inst h')
    = (BroadcastJs_sentEvents (inst h) ++ eventQueue (inst h))
        ++ BroadcastJsQueue_raisedBy e.
Proof.
  unfold step. destruct (_ <? _); [done|].
  set (h1 := Host _ _ _ t). change (inst h) with (inst h1).
  clearbody h1. clear h. intros Hstep Hm. destruct e as [e|c|id]; simpl.
  - destruct (BroadcastJs.step e (inst h1)) as [w'|] eqn:Hs; [|done].
    injection Hstep as <-. simpl.
    apply BroadcastJs_step_frame in Hs as (_ & _ & _ & -> & Hm' & ->).
    rewrite app_nil_r. auto.
  - rewrite Hm in Hstep. injection Hstep as <-.
    pose proof (BroadcastJsQueue_handleCustomEvent_cases t c h1) as Hc.
    simpl in Hc. destruct Hc as (_ & _ & -> & Hc). split; [done|].
    unfold BroadcastJs_sentEvents.
    destruct Hc as [(_ & -> & -> & _) | (_ & -> & -> & _)].
    + rewrite omap_app, concat_app. simpl.
      by rewrite !app_nil_r, <- !app_assoc.
    + by rewrite <- !app_assoc.
  - revert Hstep. unfold fireTimer.
    destruct (list_find _ _) as [[i tm]|]; [|done].
    destruct (_ <=? _); [|done]. intros [= <-].
    unfold runCallback. cbv zeta. simpl.
    rewrite postEventQueue_fifo, app_nil_r.
    pose proof (postEventQueue_spec t (set_timeoutSet false (inst h1))) as Hp.
    simpl in Hp. destruct Hp as (_ & _ & _ & -> & _).
    split; [by destruct h1 as [[] ? ? ?]|]. by destruct h1 as [[] ? ? ?].
Qed.

(** X14: the batcher of [broadcast.js] loses, repeats and reorders
    nothing: from a page whose publisher is set up, the batches sent
    followed by the queue are what they were before, followed by the
    contents of the 'send' events raised since, in order. *)
Theorem BroadcastJs_events_sent_in_order
    (tr : list (Z * event)) (h h' : host) :
  masterWired (inst h) = true →
  run tr h = Some h' →
  BroadcastJs_sentEvents (inst h') ++ eventQueue (inst h')
  = (BroadcastJs_sentEvents (inst h) ++ eventQueue (inst h))
      ++ concat (BroadcastJsQueue_raisedBy <$> tr.*2).
Proof.
  revert h. induction tr as [|[t e] tr IH]; intros h Hm; simpl.
  - intros [= <-]. by rewrite app_nil_r.
  - destruct (step t e h) as [h1|] eqn:Hstep; [|done]. intros Hrun.
    destruct (BroadcastJsQueue_step_fifo t e h h1 Hstep Hm) as [Hm1 Hf].
    rewrite (IH h1 Hm1 Hrun), Hf. by rewrite <- !app_assoc.
Qed.

Lemma BroadcastJs_events_sent_in_order_witness :
  masterWired (inst legacyLoaded) = true
  ∧ ∃ h', run (tail legacyTrace) legacyLoaded = Some h'
          ∧ BroadcastJs_sentEvents (inst h') ++ eventQueue (inst h')
            = [VStr "e0"; VStr "e1"].
Proof.
  assert (masterWired (inst legacyLoaded) = true) as Hm
    by (vm_compute; reflexivity).
  assert (∃ h', run (tail legacyTrace) legacyLoaded = Some h') as [h' Hh'].
  { destruct (run (tail legacyTrace) legacyLoaded) as [h'|] eqn:E;
      [by exists h'|]. vm_compute in E. discriminate. }
  split; [exact Hm|]. exists h'. split; [exact Hh'|].
  rewrite (BroadcastJs_events_sent_in_order _ _ _ Hm Hh').
  vm_compute. reflexivity.
Defined.

(** *** Roles *)

(** The loop of [handleReceivedMessage] over [data.events]. *)
Lemma BroadcastJs_dispatchReceived_all (events : list value) (w : world) :
  foldl (λ w content, dispatchReceived content w) w events
  = set_received (received w ++ events) w.
Proof.
  revert w. induction events as [|e events IH]; intros w.
  - destruct w. simpl. unfold set_received. simpl. by rewrite app_nil_r.
  - simpl. rewrite IH. destruct w. unfold dispatchReceived, set_received.
    simpl. by rewrite <- app_assoc.
Qed.

(** What one event of [BroadcastJs] does to the roles and the logs. *)
Lemma BroadcastJs_step_cases (e : BroadcastJs.event) (w w' : world) :
  BroadcastJs.step e w = Some w' →
  opts w' = opts w ∧ receiverUrl w' = receiverUrl w
  ∧ (masterWired w' = masterWired w
     ∨ masterWired w' = true ∧ truthy (master (opts w)) = true
       ∧ receiverUrl w = false)
  ∧ (clientWired w' = clientWired w
     ∨ clientWired w' = true ∧ truthy (client (opts w)) = true)
  ∧ ((emitted w' = emitted w ∧ applied w' = applied w
      ∧ received w' = received w ∧ lastMsgState w' = lastMsgState w)
     ∨ (masterWired w = true
        ∧ emitted w' = emitted w ++ [BroadcastJs_stateMessage (opts w) (deck w)]
        ∧ applied w' = applied w ∧ received w' = received w
        ∧ lastMsgState w' = Some (deck w)
        ∧ ∀ l, lastMsgState w = Some l → isEquivalent (deck w) l = false)
     ∨ (clientWired w = true ∧ emitted w' = emitted w
        ∧ ∃ data, e = Incoming data
                  ∧ m_socketId data = socketId (opts w)
                  ∧ applied w' = applied w ++ option_list (m_state data)
                  ∧ received w' = received w ++ default [] (m_events data)
                  ∧ lastMsgState w'
                    = from_option Some (lastMsgState w) (m_state data))).
Proof.
  destruct e; simpl.
  - destruct (_ && _); [|done]. intros [= <-]. unfold onScriptLoaded.
    replace (receiverUrl (set_socket true w)) with (receiverUrl w)
      by by destruct w.
    replace (opts (set_socket true w)) with (opts w) by by destruct w.
    destruct (truthy (master (opts w))) eqn:Hm;
      destruct (receiverUrl w) eqn:Hr; simpl;
      match goal with
      | |- context [truthy (client (opts ?x))] =>
          replace (opts x) with (opts w) by by destruct w
      end;
      destruct (truthy (client (opts w))) eqn:Hc;
      (split_and!; [by destruct w | by destruct w | | | left; by destruct w]);
      first [left; by destruct w | right; by destruct w].
  - intros [= <-]. split_and!; [by destruct w..| by left | by left|].
    left. by destruct w.
  - intros [= <-]. destruct (masterWired w) eqn:Hm;
      [|split_and!; [done..|by left|by left|by left]].
    unfold handleStateChange.
    destruct (lastMsgState w) as [l|] eqn:Hl.
    + destruct (isEquivalent (getState w) l) eqn:He; simpl.
      * split_and!; [done..|by left|by left|by left].
      * split_and!; [by destruct w..|left; by destruct w|left; by destruct w|].
        right. left. split_and!; try by destruct w.
        intros l' [= <-]. exact He.
    + split_and!; [by destruct w..|left; by destruct w|left; by destruct w|].
      right. left. split_and!; try by destruct w.
  - intros [= <-]. destruct (clientWired w) eqn:Hc;
      [|split_and!; [done..|by left|by left|by left]].
    unfold handleReceivedMessage.
    destruct (strict_ne _ _) eqn:Hne;
      [split_and!; [done..|by left|by left|by left]|].
    apply strict_ne_false in Hne.
    destruct (m_state data) as [s|] eqn:Hs;
      destruct (m_events data) as [q|] eqn:Hq;
      rewrite ?BroadcastJs_dispatchReceived_all;
      (split_and!; [by destruct w..|left; by destruct w|left; by destruct w|]);
      right; right; (split_and!; [done | by destruct w |]);
      exists data; rewrite Hs, Hq; simpl; rewrite ?app_nil_r;
      split_and!; try done; by destruct w.
Qed.

Lemma BroadcastJs_roles_ok_step (t : Z) (e : event) (h h' : host) :
  step t e h = Some h' → BroadcastJs_roles_ok h →
  BroadcastJs_roles_ok h'
  ∧ opts (inst h') = opts (inst h)
  ∧ receiverUrl (inst h') = receiverUrl (inst h).
Proof.
  unfold step. destruct (_ <? _); [done|].
  set (h1 := Host _ _ _ t). intros Hstep Hok.
  assert (BroadcastJs_roles_ok h1) as Hok1 by by destruct h.
  change (inst h) with (inst h1). clearbody h1. clear h Hok.
  pose proof Hok1 as (Hm & Hc & Hnm & Hnc). destruct e as [e|c|id].
  - destruct (BroadcastJs.step e (inst h1)) as [w'|] eqn:Hs; [|done].
    injection Hstep as <-.
    destruct (BroadcastJs_step_cases _ _ _ Hs) as (Ho & Hr & Hmw & Hcw & Hlog).
    split; [|done]. unfold BroadcastJs_roles_ok. simpl. rewrite Ho, Hr.
    split_and!.
    + destruct Hmw as [-> | (_ & ? & ?)]; done.
    + destruct Hcw as [-> | (_ & ?)]; done.
    + intros Hf. assert (masterWired (inst h1) = false) as Hf1.
      { destruct Hmw as [<- | (Ht & _)]; [done|congruence]. }
      destruct (Hnm Hf1) as (He & Ht & Hq).
      apply BroadcastJs_step_frame in Hs as (_ & _ & _ & -> & _).
      split_and!; [|done..].
      destruct Hlog as [(-> & _) | [(? & _) | (_ & -> & _)]]; congruence.
    + intros Hf. assert (clientWired (inst h1) = false) as Hf1.
      { destruct Hcw as [<- | (Ht & _)]; [done|congruence]. }
      destruct (Hnc Hf1) as (Ha & Hr').
      destruct Hlog as [(_ & -> & -> & _) | [(_ & _ & -> & -> & _) | (? & _)]];
        [done|done|congruence].
  - injection Hstep as <-.
    destruct (masterWired (inst h1)) eqn:Hmw; [|by split_and!].
    pose proof (BroadcastJsQueue_handleCustomEvent_cases t c h1) as Hcase.
    simpl in Hcase. destruct Hcase as (Ho & _ & Hm' & _).
    assert (clientWired (inst (handleCustomEvent t c h1))
            = clientWired (inst h1)
            ∧ applied (inst (handleCustomEvent t c h1))
              = applied (inst h1)
            ∧ received (inst (handleCustomEvent t c h1))
              = received (inst h1)
            ∧ receiverUrl (inst (handleCustomEvent t c h1))
              = receiverUrl (inst h1)) as (Hc' & Ha' & Hr' & Hu').
    { unfold handleCustomEvent. cbv zeta.
      destruct (_ <=? _); [|destruct (negb _)].
      - pose proof (postEventQueue_spec t
          (inst (set_inst (set_eventQueue
             (eventQueue (inst h1) ++ [c]) (inst h1)) h1))) as Hp.
        simpl in Hp. destruct Hp as (_ & _ & _ & _ & Hc' & _ & Ha' & Hr' & _).
        simpl. rewrite Hc', Ha', Hr'. split_and!; try by destruct h1 as [[] ? ? ?].
        unfold postEventQueue. by destruct (_ <? _)%nat; destruct h1 as [[] ? ? ?].
      - by destruct h1 as [[] ? ? ?].
      - by destruct h1 as [[] ? ? ?]. }
    split; [|by rewrite Ho, Hu']. unfold BroadcastJs_roles_ok. simpl.
    rewrite Ho, Hm', Hc', Ha', Hr', Hu', Hmw. split_and!; done.
  - revert Hstep. unfold fireTimer.
    destruct (masterWired (inst h1)) eqn:Hmw.
    + destruct (list_find _ _) as [[i tm]|]; [|done].
      destruct (_ <=? _); [|done]. intros [= <-].
      unfold runCallback. cbv zeta. simpl.
      pose proof (postEventQueue_spec t (set_timeoutSet false (inst h1))) as Hp.
      simpl in Hp.
      destruct Hp as (_ & _ & Ho & Hm' & Hc' & _ & Ha' & Hr' & _).
      assert (receiverUrl (postEventQueue t (set_timeoutSet false (inst h1)))
              = receiverUrl (inst h1)) as Hu'.
      { unfold postEventQueue. by destruct (_ <? _)%nat; destruct h1 as [[] ? ? ?]. }
      replace (opts (set_timeoutSet false (inst h1)))
        with (opts (inst h1)) in Ho by by destruct h1 as [[] ? ? ?].
      replace (masterWired (set_timeoutSet false (inst h1)))
        with (masterWired (inst h1)) in Hm' by by destruct h1 as [[] ? ? ?].
      replace (clientWired (set_timeoutSet false (inst h1)))
        with (clientWired (inst h1)) in Hc' by by destruct h1 as [[] ? ? ?].
      replace (applied (set_timeoutSet false (inst h1)))
        with (applied (inst h1)) in Ha' by by destruct h1 as [[] ? ? ?].
      replace (received (set_timeoutSet false (inst h1)))
        with (received (inst h1)) in Hr' by by destruct h1 as [[] ? ? ?].
      split; [|by rewrite Ho, Hu']. unfold BroadcastJs_roles_ok. simpl.
      rewrite Ho, Hm', Hc', Ha', Hr', Hu', Hmw. split_and!; done.
    + destruct (Hnm eq_refl) as (_ & -> & _). done.
Qed.

(** X15: the roles follow the options and the page's URL for the whole
    session of [broadcast.js]: on a page whose URL carries 'receiver', or
    with a falsy [master] option, the instance never sends a message, arms
    a timer or queues an event; with a falsy [client] option it never
    applies a state or re-raises an event. *)
Theorem BroadcastJs_roles_follow_options
    (cfg : option config) (receiver : bool) (t0 : Z) (s0 : StateRecord)
    (tr : list (Z * event)) (h : host) :
  run tr (start cfg receiver t0 s0) = Some h →
  (receiver = true ∨ truthy (master (opts (inst h))) = false →
     emitted (inst h) = [] ∧ timers h = []
     ∧ eventQueue (inst h) = [])
  ∧ (truthy (client (opts (inst h))) = false →
       applied (inst h) = [] ∧ received (inst h) = []).
Proof.
  intros Hrun.
  assert (BroadcastJs_roles_ok (start cfg receiver t0 s0)
          ∧ receiverUrl (inst (start cfg receiver t0 s0)) = receiver)
    as Hinit.
  { unfold BroadcastJs_roles_ok. simpl. by destruct cfg. }
  assert (BroadcastJs_roles_ok h ∧ receiverUrl (inst h) = receiver)
    as ((Hm & Hc & Hnm & Hnc) & Hu).
  { revert Hrun Hinit. generalize (start cfg receiver t0 s0).
    induction tr as [|[t e] tr IH]; intros h0; simpl.
    - by intros [= <-].
    - destruct (step t e h0) as [h1|] eqn:Hstep; [|done].
      intros Hrun [Hok Hr]. apply (IH h1 Hrun).
      destruct (BroadcastJs_roles_ok_step t e h0 h1 Hstep Hok) as (? & _ & ?).
      split; congruence. }
  split.
  - intros Hoff. apply Hnm.
    destruct (masterWired (inst h)); [|done].
    destruct (Hm eq_refl) as [Ht Hr]. destruct Hoff; congruence.
  - intros Hoff. apply Hnc.
    destruct (clientWired (inst h)); [|done].
    rewrite (Hc eq_refl) in Hoff. done.
Qed.

Lemma BroadcastJs_roles_follow_options_witness :
  run legacyTrace (start (Some legacyConfig) true 1000000 (slide 0))
  = Some legacyReceiver
  ∧ emitted (inst legacyReceiver) = [] ∧ timers legacyReceiver = []
  ∧ eventQueue (inst legacyReceiver) = []
  ∧ clientWired (inst legacyReceiver) = true.
Proof.
  assert (run legacyTrace (start (Some legacyConfig) true 1000000 (slide 0))
          = Some legacyReceiver) as Hrun by (vm_compute; reflexivity).
  destruct (BroadcastJs_roles_follow_options _ _ _ _ _ _ Hrun) as [Hm _].
  destruct (Hm (or_introl eq_refl)) as (He & Ht & Hq).
  split_and!; [exact Hrun | exact He | exact Ht | exact Hq
              | vm_compute; reflexivity].
Defined.

(** *** No state twice in a row *)

Lemma postEventQueue_states (now : Z) (w : world) :
  BroadcastJs_statePublishes (postEventQueue now w) = BroadcastJs_statePublishes w.
Proof.
  pose proof (postEventQueue_spec now w) as Hp. simpl in Hp.
  destruct Hp as (_ & _ & _ & _ & _ & _ & _ & _ & _ & Hcase).
  unfold BroadcastJs_statePublishes.
  destruct (eventQueue w) as [|e q]; [by rewrite Hcase|].
  destruct Hcase as (-> & _). rewrite omap_app. simpl. by rewrite app_nil_r.
Qed.

Lemma BroadcastJsQueue_batcher_frame (t : Z) (e : event) (h h' : host) :
  step t e h = Some h' → (∀ e0, e ≠ Base e0) →
  lastMsgState (inst h') = lastMsgState (inst h)
  ∧ applied (inst h') = applied (inst h)
  ∧ received (inst h') = received (inst h)
  ∧ deck (inst h') = deck (inst h)
  ∧ BroadcastJs_statePublishes (inst h') = BroadcastJs_statePublishes (inst h).
Proof.
  unfold step. destruct (_ <? _); [done|].
  set (h1 := Host _ _ _ t). change (inst h) with (inst h1).
  clearbody h1. clear h. intros Hstep Hnb. destruct e as [e|c|id].
  - by destruct (Hnb e).
  - injection Hstep as <-. destruct (masterWired (inst h1)); [|done].
    unfold handleCustomEvent. cbv zeta.
    destruct (_ <=? _); [|destruct (negb _)].
    + simpl. rewrite postEventQueue_states.
      pose proof (postEventQueue_spec t
        (set_eventQueue (eventQueue (inst h1) ++ [c]) (inst h1))) as Hp.
      simpl in Hp. destruct Hp as (_ & _ & _ & _ & _ & -> & -> & -> & -> & _).
      by destruct h1 as [[] ? ? ?].
    + by destruct h1 as [[] ? ? ?].
    + by destruct h1 as [[] ? ? ?].
  - revert Hstep. unfold fireTimer.
    destruct (list_find _ _) as [[i tm]|]; [|done].
    destruct (_ <=? _); [|done]. intros [= <-].
    unfold runCallback. cbv zeta. simpl. rewrite postEventQueue_states.
    pose proof (postEventQueue_spec t (set_timeoutSet false (inst h1))) as Hp.
    simpl in Hp. destruct Hp as (_ & _ & _ & _ & _ & -> & -> & -> & -> & _).
    by destruct h1 as [[] ? ? ?].
Qed.

Lemma BroadcastJs_noRepeat_snoc (l : list StateRecord) (s : StateRecord) :
  BroadcastJs_noRepeat l →
  (∀ a, last l = Some a → isEquivalent s a = false) →
  BroadcastJs_noRepeat (l ++ [s]).
Proof.
  intros Hl Hs i a b Ha Hb.
  destruct (decide (S i < length l)%nat) as [Hlt|Hge].
  - rewrite lookup_app_l in Ha by lia. rewrite lookup_app_l in Hb by lia.
    by apply (Hl i).
  - assert (S i = length l) as Hi.
    { apply lookup_lt_Some in Hb. rewrite length_app in Hb. simpl in Hb. lia. }
    rewrite lookup_app_l in Ha by lia.
    rewrite Hi, list_lookup_middle in Hb by done. injection Hb as <-.
    apply Hs. rewrite last_lookup. rewrite <- Hi. simpl. exact Ha.
Qed.

Lemma BroadcastJs_fresh_ok_step (t : Z) (e : event) (h h' : host) :
  step t e h = Some h' →
  BroadcastJs_fresh_ok (inst h) → BroadcastJs_fresh_ok (inst h').
Proof.
  intros Hstep Hok. destruct e as [e|c|id].
  - revert Hstep. unfold step. destruct (_ <? _); [done|]. simpl.
    destruct (BroadcastJs.step e (inst h)) as [w'|] eqn:Hs; [|done].
    intros [= <-]. simpl.
    destruct (BroadcastJs_step_cases _ _ _ Hs) as (_ & _ & _ & _ & Hlog).
    unfold BroadcastJs_fresh_ok, BroadcastJs_statePublishes in *.
    destruct Hlog as [(-> & -> & _ & ->)
                     | [(_ & -> & -> & _ & -> & Hne)
                       | (_ & -> & data & _ & _ & -> & _ & ->)]].
    + done.
    + intros Ha. destruct (Hok Ha) as [Hl Hn]. rewrite omap_app. simpl.
      split; [by rewrite last_snoc|].
      apply BroadcastJs_noRepeat_snoc; [done|].
      intros a Hlast. apply Hne. by rewrite Hl.
    + intros Ha. destruct (m_state data); simpl in *.
      * by destruct (applied (inst h)).
      * rewrite app_nil_r in Ha. by apply Hok.
  - destruct (BroadcastJsQueue_batcher_frame _ _ _ _ Hstep)
      as (Hl & Ha & _ & _ & Hp); [done|].
    unfold BroadcastJs_fresh_ok. by rewrite Hl, Ha, Hp.
  - destruct (BroadcastJsQueue_batcher_frame _ _ _ _ Hstep)
      as (Hl & Ha & _ & _ & Hp); [done|].
    unfold BroadcastJs_fresh_ok. by rewrite Hl, Ha, Hp.
Qed.

(** X16: an instance of [broadcast.js] that has applied no remote state
    never publishes two equivalent states in a row: every state published
    differs, by [isEquivalent], from the one published before it. *)
Theorem BroadcastJs_never_publishes_a_state_twice_in_a_row
    (cfg : option config) (receiver : bool) (t0 : Z) (s0 : StateRecord)
    (tr : list (Z * event)) (h : host) :
  run tr (start cfg receiver t0 s0) = Some h →
  applied (inst h) = [] →
  ∀ i a b,
    BroadcastJs_statePublishes (inst h) !! i = Some a →
    BroadcastJs_statePublishes (inst h) !! S i = Some b →
    isEquivalent b a = false.
Proof.
  intros Hrun Ha.
  assert (BroadcastJs_fresh_ok (inst (start cfg receiver t0 s0))) as Hinit.
  { intros _. unfold BroadcastJs_statePublishes. simpl.
    replace (emitted _) with (@nil message) by by destruct cfg.
    replace (lastMsgState _) with (@None StateRecord) by by destruct cfg.
    split; [done|]. intros i a b Hi. done. }
  assert (BroadcastJs_fresh_ok (inst h)) as Hok.
  { revert Hrun Hinit. generalize (start cfg receiver t0 s0).
    induction tr as [|[t e] tr IH]; intros h0; simpl.
    - by intros [= <-].
    - destruct (step t e h0) as [h1|] eqn:Hstep; [|done].
      intros Hrun Hok. apply (IH h1 Hrun).
      by apply (BroadcastJs_fresh_ok_step t e h0). }
  by destruct (Hok Ha).
Qed.

Lemma BroadcastJs_never_publishes_a_state_twice_in_a_row_witness :
  run legacyTrace (start (Some legacyConfig) false 1000000 (slide 0))
  = Some legacyHost
  ∧ applied (inst legacyHost) = []
  ∧ BroadcastJs_statePublishes (inst legacyHost) = [slide 0; slide 1]
  ∧ isEquivalent (slide 1) (slide 0) = false.
Proof.
  assert (run legacyTrace (start (Some legacyConfig) false 1000000 (slide 0))
          = Some legacyHost) as Hrun by (vm_compute; reflexivity).
  assert (applied (inst legacyHost) = []) as Ha by (vm_compute; reflexivity).
  assert (BroadcastJs_statePublishes (inst legacyHost) = [slide 0; slide 1])
    as Hp by (vm_compute; reflexivity).
  split_and!; [exact Hrun | exact Ha | exact Hp |].
  apply (BroadcastJs_never_publishes_a_state_twice_in_a_row
           _ _ _ _ _ _ Hrun Ha 0%nat); by rewrite Hp.
Defined.

(** *** Round trip *)

(** X17: round trip in [broadcast.js]: when the engine's state is new to
    the sender, [handleStateChange] sends it, and that message, handed to
    [handleReceivedMessage] of an instance with the same [socketId], puts
    the receiver's engine in that state with one call of [setState] and
    sends nothing; and as long as the receiver's engine reports a state
    equivalent to the one received, [handleStateChange] changes nothing:
    the state is not echoed. *)
Theorem BroadcastJs_applies_received_state_without_echo
    (a b : world) :
  socketId (opts a) = socketId (opts b) →
  (∀ l, lastMsgState a = Some l → isEquivalent (getState a) l = false) →
  let m := BroadcastJs_stateMessage (opts a) (getState a) in
  let b' := handleReceivedMessage m b in
  emitted (handleStateChange a) = emitted a ++ [m]
  ∧ getState b' = getState a
  ∧ applied b' = applied b ++ [getState a]
  ∧ emitted b' = emitted b
  ∧ ∀ s', isEquivalent s' (getState a) = true →
      handleStateChange (set_deck s' b') = set_deck s' b'.
Proof.
  intros Hid Hnew. cbv zeta.
  assert (handleReceivedMessage
            (BroadcastJs_stateMessage (opts a) (getState a)) b
          = setState (getState a)
              (set_lastMsgState (Some (getState a)) b)) as ->.
  { unfold handleReceivedMessage. simpl. rewrite Hid.
    by rewrite (proj2 (strict_ne_false _ _) eq_refl). }
  split_and!; [|by destruct b..|].
  - unfold handleStateChange.
    destruct (lastMsgState a) as [l|] eqn:Hl.
    + rewrite (Hnew l eq_refl). simpl. by destruct a.
    + by destruct a.
  - intros s' He. apply BroadcastJs_handleStateChange_same.
    exists (getState a). split; [by destruct b|].
    replace (getState _) with s' by by destruct b. exact He.
Qed.

Lemma BroadcastJs_applies_received_state_without_echo_witness :
  socketId (opts (inst legacyLoaded)) = socketId (opts (inst legacyLoaded))
  ∧ lastMsgState (inst legacyLoaded) = None
  ∧ getState (handleReceivedMessage
                (BroadcastJs_stateMessage (opts (inst legacyLoaded))
                   (getState (inst legacyLoaded)))
                (inst legacyLoaded))
    = getState (inst legacyLoaded)
  ∧ emitted (handleStateChange (inst legacyLoaded))
    = emitted (inst legacyLoaded)
        ++ [BroadcastJs_stateMessage (opts (inst legacyLoaded))
              (getState (inst legacyLoaded))].
Proof.
  assert (lastMsgState (inst legacyLoaded) = None) as Hl
    by (vm_compute; reflexivity).
  destruct (BroadcastJs_applies_received_state_without_echo
              (inst legacyLoaded) (inst legacyLoaded) eq_refl)
    as (He & Hg & _).
  { intros l Hl'. rewrite Hl in Hl'. discriminate. }
  split_and!; [reflexivity | exact Hl | exact Hg | exact He].
Defined.

(** *** What is sent *)

(** What one turn of the loop adds to the log of the socket. *)
Lemma BroadcastJsQueue_step_emits (t : Z) (e : event) (h h' : host) :
  step t e h = Some h' →
  opts (inst h') = opts (inst h)
  ∧ (emitted (inst h') = emitted (inst h)
     ∨ ∃ m, BroadcastJs_ownMessage (opts (inst h)) m
            ∧ emitted (inst h') = emitted (inst h) ++ [m]).
Proof.
  unfold step. destruct (_ <? _); [done|].
  set (h1 := Host _ _ _ t). change (inst h) with (inst h1).
  clearbody h1. clear h. intros Hstep. destruct e as [e|c|id].
  - destruct (BroadcastJs.step e (inst h1)) as [w'|] eqn:Hs; [|done].
    injection Hstep as <-. simpl.
    destruct (BroadcastJs_step_cases _ _ _ Hs) as (Ho & _ & _ & _ & Hlog).
    split; [done|].
    destruct Hlog as [(-> & _) | [(_ & -> & _) | (_ & -> & _)]];
      [by left| |by left].
    right. eexists. split; [|done]. left. by eexists.
  - injection Hstep as <-. destruct (masterWired (inst h1)); [|by split; [|left]].
    pose proof (BroadcastJsQueue_handleCustomEvent_cases t c h1) as Hc.
    simpl in Hc. destruct Hc as (Ho & _ & _ & [(_ & -> & _) | (_ & -> & _)]);
      (split; [done|]); [|by left].
    right. eexists. split; [|done]. right. eexists. split; [|done].
    by destruct (eventQueue (inst h1)).
  - revert Hstep. unfold fireTimer.
    destruct (list_find _ _) as [[i tm]|]; [|done].
    destruct (_ <=? _); [|done]. intros [= <-].
    unfold runCallback. cbv zeta. simpl.
    pose proof (postEventQueue_spec t (set_timeoutSet false (inst h1))) as Hp.
    simpl in Hp. destruct Hp as (_ & _ & Ho & _ & _ & _ & _ & _ & _ & Hcase).
    replace (opts (set_timeoutSet false (inst h1)))
      with (opts (inst h1)) in * by by destruct h1 as [[] ? ? ?].
    replace (emitted (set_timeoutSet false (inst h1)))
      with (emitted (inst h1)) in * by by destruct h1 as [[] ? ? ?].
    split; [done|].
    destruct (eventQueue (inst h1)) as [|e q] eqn:E.
    + left. rewrite Hcase. by destruct h1 as [[] ? ? ?].
    + right. destruct Hcase as (-> & _). eexists. split; [|done].
      right. by exists (e :: q).
Qed.

(** X18: every message a session of [broadcast.js] sends carries the
    instance's own [secret] and [socketId] and either a state and no
    events, or a non-empty batch of events and no state. *)
Theorem BroadcastJs_messages_carry_own_tags
    (cfg : option config) (receiver : bool) (t0 : Z) (s0 : StateRecord)
    (tr : list (Z * event)) (h : host) :
  run tr (start cfg receiver t0 s0) = Some h →
  ∀ m, m ∈ emitted (inst h) →
    m_secret m = secret (opts (inst h))
    ∧ m_socketId m = socketId (opts (inst h))
    ∧ ((∃ s, m_state m = Some s ∧ m_events m = None)
       ∨ (∃ q, q ≠ [] ∧ m_state m = None ∧ m_events m = Some q)).
Proof.
  intros Hrun.
  assert (Forall (BroadcastJs_ownMessage (opts (inst h)))
            (emitted (inst h))) as Hall.
  { assert (Forall (BroadcastJs_ownMessage
                      (opts (inst (start cfg receiver t0 s0))))
              (emitted (inst (start cfg receiver t0 s0)))) as Hinit.
    { simpl. replace (emitted _) with (@nil message) by by destruct cfg.
      done. }
    revert Hrun Hinit. generalize (start cfg receiver t0 s0).
    induction tr as [|[t e] tr IH]; intros h0; simpl.
    - by intros [= <-].
    - destruct (step t e h0) as [h1|] eqn:Hstep; [|done].
      intros Hrun Hall. apply (IH h1 Hrun).
      destruct (BroadcastJsQueue_step_emits _ _ _ _ Hstep)
        as (-> & [-> | (m & Hm & ->)]); [done|].
      apply Forall_app. split; [done|]. by apply Forall_singleton. }
  intros m Hm. rewrite Forall_forall in Hall.
  destruct (Hall m Hm) as [[s ->] | (q & Hq & ->)]; simpl.
  - split_and!; [done..|]. left. by exists s.
  - split_and!; [done..|]. right. by exists q.
Qed.

Lemma BroadcastJs_messages_carry_own_tags_witness :
  run legacyTrace (start (Some legacyConfig) false 1000000 (slide 0))
  = Some legacyHost
  ∧ emitted (inst legacyHost) ≠ []
  ∧ ∀ m, m ∈ emitted (inst legacyHost) →
      m_secret m = secret (opts (inst legacyHost))
      ∧ m_socketId m = socketId (opts (inst legacyHost))
      ∧ ((∃ s, m_state m = Some s ∧ m_events m = None)
         ∨ (∃ q, q ≠ [] ∧ m_state m = None ∧ m_events m = Some q)).
Proof.
  assert (run legacyTrace (start (Some legacyConfig) false 1000000 (slide 0))
          = Some legacyHost) as Hrun by (vm_compute; reflexivity).
  split_and!; [exact Hrun | vm_compute; discriminate |].
  exact (BroadcastJs_messages_carry_own_tags _ _ _ _ _ _ Hrun).
Defined.


End BroadcastJsSession.

(** ** The two batchers side by side *)

(** Filtering the image of a list. *)
Lemma filter_fmap_list {A B} (f : A → B) (P : B → Prop)
    `{!∀ y, Decision (P y)} (l : list A) :
  filter P (f <$> l) = f <$> filter (P ∘ f) l.
Proof.
  induction l as [|x l IH]; [done|]. csimpl.
  destruct (decide (P (f x))) as [HP|HP].
  - rewrite !filter_cons_True by done. csimpl. by rewrite IH.
  - rewrite !filter_cons_False by done. done.
Qed.

(** One turn of the two loops on the same event keeps the batchers in the
    same state, and refuses the event in the one when it does in the
    other. *)
Lemma sameBatcher_step (t : Z) (e : batcherEvent) (w : world)
    (h : BroadcastJsQueue.host) :
  sameBatcher w h →
  option_Forall2 sameBatcher (step t (Part000_event e) w)
    (BroadcastJsQueue.step t (BroadcastJs_event e) h).
Proof.
  intros (Hs & Hi & Hd & Hm & Hc & Hq & Hl & Hf & Hn & Ht & He).
  unfold step, BroadcastJsQueue.step. rewrite <- Hc.
  destruct (t <? clock w); [constructor|].
  set (h1 := BroadcastJsQueue.Host _ _ _ t).
  assert (sameBatcher (set_clock t w) h1) as Hsame.
  { unfold sameBatcher. subst h1. simpl. by destruct w. }
  clearbody h1. revert Hsame. generalize (set_clock t w).
  clear w h Hs Hi Hd Hm Hc Hq Hl Hf Hn Ht He.
  intros w Hsame.
  pose proof Hsame as (Hs & Hi & Hd & Hm & Hc & Hq & Hl & Hf & Hn & Ht & He).
  destruct e as [c|id]; simpl.
  - constructor. rewrite <- Hm. destruct (masterWired w) eqn:Hmw; [|done].
    pose proof (handleCustomEvent_frame t c w) as Hfr. simpl in Hfr.
    destruct Hfr as (Ho & _ & Hck & _ & Hmw' & _).
    pose proof (BroadcastJsQueue_handleCustomEvent_cases t c h1) as Hb.
    simpl in Hb. destruct Hb as (Hbo & Hbc & Hbm & Hb).
    unfold sameBatcher. cbv zeta. rewrite Ho, Hck, Hmw', Hbo, Hbc, Hbm.
    destruct Hb as [(Hge & -> & -> & -> & -> & -> & ->)
                   | (Hlt & -> & -> & -> & -> & Hcase)].
    + rewrite <- Hd, <- Hl in Hge.
      destruct (handleCustomEvent_flush t c w Hge)
        as (-> & -> & -> & -> & -> & -> & _).
      split_and!; try done; try congruence.
      unfold eventsMessage, queueMessage. by rewrite Hs, Hi, Hq, He.
    + rewrite <- Hd, <- Hl in Hlt.
      destruct (handleCustomEvent_queue t c w Hlt)
        as (-> & -> & -> & _ & Hcase').
      rewrite <- Hf in Hcase.
      destruct (eventDispatchTimer w) as [id|].
      * destruct Hcase' as (-> & -> & ->). destruct Hcase as (-> & ->).
        split_and!; try done; congruence.
      * destruct Hcase' as (-> & -> & ->). destruct Hcase as (-> & ->).
        split_and!; try done; try congruence.
        rewrite fmap_app. simpl. unfold flushTimer at 2. simpl.
        by rewrite Ht, Hn, Hl, Hd.
  - unfold fireTimer, BroadcastJsQueue.fireTimer. rewrite Ht.
    rewrite list_find_fmap.
    assert (list_find ((λ tm, t_id tm = id) ∘ flushTimer)
              (BroadcastJsQueue.timers h1)
            = list_find (λ tm, BroadcastJsQueue.t_id tm = id)
                (BroadcastJsQueue.timers h1)) as -> by done.
    destruct (list_find _ (BroadcastJsQueue.timers h1)) as [[i tm]|]; simpl;
      [|constructor].
    destruct (BroadcastJsQueue.t_due tm <=? t); [|constructor]. constructor.
    unfold BroadcastJsQueue.runCallback. cbv zeta. simpl.
    set (w1 := set_eventDispatchTimer None (clearTimeout id w)).
    set (b1 := BroadcastJsQueue.set_timeoutSet false (BroadcastJsQueue.inst h1)).
    assert (secret (opts w1) = BroadcastJs.secret (BroadcastJs.opts b1)
            ∧ socketId (opts w1) = BroadcastJs.socketId (BroadcastJs.opts b1)
            ∧ eventDispatchDelay (opts w1)
              = BroadcastJs.dispatchDelay (BroadcastJs.opts b1)
            ∧ masterWired w1 = BroadcastJs.masterWired b1
            ∧ clock w1 = BroadcastJsQueue.clock h1
            ∧ eventQueue w1 = BroadcastJs.eventQueue b1
            ∧ lastEventDispatch w1 = BroadcastJs.lastDispatch b1
            ∧ eventDispatchTimer w1 = None
            ∧ BroadcastJs.timeoutSet b1 = false
            ∧ nextTimer w1 = BroadcastJsQueue.nextTimer h1
            ∧ timers w1
              = flushTimer
                  <$> filter (λ tm, BroadcastJsQueue.t_id tm ≠ id)
                        (BroadcastJsQueue.timers h1)
            ∧ emitted w1 = BroadcastJs.emitted b1)
      as (Hs1 & Hi1 & Hd1 & Hm1 & Hc1 & Hq1 & Hl1 & Hf1 & Hf1' & Hn1 & Ht1
          & He1).
    { subst w1 b1.
      split_and!; try by (destruct w; destruct h1 as [[] ? ? ?]).
      replace (timers _) with (filter (λ tm, t_id tm ≠ id) (timers w))
        by by destruct w.
      rewrite Ht. by rewrite filter_fmap_list. }
    clearbody w1 b1.
    pose proof (postEventQueue_spec t b1) as Hp. simpl in Hp.
    destruct Hp as (Hbq & Hbf & Hbo & Hbm & _ & _ & _ & _ & _ & Hbcase).
    unfold sameBatcher. simpl. rewrite Hbq, Hbf, Hbo, Hbm.
    destruct (eventQueue w1) as [|e q] eqn:E.
    + rewrite dispatchEventQueue_empty by done. rewrite <- Hq1 in Hbcase.
      rewrite Hbcase, E, Hf1. by split_and!.
    + destruct (dispatchEventQueue_flush t w1)
        as (-> & -> & -> & -> & -> & -> & ->); [by rewrite E|].
      rewrite <- Hq1 in Hbcase. destruct Hbcase as (-> & ->).
      assert (masterWired (dispatchEventQueue t w1) = masterWired w1
              ∧ clock (dispatchEventQueue t w1) = clock w1) as (-> & ->).
      { unfold dispatchEventQueue. rewrite E. simpl. by destruct w1. }
      rewrite Hf1. split_and!; try done.
      unfold eventsMessage, queueMessage. by rewrite Hs1, Hi1, He1, E.
Qed.

(** X19: on 'send' events and timer firings the batcher of
    [broadcast.js] behaves as the one of [part_000]: started in the same
    state and driven by the same events at the same times, the two
    variants refuse the same events and end in the same state, with the
    same messages sent, the same queue and the same timers pending. *)
Theorem batchers_of_the_two_variants_agree
    (tr : list (Z * batcherEvent)) (w : world) (h : BroadcastJsQueue.host) :
  sameBatcher w h →
  option_Forall2 sameBatcher
    (run (prod_map id Part000_event <$> tr) w)
    (BroadcastJsQueue.run (prod_map id BroadcastJs_event <$> tr) h).
Proof.
  revert w h. induction tr as [|[t e] tr IH]; intros w h Hsame; simpl.
  - by constructor.
  - destruct (sameBatcher_step t e w h Hsame) as [w1 h1 Hsame1|];
      [|constructor].
    by apply IH.
Qed.

Lemma batchers_of_the_two_variants_agree_witness :
  sameBatcher connectedWorld legacyLoaded
  ∧ option_Forall2 sameBatcher
      (run (prod_map id Part000_event <$> threeRaised) connectedWorld)
      (BroadcastJsQueue.run (prod_map id BroadcastJs_event <$> threeRaised)
         legacyLoaded)
  ∧ emitted <$> run (prod_map id Part000_event <$> threeRaised) connectedWorld
    = Some [eventsMessage (opts connectedWorld) [VStr "e1"];
            eventsMessage (opts connectedWorld) [VStr "e2"; VStr "e3"]].
Proof.
  assert (sameBatcher connectedWorld legacyLoaded) as Hsame.
  { unfold sameBatcher. cbv zeta. split_and!; vm_compute; reflexivity. }
  split_and!; [exact Hsame | | vm_compute; reflexivity].
  exact (batchers_of_the_two_variants_agree threeRaised _ _ Hsame).
Defined.


(** ** Loading the transport script *)

Section LoadJavaScriptCalls.

Import LoadJavaScript.

(** With no handler installed the callback is not called. *)
Lemma notify_done (ns : list notification) (p : page) :
  onreadystatechange p.1 = false → onload p.1 = false →
  (foldl notify p ns).2 = p.2.
Proof.
  revert p. induction ns as [|n ns IH]; intros [script calls] Hr Hl; [done|].
  simpl in *. destruct n as [rs|]; simpl.
  - rewrite Hr. by rewrite IH.
  - rewrite Hl. by rewrite IH.
Qed.

(** The handler of [onreadystatechange] calls back once, and removes
    itself. *)
Lemma notify_readyState (ns : list notification) (p : page) :
  onreadystatechange p.1 = true → onload p.1 = false →
  (foldl notify p ns).2
  = (p.2 + if existsb finished ns then 1 else 0)%nat.
Proof.
  revert p. induction ns as [|n ns IH]; intros [script calls] Hr Hl; simpl in *.
  - lia.
  - destruct n as [rs|]; simpl.
    + rewrite Hr. unfold onreadystatechangeHandler. simpl.
      destruct (strict_eq rs (VStr "loaded") || strict_eq rs (VStr "complete"));
        simpl.
      * rewrite notify_done by done. simpl. lia.
      * by rewrite IH.
    + rewrite Hl. by rewrite IH.
Qed.

(** The handler of [onload] calls back at each 'load' event. *)
Lemma notify_load (ns : list notification) (p : page) :
  onreadystatechange p.1 = false → onload p.1 = true →
  (foldl notify p ns).2 = (p.2 + length (filter (λ n, isLoad n = true) ns))%nat.
Proof.
  revert p. induction ns as [|n ns IH]; intros [script calls] Hr Hl.
  - simpl. lia.
  - destruct n as [rs|].
    + rewrite filter_cons_False by done. simpl in *. rewrite Hr.
      by rewrite IH.
    + rewrite filter_cons_True by done. simpl in *. rewrite Hl. simpl.
      rewrite IH by done. simpl. lia.
Qed.

(** X20: how often [loadJavaScript] calls back. Where a new script element
    shows a truthy [readyState], the callback runs once, at the first
    change of [readyState] to "loaded" or "complete", and never again,
    whatever the browser reports afterwards; elsewhere it runs once for
    each 'load' event of the element, and changes of [readyState] are
    ignored. *)
Theorem loadJavaScript_calls_back
    (url : string) (rs : value) (ns : list notification) :
  (foldl notify (loadJavaScript url rs) ns).2
  = if truthy rs
    then (if existsb finished ns then 1 else 0)%nat
    else length (filter (λ n, isLoad n = true) ns).
Proof.
  unfold loadJavaScript. cbv zeta. simpl.
  destruct (truthy rs).
  - by rewrite notify_readyState.
  - by rewrite notify_load.
Qed.

End LoadJavaScriptCalls.
